(** * The node core of the Raft library: [src/raft/node.cpp]

    A shallow embedding of [raft::NodeImpl] (role transitions, the three RPC
    handlers, configuration change and snapshot coordination) as pure
    functions over an explicit node state.  Every member function that runs
    under [_mutex] becomes a function [NodeImpl -> ... -> NodeImpl]; a failed
    glog [CHECK] aborts the process and is the [None] of the option monad, and
    so is a call through a collaborator pointer that is still NULL (see
    [Pointers]). *)

From Stdlib Require Import ZArith Bool Lia.
From stdpp Require Import base option list gmap strings.

Local Open Scope Z_scope.

(** ** [int64_t] arithmetic *)

Module Int64.
Definition modulus : Z := 2 ^ 64.
Definition min_signed : Z := - 2 ^ 63.
Definition max_signed : Z := 2 ^ 63 - 1.

(** Two's-complement reduction of a mathematical integer into the range of
    [int64_t]. *)
Definition wrap (x : Z) : Z :=
  (x + 2 ^ 63) mod modulus - 2 ^ 63.

Definition add (x y : Z) : Z := wrap (x + y).
Definition sub (x y : Z) : Z := wrap (x - y).

Definition in_range (x : Z) : Prop := min_signed <= x <= max_signed.
End Int64.

(** ** errno values returned by the node (Linux numbering) *)

Definition EPERM : Z := 1.
Definition ENOENT : Z := 2.
Definition EAGAIN : Z := 11.
Definition EINVAL : Z := 22.
Definition ESTALE : Z := 116.

(** ** Identities and peer sets *)

(** Modelled from the spec: [PeerId] is declared in [raft/raft.h], which is
    not part of the sources at hand.  A peer is an endpoint (ip, port) and a
    replica tag; the empty peer is the all-zero one ([IP_ANY:0:0]). *)
Record PeerId := mkPeerId {
  peer_ip : Z;
  peer_port : Z;
  peer_idx : Z
}.

Global Instance PeerId_eq_dec : EqDecision PeerId.
Proof. solve_decision. Defined.

Global Instance PeerId_countable : Countable PeerId.
Proof.
  refine (inj_countable'
            (fun p => (peer_ip p, peer_port p, peer_idx p))
            (fun t => mkPeerId t.1.1 t.1.2 t.2) _).
  by intros [].
Defined.

Definition empty_peer : PeerId := mkPeerId 0 0 0.

(** [PeerId::is_empty], [PeerId::reset] and [operator==]. *)
Definition is_empty (p : PeerId) : bool := bool_decide (p = empty_peer).
Definition peer_eqb (p q : PeerId) : bool := bool_decide (p = q).

(** Modelled from the spec: [Configuration] (declared in
    [raft/configuration.h]) is a [std::set<PeerId>] with the peer-set algebra
    equal / contain / add / remove. *)
Definition Configuration : Type := gset PeerId.

Module Conf.
Definition of_peers (peers : list PeerId) : gset PeerId := list_to_set peers.
Definition empty (c : gset PeerId) : bool := bool_decide (c = ∅).
Definition equal (c : gset PeerId) (peers : list PeerId) : bool :=
  bool_decide (c = list_to_set peers).
Definition contain (c : gset PeerId) (p : PeerId) : bool :=
  bool_decide (p ∈ c).
Definition contain_all (c : gset PeerId) (peers : list PeerId) : bool :=
  forallb (contain c) peers.
Definition add_peer (c : gset PeerId) (p : PeerId) : gset PeerId := c ∪ {[p]}.
Definition remove_peer (c : gset PeerId) (p : PeerId) : gset PeerId := c ∖ {[p]}.
Definition peer_vector (c : gset PeerId) : list PeerId := elements c.
Definition reset : gset PeerId := ∅.
End Conf.

(** ** Log entries, snapshots, closures *)

(** The four roles the source names; the enumeration itself is declared in
    [raft/raft.h]. *)
Inductive State := LEADER | CANDIDATE | FOLLOWER | SHUTDOWN.

Global Instance State_eq_dec : EqDecision State.
Proof. solve_decision. Defined.

(** The entry types of the wire protocol: the four of the specification and
    [ENTRY_TYPE_UNKNOWN], which [handle_append_entries_request] tests for. *)
Inductive EntryType :=
  | ENTRY_TYPE_UNKNOWN
  | ENTRY_TYPE_NO_OP
  | ENTRY_TYPE_DATA
  | ENTRY_TYPE_ADD_PEER
  | ENTRY_TYPE_REMOVE_PEER.

Global Instance EntryType_eq_dec : EqDecision EntryType.
Proof. solve_decision. Defined.

(** A [base::IOBuf] is a byte string. *)
Definition IOBuf : Type := list Byte.byte.

(** [IOBuf::cutn(out, n)] with [n] a [size_t]: moves [min n size] bytes from
    the front of the buffer to the end of [out]. *)
Definition cutn (buf out : IOBuf) (n : Z) : IOBuf * IOBuf :=
  (drop (Z.to_nat n) buf, out ++ take (Z.to_nat n) buf).

(** [struct LogEntry]: [peers] is a pointer, null unless allocated. *)
Record LogEntry := mkLogEntry {
  entry_index : Z;
  entry_term : Z;
  entry_type : EntryType;
  entry_peers : option (list PeerId);
  entry_data : IOBuf
}.

Definition new_LogEntry : LogEntry :=
  mkLogEntry 0 0 ENTRY_TYPE_UNKNOWN None [].

Record SnapshotMeta := mkSnapshotMeta {
  last_included_index : Z;
  last_included_term : Z;
  last_configuration : gset PeerId
}.

(** A user completion ([Closure*]) is identified by a number. *)
Definition Closure : Type := nat.

Definition ConfigurationPair : Type := Z * gset PeerId.

(** Modelled from the spec: [ConfigurationCtx] (declared in [raft/node.h]) is
    the snapshot of the old peers taken when a configuration change is in
    flight, empty otherwise. *)
Definition ConfigurationCtx : Type := list PeerId.

Module ConfCtx.
Definition empty (c : ConfigurationCtx) : bool := bool_decide (c = []).
Definition set (old_peers : list PeerId) : ConfigurationCtx := old_peers.
Definition reset : ConfigurationCtx := [].
End ConfCtx.

(** ** Collaborators

    The log manager, configuration manager, commitment manager, stable
    storage, replicator group and state-machine caller live in other files of
    the repository; the node only calls them.  Each is modelled from its
    contract in the specification. *)

(** Modelled from the spec: the configuration manager ([raft/configuration.h])
    keeps the configuration of the last snapshot and the configurations
    carried by the log, in index order; a [ConfigurationPair] is the
    configuration in effect at or before a given log index. *)
Record ConfigurationManager := mkConfigurationManager {
  cm_snapshot : ConfigurationPair;
  cm_configurations : list ConfigurationPair
}.

Module ConfigManager.
Definition add (cm : ConfigurationManager) (p : ConfigurationPair) :=
  mkConfigurationManager (cm_snapshot cm) (cm_configurations cm ++ [p]).

Definition truncate_prefix (cm : ConfigurationManager) (first_index_kept : Z) :=
  mkConfigurationManager (cm_snapshot cm)
    (filter (fun p => first_index_kept <= p.1) (cm_configurations cm)).

Definition truncate_suffix (cm : ConfigurationManager) (last_index_kept : Z) :=
  mkConfigurationManager (cm_snapshot cm)
    (filter (fun p => p.1 <= last_index_kept) (cm_configurations cm)).

Definition set_snapshot (cm : ConfigurationManager) (index : Z)
    (conf : gset PeerId) :=
  mkConfigurationManager (index, conf) (cm_configurations cm).

Definition last_configuration (cm : ConfigurationManager) : ConfigurationPair :=
  match last (cm_configurations cm) with
  | Some p => p
  | None => cm_snapshot cm
  end.

Definition get_configuration (cm : ConfigurationManager) (index : Z)
    : ConfigurationPair :=
  match last (filter (fun p => p.1 <= index) (cm_configurations cm)) with
  | Some p => p
  | None => if (cm_snapshot cm).1 <=? index then cm_snapshot cm else (0, ∅)
  end.
End ConfigManager.

(** Modelled from the spec: the log manager ([raft/log_manager.h]) holds the
    entries with indices [first_log_index .. last_log_index], assigns indices
    monotonically on append, looks terms up by index, and truncates a prefix
    ([truncate_prefix first_kept]) or a suffix ([truncate_suffix last_kept]).
    It shares the configuration manager with the node, so the operations that
    touch configurations take it and give it back. *)
Record LogManager := mkLogManager {
  lm_first_log_index : Z;
  lm_logs : list LogEntry;
  lm_disk_thread : bool;
  lm_stable_closures : list Z
}.

Module LogMgr.
Definition first_log_index (lm : LogManager) : Z := lm_first_log_index lm.

Definition last_log_index (lm : LogManager) : Z :=
  lm_first_log_index lm + Z.of_nat (length (lm_logs lm)) - 1.

Definition get_term (lm : LogManager) (index : Z) : Z :=
  if (lm_first_log_index lm <=? index) && (index <=? last_log_index lm) then
    match lm_logs lm !! Z.to_nat (index - lm_first_log_index lm) with
    | Some e => entry_term e
    | None => 0
    end
  else 0.

Definition with_logs (lm : LogManager) (first : Z) (logs : list LogEntry) :=
  mkLogManager first logs (lm_disk_thread lm) (lm_stable_closures lm).

Definition truncate_prefix (lm : LogManager) (cm : ConfigurationManager)
    (first_index_kept : Z) : LogManager * ConfigurationManager :=
  if first_index_kept <=? lm_first_log_index lm then (lm, cm)
  else
    (with_logs lm first_index_kept
       (drop (Z.to_nat (first_index_kept - lm_first_log_index lm)) (lm_logs lm)),
     ConfigManager.truncate_prefix cm first_index_kept).

Definition truncate_suffix (lm : LogManager) (cm : ConfigurationManager)
    (last_index_kept : Z) : LogManager * ConfigurationManager :=
  if last_log_index lm <=? last_index_kept then (lm, cm)
  else
    (with_logs lm (lm_first_log_index lm)
       (take (Z.to_nat (last_index_kept + 1 - lm_first_log_index lm)) (lm_logs lm)),
     ConfigManager.truncate_suffix cm last_index_kept).

Definition is_conf_entry (e : LogEntry) : bool :=
  bool_decide (entry_type e = ENTRY_TYPE_ADD_PEER)
  || bool_decide (entry_type e = ENTRY_TYPE_REMOVE_PEER).

(** One entry goes to the end of the log under the next index; a
    configuration entry is recorded in the configuration manager. *)
Definition push (st : LogManager * ConfigurationManager) (e : LogEntry)
    : LogManager * ConfigurationManager :=
  let '(lm, cm) := st in
  let index := last_log_index lm + 1 in
  let e' := mkLogEntry index (entry_term e) (entry_type e) (entry_peers e)
              (entry_data e) in
  (with_logs lm (lm_first_log_index lm) (lm_logs lm ++ [e']),
   if is_conf_entry e
   then ConfigManager.add cm (index, Conf.of_peers (default [] (entry_peers e)))
   else cm).

(** [append_entries] of a follower: the batch in order; returns 0. *)
Definition append_entries (lm : LogManager) (cm : ConfigurationManager)
    (entries : list LogEntry) : Z * (LogManager * ConfigurationManager) :=
  (0, foldl push (lm, cm) entries).

(** [append_entry] of a leader: the entry, and the [LeaderStableClosure]
    that will run once the entry is durable. *)
Definition append_entry (lm : LogManager) (cm : ConfigurationManager)
    (entry : LogEntry) : LogManager * ConfigurationManager :=
  let '(lm', cm') := push (lm, cm) entry in
  (mkLogManager (lm_first_log_index lm') (lm_logs lm') (lm_disk_thread lm')
     (lm_stable_closures lm' ++ [last_log_index lm']), cm').

(** [check_and_set_configuration(conf)]: true iff the active configuration
    changed, in which case [conf] is overwritten with it. *)
Definition check_and_set_configuration (cm : ConfigurationManager)
    (current : ConfigurationPair) : bool * ConfigurationPair :=
  let last_conf := ConfigManager.last_configuration cm in
  if bool_decide (current.1 = last_conf.1) then (false, current)
  else (true, last_conf).

Definition stop_disk_thread (lm : LogManager) : LogManager :=
  mkLogManager (lm_first_log_index lm) (lm_logs lm) false (lm_stable_closures lm).
End LogMgr.

(** Modelled from the spec: the commitment manager ([raft/commitment_manager.h])
    tracks the committed index (advanced monotonically), the pending index
    and the pending applications with their configuration of record. *)
Record CommitmentManager := mkCommitmentManager {
  last_committed_index : Z;
  pending_index : Z;
  pending_apps : list (gset PeerId * option Closure)
}.

Module CommitMgr.
Definition reset_pending_index (c : CommitmentManager) (i : Z) :=
  mkCommitmentManager (last_committed_index c) i (pending_apps c).
Definition append_pending_application (c : CommitmentManager)
    (conf : gset PeerId) (done : option Closure) :=
  mkCommitmentManager (last_committed_index c) (pending_index c)
    (pending_apps c ++ [(conf, done)]).
Definition clear_pending_applications (c : CommitmentManager) :=
  mkCommitmentManager (last_committed_index c) (pending_index c) [].
Definition set_last_committed_index (c : CommitmentManager) (i : Z) :=
  mkCommitmentManager (Z.max (last_committed_index c) i) (pending_index c)
    (pending_apps c).
End CommitMgr.

(** Modelled from the spec: stable storage holds the pair
    (current term, voted for). *)
Record StableStorage := mkStableStorage {
  stable_term : Z;
  stable_votedfor : PeerId
}.

Module Stable.
Definition set_term_and_votedfor (term : Z) (peer : PeerId) : StableStorage :=
  mkStableStorage term peer.
Definition set_votedfor (s : StableStorage) (peer : PeerId) : StableStorage :=
  mkStableStorage (stable_term s) peer.
End Stable.

(** Modelled from the spec: the replicator group is the set of peers that
    have a replicator, plus the catch-up waits registered with it. *)
Record ReplicatorGroup := mkReplicatorGroup {
  replicators : gset PeerId;
  caughtup_waits : list (PeerId * option Closure)
}.

Module Replicators.
Definition add_replicator (g : ReplicatorGroup) (p : PeerId) :=
  mkReplicatorGroup (replicators g ∪ {[p]}) (caughtup_waits g).
Definition stop_replicator (g : ReplicatorGroup) (p : PeerId) :=
  mkReplicatorGroup (replicators g ∖ {[p]}) (caughtup_waits g).
Definition stop_all (g : ReplicatorGroup) := mkReplicatorGroup ∅ [].
Definition wait_caughtup (g : ReplicatorGroup) (p : PeerId)
    (done : option Closure) :=
  mkReplicatorGroup (replicators g) (caughtup_waits g ++ [(p, done)]).
End Replicators.

(** Modelled from the spec: the state-machine caller is called and answers
    later; the node is left with the list of the calls made, oldest first. *)
Inductive FsmCall :=
  | on_cleared (index : Z) (done : option Closure) (error : Z)
  | on_leader_stop
  | on_snapshot_save (done : option Closure)
  | on_snapshot_load.

Definition FSMCaller : Type := list FsmCall.

(** Modelled from the spec: a [SnapshotWriter] keeps the error recorded by
    [set_error] (0 when none); [writer_save_meta] is the code its [save_meta]
    returns. *)
Record SnapshotWriter := mkSnapshotWriter {
  writer_error : Z;
  writer_save_meta : Z
}.

(** The members of [raft::NodeImpl] that the functions below read or write.
    [_config_manager], [_log_manager], [_stable_storage], [_fsm_caller] and
    [_commit_manager] are pointers in the source: the constructor leaves them
    NULL and [init] creates the objects.  The fields of these names are the
    objects behind the pointers, so that a [NodeImpl] is a node whose
    collaborators exist; which of them exist on a node before [init] has
    returned is told by [Pointers], further down.  [_snapshot_storage] tells
    whether that pointer is set, [_loading_snapshot_meta] is [None] for
    NULL; the three timers tell whether the timer is pending. *)
Record NodeImpl := mkNodeImpl {
  _server_id : PeerId;
  _state : State;
  _current_term : Z;
  _voted_id : PeerId;
  _leader_id : PeerId;
  _conf : ConfigurationPair;
  _conf_ctx : ConfigurationCtx;
  _last_snapshot_term : Z;
  _last_snapshot_index : Z;
  _last_leader_timestamp : Z;
  _snapshot_saving : bool;
  _loading_snapshot_meta : option SnapshotMeta;
  _snapshot_storage : bool;
  _log_manager : LogManager;
  _config_manager : ConfigurationManager;
  _commit_manager : CommitmentManager;
  _stable_storage : StableStorage;
  _replicator_group : ReplicatorGroup;
  _fsm_caller : FSMCaller;
  _election_timer : bool;
  _vote_timer : bool;
  _stepdown_timer : bool;
  _ref_count : Z
}.

Definition set_state (n : NodeImpl) (v : State) : NodeImpl :=
  mkNodeImpl (_server_id n) v (_current_term n) (_voted_id n) (_leader_id n)
    (_conf n) (_conf_ctx n) (_last_snapshot_term n) (_last_snapshot_index n)
    (_last_leader_timestamp n) (_snapshot_saving n) (_loading_snapshot_meta n)
    (_snapshot_storage n) (_log_manager n) (_config_manager n)
    (_commit_manager n) (_stable_storage n) (_replicator_group n)
    (_fsm_caller n) (_election_timer n) (_vote_timer n) (_stepdown_timer n)
    (_ref_count n).

Definition set_current_term (n : NodeImpl) (v : Z) : NodeImpl :=
  mkNodeImpl (_server_id n) (_state n) v (_voted_id n) (_leader_id n)
    (_conf n) (_conf_ctx n) (_last_snapshot_term n) (_last_snapshot_index n)
    (_last_leader_timestamp n) (_snapshot_saving n) (_loading_snapshot_meta n)
    (_snapshot_storage n) (_log_manager n) (_config_manager n)
    (_commit_manager n) (_stable_storage n) (_replicator_group n)
    (_fsm_caller n) (_election_timer n) (_vote_timer n) (_stepdown_timer n)
    (_ref_count n).

Definition set_voted_id (n : NodeImpl) (v : PeerId) : NodeImpl :=
  mkNodeImpl (_server_id n) (_state n) (_current_term n) v (_leader_id n)
    (_conf n) (_conf_ctx n) (_last_snapshot_term n) (_last_snapshot_index n)
    (_last_leader_timestamp n) (_snapshot_saving n) (_loading_snapshot_meta n)
    (_snapshot_storage n) (_log_manager n) (_config_manager n)
    (_commit_manager n) (_stable_storage n) (_replicator_group n)
    (_fsm_caller n) (_election_timer n) (_vote_timer n) (_stepdown_timer n)
    (_ref_count n).

Definition set_leader_id (n : NodeImpl) (v : PeerId) : NodeImpl :=
  mkNodeImpl (_server_id n) (_state n) (_current_term n) (_voted_id n) v
    (_conf n) (_conf_ctx n) (_last_snapshot_term n) (_last_snapshot_index n)
    (_last_leader_timestamp n) (_snapshot_saving n) (_loading_snapshot_meta n)
    (_snapshot_storage n) (_log_manager n) (_config_manager n)
    (_commit_manager n) (_stable_storage n) (_replicator_group n)
    (_fsm_caller n) (_election_timer n) (_vote_timer n) (_stepdown_timer n)
    (_ref_count n).

Definition set_conf (n : NodeImpl) (v : ConfigurationPair) : NodeImpl :=
  mkNodeImpl (_server_id n) (_state n) (_current_term n) (_voted_id n)
    (_leader_id n) v (_conf_ctx n) (_last_snapshot_term n)
    (_last_snapshot_index n) (_last_leader_timestamp n) (_snapshot_saving n)
    (_loading_snapshot_meta n) (_snapshot_storage n) (_log_manager n)
    (_config_manager n) (_commit_manager n) (_stable_storage n)
    (_replicator_group n) (_fsm_caller n) (_election_timer n) (_vote_timer n)
    (_stepdown_timer n) (_ref_count n).

Definition set_conf_ctx (n : NodeImpl) (v : ConfigurationCtx) : NodeImpl :=
  mkNodeImpl (_server_id n) (_state n) (_current_term n) (_voted_id n)
    (_leader_id n) (_conf n) v (_last_snapshot_term n)
    (_last_snapshot_index n) (_last_leader_timestamp n) (_snapshot_saving n)
    (_loading_snapshot_meta n) (_snapshot_storage n) (_log_manager n)
    (_config_manager n) (_commit_manager n) (_stable_storage n)
    (_replicator_group n) (_fsm_caller n) (_election_timer n) (_vote_timer n)
    (_stepdown_timer n) (_ref_count n).

Definition set_last_snapshot_term (n : NodeImpl) (v : Z) : NodeImpl :=
  mkNodeImpl (_server_id n) (_state n) (_current_term n) (_voted_id n)
    (_leader_id n) (_conf n) (_conf_ctx n) v (_last_snapshot_index n)
    (_last_leader_timestamp n) (_snapshot_saving n) (_loading_snapshot_meta n)
    (_snapshot_storage n) (_log_manager n) (_config_manager n)
    (_commit_manager n) (_stable_storage n) (_replicator_group n)
    (_fsm_caller n) (_election_timer n) (_vote_timer n) (_stepdown_timer n)
    (_ref_count n).

Definition set_last_snapshot_index (n : NodeImpl) (v : Z) : NodeImpl :=
  mkNodeImpl (_server_id n) (_state n) (_current_term n) (_voted_id n)
    (_leader_id n) (_conf n) (_conf_ctx n) (_last_snapshot_term n) v
    (_last_leader_timestamp n) (_snapshot_saving n) (_loading_snapshot_meta n)
    (_snapshot_storage n) (_log_manager n) (_config_manager n)
    (_commit_manager n) (_stable_storage n) (_replicator_group n)
    (_fsm_caller n) (_election_timer n) (_vote_timer n) (_stepdown_timer n)
    (_ref_count n).

Definition set_last_leader_timestamp (n : NodeImpl) (v : Z) : NodeImpl :=
  mkNodeImpl (_server_id n) (_state n) (_current_term n) (_voted_id n)
    (_leader_id n) (_conf n) (_conf_ctx n) (_last_snapshot_term n)
    (_last_snapshot_index n) v (_snapshot_saving n) (_loading_snapshot_meta n)
    (_snapshot_storage n) (_log_manager n) (_config_manager n)
    (_commit_manager n) (_stable_storage n) (_replicator_group n)
    (_fsm_caller n) (_election_timer n) (_vote_timer n) (_stepdown_timer n)
    (_ref_count n).

Definition set_snapshot_saving (n : NodeImpl) (v : bool) : NodeImpl :=
  mkNodeImpl (_server_id n) (_state n) (_current_term n) (_voted_id n)
    (_leader_id n) (_conf n) (_conf_ctx n) (_last_snapshot_term n)
    (_last_snapshot_index n) (_last_leader_timestamp n) v
    (_loading_snapshot_meta n) (_snapshot_storage n) (_log_manager n)
    (_config_manager n) (_commit_manager n) (_stable_storage n)
    (_replicator_group n) (_fsm_caller n) (_election_timer n) (_vote_timer n)
    (_stepdown_timer n) (_ref_count n).

Definition set_loading_snapshot_meta (n : NodeImpl) (v : option SnapshotMeta) : NodeImpl :=
  mkNodeImpl (_server_id n) (_state n) (_current_term n) (_voted_id n)
    (_leader_id n) (_conf n) (_conf_ctx n) (_last_snapshot_term n)
    (_last_snapshot_index n) (_last_leader_timestamp n) (_snapshot_saving n) v
    (_snapshot_storage n) (_log_manager n) (_config_manager n)
    (_commit_manager n) (_stable_storage n) (_replicator_group n)
    (_fsm_caller n) (_election_timer n) (_vote_timer n) (_stepdown_timer n)
    (_ref_count n).

Definition set_snapshot_storage (n : NodeImpl) (v : bool) : NodeImpl :=
  mkNodeImpl (_server_id n) (_state n) (_current_term n) (_voted_id n)
    (_leader_id n) (_conf n) (_conf_ctx n) (_last_snapshot_term n)
    (_last_snapshot_index n) (_last_leader_timestamp n) (_snapshot_saving n)
    (_loading_snapshot_meta n) v (_log_manager n) (_config_manager n)
    (_commit_manager n) (_stable_storage n) (_replicator_group n)
    (_fsm_caller n) (_election_timer n) (_vote_timer n) (_stepdown_timer n)
    (_ref_count n).

Definition set_log_manager (n : NodeImpl) (v : LogManager) : NodeImpl :=
  mkNodeImpl (_server_id n) (_state n) (_current_term n) (_voted_id n)
    (_leader_id n) (_conf n) (_conf_ctx n) (_last_snapshot_term n)
    (_last_snapshot_index n) (_last_leader_timestamp n) (_snapshot_saving n)
    (_loading_snapshot_meta n) (_snapshot_storage n) v (_config_manager n)
    (_commit_manager n) (_stable_storage n) (_replicator_group n)
    (_fsm_caller n) (_election_timer n) (_vote_timer n) (_stepdown_timer n)
    (_ref_count n).

Definition set_config_manager (n : NodeImpl) (v : ConfigurationManager) : NodeImpl :=
  mkNodeImpl (_server_id n) (_state n) (_current_term n) (_voted_id n)
    (_leader_id n) (_conf n) (_conf_ctx n) (_last_snapshot_term n)
    (_last_snapshot_index n) (_last_leader_timestamp n) (_snapshot_saving n)
    (_loading_snapshot_meta n) (_snapshot_storage n) (_log_manager n) v
    (_commit_manager n) (_stable_storage n) (_replicator_group n)
    (_fsm_caller n) (_election_timer n) (_vote_timer n) (_stepdown_timer n)
    (_ref_count n).

Definition set_commit_manager (n : NodeImpl) (v : CommitmentManager) : NodeImpl :=
  mkNodeImpl (_server_id n) (_state n) (_current_term n) (_voted_id n)
    (_leader_id n) (_conf n) (_conf_ctx n) (_last_snapshot_term n)
    (_last_snapshot_index n) (_last_leader_timestamp n) (_snapshot_saving n)
    (_loading_snapshot_meta n) (_snapshot_storage n) (_log_manager n)
    (_config_manager n) v (_stable_storage n) (_replicator_group n)
    (_fsm_caller n) (_election_timer n) (_vote_timer n) (_stepdown_timer n)
    (_ref_count n).

Definition set_stable_storage (n : NodeImpl) (v : StableStorage) : NodeImpl :=
  mkNodeImpl (_server_id n) (_state n) (_current_term n) (_voted_id n)
    (_leader_id n) (_conf n) (_conf_ctx n) (_last_snapshot_term n)
    (_last_snapshot_index n) (_last_leader_timestamp n) (_snapshot_saving n)
    (_loading_snapshot_meta n) (_snapshot_storage n) (_log_manager n)
    (_config_manager n) (_commit_manager n) v (_replicator_group n)
    (_fsm_caller n) (_election_timer n) (_vote_timer n) (_stepdown_timer n)
    (_ref_count n).

Definition set_replicator_group (n : NodeImpl) (v : ReplicatorGroup) : NodeImpl :=
  mkNodeImpl (_server_id n) (_state n) (_current_term n) (_voted_id n)
    (_leader_id n) (_conf n) (_conf_ctx n) (_last_snapshot_term n)
    (_last_snapshot_index n) (_last_leader_timestamp n) (_snapshot_saving n)
    (_loading_snapshot_meta n) (_snapshot_storage n) (_log_manager n)
    (_config_manager n) (_commit_manager n) (_stable_storage n) v
    (_fsm_caller n) (_election_timer n) (_vote_timer n) (_stepdown_timer n)
    (_ref_count n).

Definition set_fsm_caller (n : NodeImpl) (v : FSMCaller) : NodeImpl :=
  mkNodeImpl (_server_id n) (_state n) (_current_term n) (_voted_id n)
    (_leader_id n) (_conf n) (_conf_ctx n) (_last_snapshot_term n)
    (_last_snapshot_index n) (_last_leader_timestamp n) (_snapshot_saving n)
    (_loading_snapshot_meta n) (_snapshot_storage n) (_log_manager n)
    (_config_manager n) (_commit_manager n) (_stable_storage n)
    (_replicator_group n) v (_election_timer n) (_vote_timer n)
    (_stepdown_timer n) (_ref_count n).

Definition set_election_timer (n : NodeImpl) (v : bool) : NodeImpl :=
  mkNodeImpl (_server_id n) (_state n) (_current_term n) (_voted_id n)
    (_leader_id n) (_conf n) (_conf_ctx n) (_last_snapshot_term n)
    (_last_snapshot_index n) (_last_leader_timestamp n) (_snapshot_saving n)
    (_loading_snapshot_meta n) (_snapshot_storage n) (_log_manager n)
    (_config_manager n) (_commit_manager n) (_stable_storage n)
    (_replicator_group n) (_fsm_caller n) v (_vote_timer n)
    (_stepdown_timer n) (_ref_count n).

Definition set_vote_timer (n : NodeImpl) (v : bool) : NodeImpl :=
  mkNodeImpl (_server_id n) (_state n) (_current_term n) (_voted_id n)
    (_leader_id n) (_conf n) (_conf_ctx n) (_last_snapshot_term n)
    (_last_snapshot_index n) (_last_leader_timestamp n) (_snapshot_saving n)
    (_loading_snapshot_meta n) (_snapshot_storage n) (_log_manager n)
    (_config_manager n) (_commit_manager n) (_stable_storage n)
    (_replicator_group n) (_fsm_caller n) (_election_timer n) v
    (_stepdown_timer n) (_ref_count n).

Definition set_stepdown_timer (n : NodeImpl) (v : bool) : NodeImpl :=
  mkNodeImpl (_server_id n) (_state n) (_current_term n) (_voted_id n)
    (_leader_id n) (_conf n) (_conf_ctx n) (_last_snapshot_term n)
    (_last_snapshot_index n) (_last_leader_timestamp n) (_snapshot_saving n)
    (_loading_snapshot_meta n) (_snapshot_storage n) (_log_manager n)
    (_config_manager n) (_commit_manager n) (_stable_storage n)
    (_replicator_group n) (_fsm_caller n) (_election_timer n)
    (_vote_timer n) v (_ref_count n).

Definition set_ref_count (n : NodeImpl) (v : Z) : NodeImpl :=
  mkNodeImpl (_server_id n) (_state n) (_current_term n) (_voted_id n)
    (_leader_id n) (_conf n) (_conf_ctx n) (_last_snapshot_term n)
    (_last_snapshot_index n) (_last_leader_timestamp n) (_snapshot_saving n)
    (_loading_snapshot_meta n) (_snapshot_storage n) (_log_manager n)
    (_config_manager n) (_commit_manager n) (_stable_storage n)
    (_replicator_group n) (_fsm_caller n) (_election_timer n) (_vote_timer n)
    (_stepdown_timer n) v.


(** ** Wire messages

    The fields the handlers read and write, under the names of their protobuf
    accessors; [group_id] and [peer_id] only route the call to the node. *)

Record RequestVoteRequest := mkRequestVoteRequest {
  rv_server_id : string;
  rv_term : Z;
  rv_last_log_term : Z;
  rv_last_log_index : Z
}.

Record RequestVoteResponse := mkRequestVoteResponse {
  rvr_term : Z;
  rvr_granted : bool
}.

Record EntryMeta := mkEntryMeta {
  em_term : Z;
  em_type : EntryType;
  em_peers : list string;
  em_data_len : option Z
}.

Record AppendEntriesRequest := mkAppendEntriesRequest {
  ae_server_id : string;
  ae_term : Z;
  ae_prev_log_index : Z;
  ae_prev_log_term : Z;
  ae_entries : list EntryMeta;
  ae_committed_index : Z
}.

Record AppendEntriesResponse := mkAppendEntriesResponse {
  aer_term : Z;
  aer_success : bool;
  aer_last_log_index : Z
}.

Record InstallSnapshotRequest := mkInstallSnapshotRequest {
  is_server_id : string;
  is_term : Z;
  is_last_included_log_index : Z;
  is_last_included_log_term : Z;
  is_peers : list string;
  is_uri : string
}.

Record InstallSnapshotResponse := mkInstallSnapshotResponse {
  isr_term : Z;
  isr_success : bool
}.

(** ** Small helpers of the embedding *)

(** A glog [CHECK]: the process aborts when the condition is false. *)
Definition CHECK (b : bool) : option unit := if b then Some () else None.

Definition is_null {A} (p : option A) : bool :=
  match p with None => true | Some _ => false end.

(** Intrusive reference count of the node. *)
Definition AddRef (n : NodeImpl) : NodeImpl := set_ref_count n (_ref_count n + 1).
Definition Release (n : NodeImpl) : NodeImpl := set_ref_count n (_ref_count n - 1).

(** [bthread_timer_del]: 0 when a pending timer was removed, 1 when there was
    nothing left to remove (the callback ran or is running). *)
Definition bthread_timer_del (armed : bool) : Z := if armed then 0 else 1.

(** The conversions of [int len = entry.data_len()] followed by the call of
    [cutn], whose length is a [size_t]. *)
Definition to_int (x : Z) : Z := (x + 2 ^ 31) mod 2 ^ 32 - 2 ^ 31.
Definition to_size_t (x : Z) : Z := x mod 2 ^ 64.

(** [std::vector::size()] and protobuf's [xxx_size()]. *)
Definition vec_size {A : Type} (v : list A) : Z := Z.of_nat (length v).

(** ** The node *)

Section Node.

(** [PeerId::parse] is declared in [raft/raft.h]; it is a parameter of the
    handlers: [None] stands for a non-zero return (bad format). *)
Variable parse : string -> option PeerId.

(** *** [NodeImpl::last_log_term] *)
Definition last_log_term (n : NodeImpl) : Z :=
  let last_log_index := LogMgr.last_log_index (_log_manager n) in
  if LogMgr.first_log_index (_log_manager n) <=? last_log_index then
    LogMgr.get_term (_log_manager n) last_log_index
  else _last_snapshot_term n.

(** *** [NodeImpl::step_down]

    The [CHECK(ret == 1)] on the timer deletions cannot fail:
    [bthread_timer_del] is 0 or 1 here. *)
Definition step_down (n : NodeImpl) (term : Z) : NodeImpl :=
  let n :=
    match _state n with
    | CANDIDATE =>
        let ret := bthread_timer_del (_vote_timer n) in
        let n := set_vote_timer n false in
        if ret =? 0 then Release n else n
    | LEADER =>
        let ret := bthread_timer_del (_stepdown_timer n) in
        let n := set_stepdown_timer n false in
        let n := if ret =? 0 then Release n else n in
        let n := set_commit_manager n
                   (CommitMgr.clear_pending_applications (_commit_manager n)) in
        let n := set_log_manager n (LogMgr.stop_disk_thread (_log_manager n)) in
        let n := Release n in
        set_fsm_caller n (_fsm_caller n ++ [on_leader_stop])
    | _ => n
    end in
  let n := set_state n FOLLOWER in
  let n := set_leader_id n empty_peer in
  let n := set_current_term n term in
  let n := set_voted_id n empty_peer in
  let n := set_conf_ctx n ConfCtx.reset in
  let n := set_stable_storage n (Stable.set_term_and_votedfor term (_voted_id n)) in
  let n :=
    if negb (Conf.empty (_conf n).2) && Conf.contain (_conf n).2 (_server_id n)
    then set_election_timer (AddRef n) true
    else n in
  set_replicator_group n (Replicators.stop_all (_replicator_group n)).

(** *** [NodeImpl::increase_term_to] *)
Definition increase_term_to (n : NodeImpl) (new_term : Z) : Z * NodeImpl :=
  if new_term <=? _current_term n then (EINVAL, n)
  else (0, step_down n new_term).

(** *** [NodeImpl::append], the overload for one entry and its closure

    The [LeaderStableClosure] built for the entry takes a reference on the
    node. *)
Definition append (n : NodeImpl) (entry : LogEntry) (done : option Closure)
    : NodeImpl :=
  let is_conf :=
    negb (negb (bool_decide (entry_type entry = ENTRY_TYPE_ADD_PEER))
          && negb (bool_decide (entry_type entry = ENTRY_TYPE_REMOVE_PEER))) in
  let old_peers := if is_conf then Conf.peer_vector (_conf n).2 else [] in
  let n :=
    set_commit_manager n
      (CommitMgr.append_pending_application (_commit_manager n)
         (if is_conf then Conf.of_peers (default [] (entry_peers entry))
          else (_conf n).2)
         done) in
  let n := AddRef n in
  let '(lm, cm) := LogMgr.append_entry (_log_manager n) (_config_manager n) entry in
  let n := set_config_manager (set_log_manager n lm) cm in
  let '(changed, conf) := LogMgr.check_and_set_configuration cm (_conf n) in
  let n := set_conf n conf in
  if changed then set_conf_ctx n (ConfCtx.set old_peers) else n.

(** *** [NodeImpl::append], the overload for a batch of entries *)
Definition append_batch (n : NodeImpl) (entries : list LogEntry) : Z * NodeImpl :=
  if vec_size entries =? 0 then (0, n)
  else
    let '(ret, (lm, cm)) :=
      LogMgr.append_entries (_log_manager n) (_config_manager n) entries in
    let n := set_config_manager (set_log_manager n lm) cm in
    if ret =? 0 then
      (ret, set_conf n (LogMgr.check_and_set_configuration cm (_conf n)).2)
    else (ret, n).

(** *** [NodeImpl::add_peer]

    [add_replicator_ret] and [wait_caughtup_ret] are the codes the replicator
    group answers with. *)
Definition add_peer (n : NodeImpl) (old_peers : list PeerId) (peer : PeerId)
    (done : option Closure) (add_replicator_ret wait_caughtup_ret : Z) : NodeImpl :=
  let cleared n e := set_fsm_caller n (_fsm_caller n ++ [on_cleared 0 done e]) in
  if negb (bool_decide (_state n = LEADER)) then cleared n EPERM
  else if negb (ConfCtx.empty (_conf_ctx n)) then cleared n EINVAL
  else if negb (Conf.equal (_conf n).2 old_peers) then cleared n EINVAL
  else if Conf.contain (_conf n).2 peer then cleared n EINVAL
  else if negb (add_replicator_ret =? 0) then cleared n EINVAL
  else
    let n := set_replicator_group n
               (Replicators.add_replicator (_replicator_group n) peer) in
    let n := AddRef n in
    if negb (wait_caughtup_ret =? 0) then cleared (Release n) EINVAL
    else set_replicator_group n
           (Replicators.wait_caughtup (_replicator_group n) peer done).

(** *** [NodeImpl::remove_peer] *)
Definition remove_peer (n : NodeImpl) (old_peers : list PeerId) (peer : PeerId)
    (done : option Closure) : NodeImpl :=
  let cleared n e := set_fsm_caller n (_fsm_caller n ++ [on_cleared 0 done e]) in
  if negb (bool_decide (_state n = LEADER)) then cleared n EPERM
  else if negb (ConfCtx.empty (_conf_ctx n)) then cleared n EAGAIN
  else if negb (Conf.equal (_conf n).2 old_peers) then cleared n EINVAL
  else if negb (Conf.contain (_conf n).2 peer) then cleared n EINVAL
  else
    let new_conf := Conf.remove_peer (_conf n).2 peer in
    let entry :=
      mkLogEntry 0 (_current_term n) ENTRY_TYPE_REMOVE_PEER
        (Some (Conf.peer_vector new_conf)) [] in
    append n entry done.

(** *** [NodeImpl::set_peer] *)
Definition set_peer (n : NodeImpl) (old_peers new_peers : list PeerId)
    : Z * NodeImpl :=
  if bool_decide (_state n = SHUTDOWN) then (EINVAL, n)
  else if Conf.empty (_conf n).2 && (vec_size old_peers =? 0) then
    let new_conf := Conf.of_peers new_peers in
    let n := set_conf n ((_conf n).1, new_conf) in
    (0, step_down n 1)
  else if bool_decide (_state n = LEADER) && negb (ConfCtx.empty (_conf_ctx n))
  then (EINVAL, n)
  else if negb (Conf.equal (_conf n).2 old_peers) then (EINVAL, n)
  else if vec_size old_peers / 2 + 1 <=? vec_size new_peers then (EINVAL, n)
  else if negb (Conf.contain_all (_conf n).2 new_peers) then (EINVAL, n)
  else
    let new_conf := Conf.of_peers new_peers in
    let n := step_down n (Int64.add (_current_term n) 1) in
    (0, set_conf n ((_conf n).1, new_conf)).

(** *** [NodeImpl::on_snapshot_load_done] *)
Definition on_snapshot_load_done (n : NodeImpl) : option NodeImpl :=
  meta ← _loading_snapshot_meta n;
  let n := set_last_snapshot_index n (last_included_index meta) in
  let n := set_last_snapshot_term n (last_included_term meta) in
  let lm := _log_manager n in
  let n :=
    if (LogMgr.last_log_index lm <? _last_snapshot_index n)
       || ((LogMgr.first_log_index lm <=? _last_snapshot_index n)
           && negb (LogMgr.get_term lm (_last_snapshot_index n)
                    =? _last_snapshot_term n))
    then
      let '(lm, cm) := LogMgr.truncate_prefix lm (_config_manager n)
                         (Int64.add (_last_snapshot_index n) 1) in
      let '(lm, cm) := LogMgr.truncate_suffix lm cm (_last_snapshot_index n) in
      set_config_manager (set_log_manager n lm) cm
    else n in
  let n :=
    if LogMgr.first_log_index (_log_manager n) <=? _last_snapshot_index n then
      let '(lm, cm) := LogMgr.truncate_prefix (_log_manager n) (_config_manager n)
                         (Int64.add (_last_snapshot_index n) 1) in
      set_config_manager (set_log_manager n lm) cm
    else n in
  let n := set_config_manager n
             (ConfigManager.set_snapshot (_config_manager n)
                (last_included_index meta) (last_configuration meta)) in
  let n := set_conf n
             (LogMgr.check_and_set_configuration (_config_manager n) (_conf n)).2 in
  let n := set_commit_manager n
             (CommitMgr.reset_pending_index (_commit_manager n)
                (Int64.add (last_included_index meta) 1)) in
  Some (set_loading_snapshot_meta n None).

(** *** [NodeImpl::on_snapshot_save_done] *)
Definition on_snapshot_save_done (n : NodeImpl) (last_included_index : Z)
    (writer : SnapshotWriter) : option (Z * NodeImpl * SnapshotWriter) :=
  '(ret, n, writer) ←
    (if last_included_index <=? _last_snapshot_index n then
       Some (ESTALE, n, mkSnapshotWriter ESTALE (writer_save_meta writer))
     else
       CHECK (LogMgr.first_log_index (_log_manager n) <=? last_included_index);;
       CHECK (last_included_index <=? LogMgr.last_log_index (_log_manager n));;
       let n := set_last_snapshot_index n last_included_index in
       let n := set_last_snapshot_term n
                  (LogMgr.get_term (_log_manager n) last_included_index) in
       let pair := ConfigManager.get_configuration (_config_manager n)
                     last_included_index in
       let n :=
         if negb (pair.1 =? 0) then
           set_config_manager n
             (ConfigManager.set_snapshot (_config_manager n) pair.1 pair.2)
         else n in
       let n :=
         if LogMgr.first_log_index (_log_manager n) <=? _last_snapshot_index n then
           let '(lm, cm) :=
             LogMgr.truncate_prefix (_log_manager n) (_config_manager n)
               (Int64.add (_last_snapshot_index n) 1) in
           set_config_manager (set_log_manager n lm) cm
         else n in
       let n := set_conf n
                  (LogMgr.check_and_set_configuration (_config_manager n)
                     (_conf n)).2 in
       Some (writer_save_meta writer, n, writer));
  Some (ret, set_snapshot_saving n false, writer).

(** *** [NodeImpl::handle_request_vote_request]

    [log_is_ok] is the local of that name, computed on entry. *)
Definition log_is_ok (n : NodeImpl) (request : RequestVoteRequest) : bool :=
  let last_log_index := LogMgr.last_log_index (_log_manager n) in
  let last_log_term := last_log_term n in
  (last_log_term <? rv_last_log_term request)
  || ((rv_last_log_term request =? last_log_term)
      && (last_log_index <=? rv_last_log_index request)).

Definition handle_request_vote_request (n : NodeImpl)
    (request : RequestVoteRequest) (response : RequestVoteResponse)
    : Z * NodeImpl * RequestVoteResponse :=
  let log_is_ok := log_is_ok n request in
  match parse (rv_server_id request) with
  | None => (EINVAL, n, response)
  | Some candidate_id =>
      let n :=
        if negb (is_empty (_leader_id n)) then n
        else if _current_term n <=? rv_term request then
          let n :=
            if _current_term n <? rv_term request
            then step_down n (rv_term request) else n in
          if log_is_ok && is_empty (_voted_id n) then
            let n := set_voted_id n candidate_id in
            set_stable_storage n
              (Stable.set_votedfor (_stable_storage n) candidate_id)
          else n
        else n in
      (0, n,
       mkRequestVoteResponse (_current_term n)
         ((rv_term request =? _current_term n)
          && peer_eqb (_voted_id n) candidate_id))
  end.

(** *** [NodeImpl::handle_append_entries_request]

    The body of the [for] loop over [request->entries]: [index] is the value
    before the increment, [entries] the batch collected so far.  The peers of
    an [EntryMeta] are strings; they become [PeerId]s through [parse], and an
    unparsable one aborts like a failed [CHECK]. *)
Fixpoint append_entries_loop (metas : list EntryMeta) (index : Z)
    (n : NodeImpl) (data_buf : IOBuf) (entries : list LogEntry)
    : option (NodeImpl * IOBuf * list LogEntry) :=
  match metas with
  | [] => Some (n, data_buf, entries)
  | entry :: metas =>
      let index := Int64.add index 1 in
      if index <? LogMgr.first_log_index (_log_manager n) then
        append_entries_loop metas index n data_buf entries
      else if (index <=? LogMgr.last_log_index (_log_manager n))
              && (LogMgr.get_term (_log_manager n) index =? em_term entry) then
        append_entries_loop metas index n data_buf entries
      else
        let n :=
          if index <=? LogMgr.last_log_index (_log_manager n) then
            let last_index_kept := Int64.sub index 1 in
            let '(lm, cm) :=
              LogMgr.truncate_suffix (_log_manager n) (_config_manager n)
                last_index_kept in
            let n := set_config_manager (set_log_manager n lm) cm in
            set_conf n (LogMgr.check_and_set_configuration cm (_conf n)).2
          else n in
        if negb (bool_decide (em_type entry = ENTRY_TYPE_UNKNOWN)) then
          peers ←
            (if 0 <? vec_size (em_peers entry) then
               peers ← mapM parse (em_peers entry);
               CHECK (bool_decide (em_type entry = ENTRY_TYPE_ADD_PEER)
                      || bool_decide (em_type entry = ENTRY_TYPE_REMOVE_PEER));;
               Some (Some peers)
             else
               CHECK (negb (bool_decide (em_type entry = ENTRY_TYPE_ADD_PEER)));;
               Some None);
          let '(data_buf, data) :=
            match em_data_len entry with
            | Some data_len => cutn data_buf [] (to_size_t (to_int data_len))
            | None => (data_buf, [])
            end in
          let log_entry :=
            mkLogEntry 0 (em_term entry) (em_type entry) peers data in
          append_entries_loop metas index n data_buf (entries ++ [log_entry])
        else
          append_entries_loop metas index n data_buf entries
  end.

(** The [do { ... } while (0)] block of the handler: the [success] flag it
    leaves, the node, and what is left of [data_buf]. *)
Definition append_entries_do (n : NodeImpl) (server_id : PeerId)
    (data_buf : IOBuf) (request : AppendEntriesRequest)
    : option (bool * NodeImpl * IOBuf) :=
  if ae_term request <? _current_term n then Some (false, n, data_buf)
  else
    let n :=
      if (_current_term n <? ae_term request)
         || negb (bool_decide (_state n = FOLLOWER))
      then step_down n (ae_term request) else n in
    let n :=
      if is_empty (_leader_id n) then set_leader_id n server_id else n in
    CHECK (is_null (_loading_snapshot_meta n));;
    if LogMgr.last_log_index (_log_manager n) <? ae_prev_log_index request
    then Some (false, n, data_buf)
    else if (LogMgr.first_log_index (_log_manager n)
             <=? ae_prev_log_index request)
            && negb (LogMgr.get_term (_log_manager n)
                       (ae_prev_log_index request)
                     =? ae_prev_log_term request)
    then Some (false, n, data_buf)
    else
      '(n, data_buf, entries) ←
        append_entries_loop (ae_entries request)
          (ae_prev_log_index request) n data_buf [];
      Some (true, (append_batch n entries).2, data_buf).

(** [now] is what [base::monotonic_time_ms()] returns during the call. *)
Definition handle_append_entries_request (n : NodeImpl) (now : Z)
    (data_buf : IOBuf) (request : AppendEntriesRequest)
    (response : AppendEntriesResponse)
    : option (Z * NodeImpl * IOBuf * AppendEntriesResponse) :=
  match parse (ae_server_id request) with
  | None => Some (EINVAL, n, data_buf, response)
  | Some server_id =>
      '(success, n, data_buf) ← append_entries_do n server_id data_buf request;
      let response :=
        mkAppendEntriesResponse (_current_term n) success
          (LogMgr.last_log_index (_log_manager n)) in
      let n :=
        if success then
          let n := set_commit_manager n
                     (CommitMgr.set_last_committed_index (_commit_manager n)
                        (ae_committed_index request)) in
          set_last_leader_timestamp n now
        else n in
      Some (0, n, data_buf, response)
  end.

(** *** [NodeImpl::handle_install_snapshot_request]

    [writer] is what [_snapshot_storage->create] returns (null or a writer)
    and [copy_ret] the code of [writer->copy(uri)].  The boolean of the result
    tells whether [done->Run()] was called by the handler itself. *)
Definition handle_install_snapshot_request (n : NodeImpl)
    (request : InstallSnapshotRequest) (response : InstallSnapshotResponse)
    (writer : option SnapshotWriter) (copy_ret : Z)
    : option (Z * NodeImpl * InstallSnapshotResponse * bool) :=
  match parse (is_server_id request) with
  | None => Some (EINVAL, n, response, false)
  | Some server_id =>
      let response := mkInstallSnapshotResponse (_current_term n) false in
      if negb (is_null (_loading_snapshot_meta n)) then
        Some (EAGAIN, n, response, false)
      else if is_term request <? _current_term n then
        Some (0, n, response, true)
      else
        let '(n, response) :=
          if (_current_term n <? is_term request)
             || negb (bool_decide (_state n = FOLLOWER))
          then (step_down n (_current_term n),
                mkInstallSnapshotResponse (_current_term n) (isr_success response))
          else (n, response) in
        let n :=
          if is_empty (_leader_id n) then set_leader_id n server_id else n in
        if (is_last_included_log_index request =? _last_snapshot_index n)
           && (is_last_included_log_term request =? _last_snapshot_term n)
        then Some (0, n, mkInstallSnapshotResponse (isr_term response) true, true)
        else
          CHECK (_last_snapshot_index n <? is_last_included_log_index request);;
          CHECK (LogMgr.last_log_index (_log_manager n)
                 <? is_last_included_log_index request);;
          match mapM parse (is_peers request) with
          | None => Some (EINVAL, n, response, false)
          | Some peers =>
              let meta :=
                mkSnapshotMeta (is_last_included_log_index request)
                  (is_last_included_log_term request)
                  (foldl Conf.add_peer ∅ peers) in
              let n := set_loading_snapshot_meta n (Some meta) in
              CHECK (_snapshot_storage n);;
              match writer with
              | None => Some (EINVAL, n, response, false)
              | Some w =>
                  if negb (copy_ret =? 0) then Some (copy_ret, n, response, false)
                  else if negb (writer_save_meta w =? 0)
                  then Some (writer_save_meta w, n, response, false)
                  else
                    let n := AddRef n in
                    Some (0, set_fsm_caller n (_fsm_caller n ++ [on_snapshot_load]),
                          response, false)
              end
          end
  end.

End Node.

(** ** The client entry points, the callbacks and the election

    The members of [NodeImpl] that only the election touches ([_vote_ctx])
    are threaded beside the node; [_options.election_timeout] and the answers
    of the collaborators are arguments. *)

Definition ETIMEDOUT : Z := 110.

(** Modelled from the spec: [VoteCtx] (declared in [raft/node.h]) tracks the
    votes of the current election and reports quorum: a majority of the
    number of peers given to [set], every granting peer counted once. *)
Record VoteCtx := mkVoteCtx {
  vc_needed : Z;
  vc_granted : gset PeerId
}.

Module Votes.
Definition reset : VoteCtx := mkVoteCtx 0 ∅.
Definition set (v : VoteCtx) (peer_size : Z) : VoteCtx :=
  mkVoteCtx (peer_size / 2 + 1) (vc_granted v).
Definition grant (v : VoteCtx) (peer : PeerId) : VoteCtx :=
  mkVoteCtx (vc_needed v) (vc_granted v ∪ {[peer]}).
Definition quorum (v : VoteCtx) : bool :=
  vc_needed v <=? Z.of_nat (size (vc_granted v)).
End Votes.

(** Modelled from the spec: [LogManager::start_disk_thread], the counterpart
    of [stop_disk_thread]. *)
Definition start_disk_thread (lm : LogManager) : LogManager :=
  mkLogManager (lm_first_log_index lm) (lm_logs lm) true (lm_stable_closures lm).

(** *** [NodeImpl::apply] *)
Definition apply (n : NodeImpl) (data : IOBuf) (done : option Closure)
    : NodeImpl :=
  let cleared n e := set_fsm_caller n (_fsm_caller n ++ [on_cleared 0 done e]) in
  if bool_decide (_state n = SHUTDOWN) then cleared n EINVAL
  else if negb (bool_decide (_state n = LEADER)) then cleared n EPERM
  else
    let entry := mkLogEntry 0 (_current_term n) ENTRY_TYPE_DATA None ([] ++ data) in
    append n entry done.

(** *** [NodeImpl::snapshot]

    The [SaveSnapshotDone] built for the call takes a reference on the
    node. *)
Definition snapshot (n : NodeImpl) (done : option Closure) : NodeImpl :=
  let cleared n e := set_fsm_caller n (_fsm_caller n ++ [on_cleared 0 done e]) in
  if bool_decide (_state n = SHUTDOWN) then cleared n EINVAL
  else if negb (_snapshot_storage n) then cleared n EINVAL
  else if negb (is_null (_loading_snapshot_meta n)) then cleared n EAGAIN
  else if _snapshot_saving n then cleared n EAGAIN
  else
    let n := set_snapshot_saving n true in
    let n := AddRef n in
    set_fsm_caller n (_fsm_caller n ++ [on_snapshot_save done]).

(** *** [SaveSnapshotDone::Run]

    [err_code], [meta] and [writer] are the members [_err_code], [_meta] and
    [_writer] of the closure when the state-machine caller runs it; [done] is
    the user's closure.  Dereferencing a null [_writer] or a null [_done]
    ends the process.  The result carries the node (released by the
    destructor), the writer, and the error the user's closure is run with
    (0 when [set_error] was not called on it). *)
Definition SaveSnapshotDone_Run (n : NodeImpl) (err_code : Z)
    (meta : SnapshotMeta) (writer : option SnapshotWriter)
    (done : option Closure)
    : option (NodeImpl * option SnapshotWriter * (Closure * Z)) :=
  '(err_code, n, writer) ←
    (if err_code =? 0 then
       w ← writer;
       '(ret, n, w) ← on_snapshot_save_done n (last_included_index meta) w;
       Some (if negb (ret =? 0) then ret else err_code, n, Some w)
     else Some (err_code, n, writer));
  done ← done;
  Some (Release n, writer, (done, err_code)).

(** *** [InstallSnapshotDone::Run]

    [err_code] is the member [_err_code] of the closure, [response] the
    response of the pending InstallSnapshot call, which [_done->Run()] then
    sends. *)
Definition InstallSnapshotDone_Run (n : NodeImpl) (err_code : Z)
    (response : InstallSnapshotResponse)
    : option (NodeImpl * InstallSnapshotResponse) :=
  '(n, response) ←
    (if err_code =? 0 then
       n ← on_snapshot_load_done n;
       Some (n, mkInstallSnapshotResponse (isr_term response) true)
     else Some (n, mkInstallSnapshotResponse (isr_term response) false));
  Some (Release n, response).

(** *** [NodeImpl::on_configuration_change_done] *)
Definition on_configuration_change_done (n : NodeImpl) (type : EntryType)
    (new_peers : list PeerId) : NodeImpl :=
  let n :=
    if bool_decide (type = ENTRY_TYPE_ADD_PEER) then n
    else if bool_decide (type = ENTRY_TYPE_REMOVE_PEER) then
      if negb (Conf.contain (_conf n).2 (_server_id n)) then
        let n := set_conf n ((_conf n).1, Conf.reset) in
        step_down n (_current_term n)
      else
        let old_conf := foldl Conf.remove_peer (Conf.of_peers (_conf_ctx n))
                          new_peers in
        let removed_peers := Conf.peer_vector old_conf in
        foldl (fun n p =>
                 set_replicator_group n
                   (Replicators.stop_replicator (_replicator_group n) p))
          n removed_peers
    else n in
  set_conf_ctx n ConfCtx.reset.

(** *** [NodeImpl::on_caughtup]

    [last_response_timestamp] and [wait_caughtup_ret] are the answers of the
    replicator group, [now] the clock.  The second component of the result is
    the user's closure when the function ran it, with the error it was given;
    running a null closure ends the process. *)
Definition on_caughtup (n : NodeImpl) (peer : PeerId) (error_code : Z)
    (done : option Closure) (now election_timeout : Z)
    (last_response_timestamp : PeerId -> Z) (wait_caughtup_ret : Z)
    : option (NodeImpl * option (Closure * Z)) :=
  if error_code =? 0 then
    let new_conf := Conf.add_peer (_conf n).2 peer in
    let entry :=
      mkLogEntry 0 (_current_term n) ENTRY_TYPE_ADD_PEER
        (Some (Conf.peer_vector new_conf)) [] in
    Some (append n entry done, None)
  else
    let failed n :=
      done ← done;
      let n := set_conf_ctx n ConfCtx.reset in
      let n := set_replicator_group n
                 (Replicators.stop_replicator (_replicator_group n) peer) in
      Some (n, Some (done, error_code)) in
    if (error_code =? ETIMEDOUT)
       && (Int64.sub now (last_response_timestamp peer) <=? election_timeout)
    then
      let n := AddRef n in
      if wait_caughtup_ret =? 0 then
        Some (set_replicator_group n
                (Replicators.wait_caughtup (_replicator_group n) peer done),
              None)
      else failed (Release n)
    else failed n.

(** *** [NodeImpl::handle_stepdown_timeout]

    [dead_count] is the loop over the peers: those other than the node
    itself that have not answered for longer than the election timeout. *)
Definition dead_count (n : NodeImpl) (now election_timeout : Z)
    (last_response_timestamp : PeerId -> Z) (peers : list PeerId) : Z :=
  foldl (fun dead_count peer =>
           if bool_decide (peer = _server_id n) then dead_count
           else if election_timeout
                   <? Int64.sub now (last_response_timestamp peer)
           then dead_count + 1 else dead_count)
    0 peers.

Definition handle_stepdown_timeout (n : NodeImpl) (now election_timeout : Z)
    (last_response_timestamp : PeerId -> Z) : NodeImpl :=
  if negb (bool_decide (_state n = LEADER)) then n
  else
    let peers := Conf.peer_vector (_conf n).2 in
    let dead_count :=
      dead_count n now election_timeout last_response_timestamp peers in
    if dead_count <? vec_size peers / 2 + 1 then
      set_stepdown_timer (AddRef n) true
    else step_down n (_current_term n).

Section Election.

(** [PeerId::to_string] is declared in [raft/raft.h].  [channel_init] is the
    code of [Channel::Init] for a peer's address, [add_replicator_ret] the
    code of [ReplicatorGroup::add_replicator], and [leader_start] the closure
    that [FSMCaller::on_leader_start] hands out. *)
Variable to_string : PeerId -> string.
Variable channel_init : PeerId -> Z.
Variable add_replicator_ret : PeerId -> Z.
Variable leader_start : option Closure.

(** *** [NodeImpl::become_leader]

    [ReplicatorGroup::init] stores options and starts no replicator; the
    loop adds one for every peer but the node itself, its return code being
    ignored. *)
Definition become_leader (n : NodeImpl) : option NodeImpl :=
  CHECK (bool_decide (_state n = CANDIDATE));;
  let ret := bthread_timer_del (_vote_timer n) in
  let n := set_vote_timer n false in
  let n := if ret =? 0 then Release n else n in
  let n := set_state n LEADER in
  let n := set_leader_id n (_server_id n) in
  let n := AddRef n in
  let n := set_log_manager n (start_disk_thread (_log_manager n)) in
  let peers := Conf.peer_vector (_conf n).2 in
  let n :=
    foldl (fun n peer =>
             if bool_decide (peer = _server_id n) then n
             else if add_replicator_ret peer =? 0 then
               set_replicator_group n
                 (Replicators.add_replicator (_replicator_group n) peer)
             else n)
      n peers in
  let n := set_commit_manager n
             (CommitMgr.reset_pending_index (_commit_manager n)
                (Int64.add (LogMgr.last_log_index (_log_manager n)) 1)) in
  let entry :=
    mkLogEntry 0 (_current_term n) ENTRY_TYPE_ADD_PEER
      (Some (Conf.peer_vector (_conf n).2)) [] in
  CHECK (0 <? vec_size (default [] (entry_peers entry)));;
  let n := append n entry leader_start in
  let n := AddRef n in
  Some (set_stepdown_timer n true).

(** The [for] loop of [elect_self]: one RequestVote call for every peer but
    the node itself whose channel could be set up; each pending call holds a
    reference on the node.  The result lists the calls with their
    destination. *)
Definition request_votes (n : NodeImpl) (peers : list PeerId)
    : NodeImpl * list (PeerId * RequestVoteRequest) :=
  foldl (fun '(n, sent) peer =>
           if bool_decide (peer = _server_id n) then (n, sent)
           else if negb (channel_init peer =? 0) then (n, sent)
           else
             let request :=
               mkRequestVoteRequest (to_string (_server_id n))
                 (_current_term n) (last_log_term n)
                 (LogMgr.last_log_index (_log_manager n)) in
             (AddRef n, sent ++ [(peer, request)]))
    (n, []) peers.

(** *** [NodeImpl::elect_self] *)
Definition elect_self (n : NodeImpl) (vote_ctx : VoteCtx)
    : option (NodeImpl * VoteCtx * list (PeerId * RequestVoteRequest)) :=
  let n :=
    if bool_decide (_state n = FOLLOWER) then
      let ret := bthread_timer_del (_election_timer n) in
      let n := set_election_timer n false in
      if ret =? 0 then Release n else n
    else n in
  let n := set_state n CANDIDATE in
  let n := set_current_term n (Int64.add (_current_term n) 1) in
  let n := set_voted_id n (_server_id n) in
  let vote_ctx := Votes.reset in
  let n := AddRef n in
  let n := set_vote_timer n true in
  let peers := Conf.peer_vector (_conf n).2 in
  let vote_ctx := Votes.set vote_ctx (vec_size peers) in
  let '(n, sent) := request_votes n peers in
  let vote_ctx := Votes.grant vote_ctx (_server_id n) in
  let n := set_stable_storage n
             (Stable.set_term_and_votedfor (_current_term n) (_server_id n)) in
  if Votes.quorum vote_ctx then
    n ← become_leader n;
    Some (n, vote_ctx, sent)
  else Some (n, vote_ctx, sent).

(** *** [NodeImpl::handle_election_timeout] *)
Definition handle_election_timeout (n : NodeImpl) (vote_ctx : VoteCtx)
    (now election_timeout : Z)
    : option (NodeImpl * VoteCtx * list (PeerId * RequestVoteRequest)) :=
  if negb (bool_decide (_state n = FOLLOWER)) then Some (n, vote_ctx, [])
  else if Int64.sub now (_last_leader_timestamp n) <? election_timeout then
    Some (set_election_timer (AddRef n) true, vote_ctx, [])
  else elect_self n vote_ctx.

(** *** [NodeImpl::handle_vote_timeout] *)
Definition handle_vote_timeout (n : NodeImpl) (vote_ctx : VoteCtx)
    : option (NodeImpl * VoteCtx * list (PeerId * RequestVoteRequest)) :=
  if bool_decide (_state n = CANDIDATE) then elect_self n vote_ctx
  else Some (n, vote_ctx, []).

(** *** [NodeImpl::handle_request_vote_response]

    [term] is the term the request was sent in. *)
Definition handle_request_vote_response (n : NodeImpl) (vote_ctx : VoteCtx)
    (peer_id : PeerId) (term : Z) (response : RequestVoteResponse)
    : option (NodeImpl * VoteCtx) :=
  if negb (bool_decide (_state n = CANDIDATE)) then Some (n, vote_ctx)
  else if negb (term =? _current_term n) then Some (n, vote_ctx)
  else if _current_term n <? rvr_term response then
    Some (step_down n (rvr_term response), vote_ctx)
  else if rvr_granted response then
    let vote_ctx := Votes.grant vote_ctx peer_id in
    if Votes.quorum vote_ctx then
      n ← become_leader n;
      Some (n, vote_ctx)
    else Some (n, vote_ctx)
  else Some (n, vote_ctx).

End Election.

(** ** The registry of nodes: [NodeManager]

    Modelled from the spec: a [NodeId] (declared in [raft/raft.h]) is the
    pair of a group and a peer; the registry maps it to the node, which is
    held by address. *)
Record NodeId := mkNodeId {
  node_group_id : string;
  node_peer_id : PeerId
}.

Global Instance NodeId_eq_dec : EqDecision NodeId.
Proof. solve_decision. Defined.

Global Instance NodeId_countable : Countable NodeId.
Proof.
  refine (inj_countable' (fun i => (node_group_id i, node_peer_id i))
            (fun t => mkNodeId t.1 t.2) _).
  by intros [].
Defined.

(** The address of a [NodeImpl]. *)
Definition NodePtr : Type := positive.

Module NodeManager.
(** [add(node)]: [node_id] is [node->node_id()]. *)
Definition add (_nodes : gmap NodeId NodePtr) (node_id : NodeId) (node : NodePtr)
    : bool * gmap NodeId NodePtr :=
  match _nodes !! node_id with
  | None => (true, <[node_id := node]> _nodes)
  | Some _ => (false, _nodes)
  end.

Definition remove (_nodes : gmap NodeId NodePtr) (node_id : NodeId)
    : gmap NodeId NodePtr :=
  delete node_id _nodes.

(** [get]: the node, or the null [scoped_refptr]. *)
Definition get (_nodes : gmap NodeId NodePtr) (group_id : string) (peer_id : PeerId)
    : option NodePtr :=
  _nodes !! mkNodeId group_id peer_id.
End NodeManager.

(** *** [NodeImpl::shutdown]

    [_nodes] is the registry of the node manager and [node_id] the id of the
    node in it; [snapshot_timer] tells whether the member [_snapshot_timer],
    which only [shutdown] and the snapshot timer touch, is pending.

    Modelled from the spec: the log manager and the state-machine caller are
    shut down last; the models of the two above keep no trace of it, so the
    two calls are part of the result. *)
Inductive ShutdownCall :=
  | log_manager_shutdown
  | fsm_caller_shutdown (done : option Closure).

Definition shutdown (_nodes : gmap NodeId NodePtr) (node_id : NodeId)
    (n : NodeImpl) (snapshot_timer : bool) (done : option Closure)
    : gmap NodeId NodePtr * NodeImpl * bool * list ShutdownCall :=
  let _nodes := NodeManager.remove _nodes node_id in
  let n :=
    if negb (bool_decide (_state n = FOLLOWER))
    then step_down n (_current_term n) else n in
  let ret := bthread_timer_del (_election_timer n) in
  let n := set_election_timer n false in
  let n := if ret =? 0 then Release n else n in
  let ret := bthread_timer_del snapshot_timer in
  let snapshot_timer := false in
  let n := if ret =? 0 then Release n else n in
  let n := set_state n SHUTDOWN in
  (_nodes, n, snapshot_timer, [log_manager_shutdown; fsm_caller_shutdown done]).

(** ** The collaborators behind pointers

    The constructor [NodeImpl::NodeImpl] sets [_state] to SHUTDOWN and leaves
    [_config_manager], [_log_manager], [_stable_storage], [_fsm_caller] and
    [_commit_manager] NULL; [init] creates them, in this order, and sets
    FOLLOWER last.  In [NodeImpl] the fields of these names are the objects
    behind the pointers, and the functions above are the member functions on
    a node whose collaborators exist.  [Pointers] tells which of them exist;
    a call made through a NULL pointer does not return, like a failed
    [CHECK].  The functions named [_at] below are the member functions on a
    node with the pointers [p]: they go through the pointers of the path the
    source takes and then do what the function above does. *)
Record Pointers := mkPointers {
  config_manager_set : bool;
  log_manager_set : bool;
  stable_storage_set : bool;
  fsm_caller_set : bool;
  commit_manager_set : bool
}.

(** The pointers as the constructor leaves them. *)
Definition constructed : Pointers := mkPointers false false false false false.

(** The pointers inside [init] when [init_snapshot_storage] runs: the
    state-machine caller and the commit manager are created after it. *)
Definition loading_at_init : Pointers := mkPointers true true true false false.

(** The pointers once [init] has created every collaborator. *)
Definition initialised : Pointers := mkPointers true true true true true.

(** The pointers [step_down] goes through: those of the leader's branch, and
    [_stable_storage] in every state. *)
Definition step_down_through (p : Pointers) (n : NodeImpl) : option unit :=
  (if bool_decide (_state n = LEADER) then
     CHECK (commit_manager_set p);;
     CHECK (log_manager_set p);;
     CHECK (fsm_caller_set p)
   else Some ());;
  CHECK (stable_storage_set p).

(** The pointers [append] goes through, for one entry and its closure. *)
Definition append_through (p : Pointers) : option unit :=
  CHECK (commit_manager_set p);;
  CHECK (log_manager_set p).

(** [NodeImpl::apply] on a node with the pointers [p]: both refusals go
    through [_fsm_caller]. *)
Definition apply_at (p : Pointers) (n : NodeImpl) (data : IOBuf)
    (done : option Closure) : option NodeImpl :=
  (if bool_decide (_state n = SHUTDOWN) then CHECK (fsm_caller_set p)
   else if negb (bool_decide (_state n = LEADER)) then CHECK (fsm_caller_set p)
   else append_through p);;
  Some (apply n data done).

(** [NodeImpl::snapshot]: every path ends in a call of [_fsm_caller]. *)
Definition snapshot_at (p : Pointers) (n : NodeImpl) (done : option Closure)
    : option NodeImpl :=
  CHECK (fsm_caller_set p);;
  Some (snapshot n done).

(** [NodeImpl::add_peer]: every refusal goes through [_fsm_caller]; the
    accepted call only talks to the replicator group, which is a member. *)
Definition add_peer_at (p : Pointers) (n : NodeImpl) (old_peers : list PeerId)
    (peer : PeerId) (done : option Closure)
    (add_replicator_ret wait_caughtup_ret : Z) : option NodeImpl :=
  (if negb (bool_decide (_state n = LEADER)) then CHECK (fsm_caller_set p)
   else if negb (ConfCtx.empty (_conf_ctx n)) then CHECK (fsm_caller_set p)
   else if negb (Conf.equal (_conf n).2 old_peers) then CHECK (fsm_caller_set p)
   else if Conf.contain (_conf n).2 peer then CHECK (fsm_caller_set p)
   else if negb (add_replicator_ret =? 0) then CHECK (fsm_caller_set p)
   else if negb (wait_caughtup_ret =? 0) then CHECK (fsm_caller_set p)
   else Some ());;
  Some (add_peer n old_peers peer done add_replicator_ret wait_caughtup_ret).

(** [NodeImpl::remove_peer]: the refusals go through [_fsm_caller], the
    accepted call through [append]. *)
Definition remove_peer_at (p : Pointers) (n : NodeImpl)
    (old_peers : list PeerId) (peer : PeerId) (done : option Closure)
    : option NodeImpl :=
  (if negb (bool_decide (_state n = LEADER)) then CHECK (fsm_caller_set p)
   else if negb (ConfCtx.empty (_conf_ctx n)) then CHECK (fsm_caller_set p)
   else if negb (Conf.equal (_conf n).2 old_peers) then CHECK (fsm_caller_set p)
   else if negb (Conf.contain (_conf n).2 peer) then CHECK (fsm_caller_set p)
   else append_through p);;
  Some (remove_peer n old_peers peer done).

(** [NodeImpl::on_caughtup]: only the call without error, which appends the
    configuration entry, goes through pointers. *)
Definition on_caughtup_at (p : Pointers) (n : NodeImpl) (peer : PeerId)
    (error_code : Z) (done : option Closure) (now election_timeout : Z)
    (last_response_timestamp : PeerId -> Z) (wait_caughtup_ret : Z)
    : option (NodeImpl * option (Closure * Z)) :=
  (if error_code =? 0 then append_through p else Some ());;
  on_caughtup n peer error_code done now election_timeout
    last_response_timestamp wait_caughtup_ret.

(** [NodeImpl::on_snapshot_load_done]: after the [CHECK] on the pending meta
    every path goes through [_log_manager], [_config_manager] and, at the
    end, [_commit_manager]. *)
Definition on_snapshot_load_done_at (p : Pointers) (n : NodeImpl)
    : option NodeImpl :=
  CHECK (negb (is_null (_loading_snapshot_meta n)));;
  CHECK (log_manager_set p);;
  CHECK (config_manager_set p);;
  CHECK (commit_manager_set p);;
  on_snapshot_load_done n.

(** [NodeImpl::shutdown]: [step_down] for a node that is not a follower,
    then [_log_manager->shutdown()] and [_fsm_caller->shutdown(done)]. *)
Definition shutdown_at (p : Pointers) (_nodes : gmap NodeId NodePtr)
    (node_id : NodeId) (n : NodeImpl) (snapshot_timer : bool)
    (done : option Closure)
    : option (gmap NodeId NodePtr * NodeImpl * bool * list ShutdownCall) :=
  (if negb (bool_decide (_state n = FOLLOWER)) then step_down_through p n
   else Some ());;
  CHECK (log_manager_set p);;
  CHECK (fsm_caller_set p);;
  Some (shutdown _nodes node_id n snapshot_timer done).

(** ** Concrete nodes and requests used by the examples below *)

Module Sample.
Definition pA : PeerId := mkPeerId 1 8000 0.
Definition pB : PeerId := mkPeerId 2 8000 0.
Definition pC : PeerId := mkPeerId 3 8000 0.

(** A stand-in for [PeerId::parse] that knows three peers by name. *)
Definition parse (s : string) : option PeerId :=
  if String.eqb s "A" then Some pA
  else if String.eqb s "B" then Some pB
  else if String.eqb s "C" then Some pC
  else None.

Definition entry (index term : Z) : LogEntry :=
  mkLogEntry index term ENTRY_TYPE_DATA None [].

(** Node A as a follower in [term] with the peer set [peers] and the given
    log; nothing voted, no leader known, no snapshot. *)
Definition follower (term : Z) (peers : list PeerId) (first : Z)
    (logs : list LogEntry) : NodeImpl :=
  mkNodeImpl pA FOLLOWER term empty_peer empty_peer (0, Conf.of_peers peers)
    [] 0 0 0 false None true
    (mkLogManager first logs false [])
    (mkConfigurationManager (0, ∅) [])
    (mkCommitmentManager 0 0 []) (mkStableStorage term empty_peer)
    (mkReplicatorGroup ∅ []) [] false false false 1.

(** Node A as the leader of the one-member group {A} in [term], its
    configuration entry at index 1 committed. *)
Definition lone_leader (term : Z) : NodeImpl :=
  mkNodeImpl pA LEADER term pA pA (1, Conf.of_peers [pA])
    [] 0 0 0 false None true
    (mkLogManager 1 [mkLogEntry 1 term ENTRY_TYPE_ADD_PEER (Some [pA]) []]
       true [])
    (mkConfigurationManager (0, ∅) [(1, Conf.of_peers [pA])])
    (mkCommitmentManager 1 2 []) (mkStableStorage term pA)
    (mkReplicatorGroup ∅ []) [] false false true 3.

Definition vote_response0 : RequestVoteResponse := mkRequestVoteResponse 0 false.
Definition append_response0 : AppendEntriesResponse :=
  mkAppendEntriesResponse 0 false 0.
Definition install_response0 : InstallSnapshotResponse :=
  mkInstallSnapshotResponse 0 false.
End Sample.

(** ** Predicates used in the statements *)

Record stepped_down (n : NodeImpl) (term : Z) (n' : NodeImpl) : Prop := {
  sd_current_term : _current_term n' = term;
  sd_state : _state n' = FOLLOWER;
  sd_voted_id : _voted_id n' = empty_peer;
  sd_leader_id : _leader_id n' = empty_peer;
  sd_conf_ctx : _conf_ctx n' = [];
  sd_stable_storage : _stable_storage n' = mkStableStorage term empty_peer;
  sd_conf : _conf n' = _conf n;
  sd_server_id : _server_id n' = _server_id n;
  sd_last_leader_timestamp : _last_leader_timestamp n' = _last_leader_timestamp n;
  sd_last_committed_index :
    last_committed_index (_commit_manager n')
    = last_committed_index (_commit_manager n);
  sd_loading_snapshot_meta : _loading_snapshot_meta n' = _loading_snapshot_meta n;
  sd_snapshot_storage : _snapshot_storage n' = _snapshot_storage n;
  sd_snapshot_saving : _snapshot_saving n' = _snapshot_saving n;
  sd_last_snapshot_index : _last_snapshot_index n' = _last_snapshot_index n;
  sd_last_snapshot_term : _last_snapshot_term n' = _last_snapshot_term n;
  sd_config_manager : _config_manager n' = _config_manager n;
  sd_first_log_index :
    lm_first_log_index (_log_manager n') = lm_first_log_index (_log_manager n);
  sd_logs : lm_logs (_log_manager n') = lm_logs (_log_manager n);
  sd_log_manager_follower :
    _state n = FOLLOWER -> _log_manager n' = _log_manager n
}.

(** The vote the node holds once a higher term has made it step down. *)
Definition vote_after_term_check (n : NodeImpl) (request : RequestVoteRequest)
    : PeerId :=
  if _current_term n <? rv_term request then empty_peer else _voted_id n.

(** The log holds an entry at [index] whose term is [term]. *)
Definition holds_entry (lm : LogManager) (index term : Z) : Prop :=
  LogMgr.first_log_index lm <= index <= LogMgr.last_log_index lm
  /\ LogMgr.get_term lm index = term.

(** [n'] differs from [n] at most in the log manager, the configuration
    manager and the configuration. *)
Record log_frame (n n' : NodeImpl) : Prop := {
  lf_current_term : _current_term n' = _current_term n;
  lf_state : _state n' = _state n;
  lf_leader_id : _leader_id n' = _leader_id n;
  lf_voted_id : _voted_id n' = _voted_id n;
  lf_last_leader_timestamp : _last_leader_timestamp n' = _last_leader_timestamp n;
  lf_commit_manager : _commit_manager n' = _commit_manager n;
  lf_loading_snapshot_meta : _loading_snapshot_meta n' = _loading_snapshot_meta n;
  lf_last_snapshot_index : _last_snapshot_index n' = _last_snapshot_index n;
  lf_last_snapshot_term : _last_snapshot_term n' = _last_snapshot_term n
}.

(** The entry at [index] is covered by a snapshot, or the log holds it with
    term [term]: the two cases in which the entry loop skips an entry. *)
Definition present (lm : LogManager) (index term : Z) : Prop :=
  index < LogMgr.first_log_index lm
  \/ (index <= LogMgr.last_log_index lm /\ LogMgr.get_term lm index = term).

(** All the entries of a request, the first at [index + 1], are present. *)
Fixpoint all_present (lm : LogManager) (index : Z) (metas : list EntryMeta)
    : Prop :=
  match metas with
  | [] => True
  | entry :: metas =>
      present lm (index + 1) (em_term entry) /\ all_present lm (index + 1) metas
  end.

(** The log as it will be once the batch [acc] collected so far is appended. *)
Definition vlog (n : NodeImpl) (acc : list LogEntry) : LogManager :=
  (foldl LogMgr.push (_log_manager n, _config_manager n) acc).1.

(** The request is refused by the log checks: an index gap, or another term
    at [prev_log_index]. *)
Definition log_mismatch (lm : LogManager) (request : AppendEntriesRequest)
    : Prop :=
  LogMgr.last_log_index lm < ae_prev_log_index request
  \/ (LogMgr.first_log_index lm <= ae_prev_log_index request
      /\ LogMgr.get_term lm (ae_prev_log_index request)
         <> ae_prev_log_term request).

(** The request passes the log checks and brings nothing new. *)
Definition log_up_to_date (lm : LogManager) (request : AppendEntriesRequest)
    : Prop :=
  ae_prev_log_index request <= LogMgr.last_log_index lm
  /\ present lm (ae_prev_log_index request) (ae_prev_log_term request)
  /\ all_present lm (ae_prev_log_index request) (ae_entries request).

(** A follower of the request's term that is not loading a snapshot. *)
Definition settled (n : NodeImpl) (request : AppendEntriesRequest) : Prop :=
  _current_term n = ae_term request /\ _state n = FOLLOWER
  /\ is_null (_loading_snapshot_meta n) = true.

(** C9 as the specification words it, for one node and one request: the
    request delivered again right after the first delivery leaves the log as
    the first delivery left it and is answered with the same flag. *)
Definition redelivery_idempotent (parse : string -> option PeerId)
    (n : NodeImpl) (now : Z) (buf : IOBuf) (request : AppendEntriesRequest)
    : Prop :=
  forall response ret n1 buf1 r1,
    handle_append_entries_request parse n now buf request response
    = Some (ret, n1, buf1, r1) ->
    exists n2 buf2 r2,
      handle_append_entries_request parse n1 now buf request response
      = Some (ret, n2, buf2, r2)
      /\ _log_manager n2 = _log_manager n1
      /\ aer_success r2 = aer_success r1.

(** ** Predicates used in the statements on the entry points *)

Record appended (n : NodeImpl) (entry : LogEntry) (done : option Closure)
    (n' : NodeImpl) : Prop := {
  ap_state : _state n' = _state n;
  ap_current_term : _current_term n' = _current_term n;
  ap_voted_id : _voted_id n' = _voted_id n;
  ap_leader_id : _leader_id n' = _leader_id n;
  ap_server_id : _server_id n' = _server_id n;
  ap_stable_storage : _stable_storage n' = _stable_storage n;
  ap_election_timer : _election_timer n' = _election_timer n;
  ap_vote_timer : _vote_timer n' = _vote_timer n;
  ap_stepdown_timer : _stepdown_timer n' = _stepdown_timer n;
  ap_fsm_caller : _fsm_caller n' = _fsm_caller n;
  ap_replicator_group : _replicator_group n' = _replicator_group n;
  ap_last_leader_timestamp :
    _last_leader_timestamp n' = _last_leader_timestamp n;
  ap_snapshot_saving : _snapshot_saving n' = _snapshot_saving n;
  ap_loading_snapshot_meta :
    _loading_snapshot_meta n' = _loading_snapshot_meta n;
  ap_snapshot_storage : _snapshot_storage n' = _snapshot_storage n;
  ap_last_snapshot_index : _last_snapshot_index n' = _last_snapshot_index n;
  ap_last_snapshot_term : _last_snapshot_term n' = _last_snapshot_term n;
  ap_ref_count : _ref_count n' = _ref_count n + 1;
  ap_first_log_index :
    lm_first_log_index (_log_manager n') = lm_first_log_index (_log_manager n);
  ap_logs :
    lm_logs (_log_manager n')
    = lm_logs (_log_manager n)
      ++ [mkLogEntry (LogMgr.last_log_index (_log_manager n) + 1)
            (entry_term entry) (entry_type entry) (entry_peers entry)
            (entry_data entry)];
  ap_disk_thread :
    lm_disk_thread (_log_manager n') = lm_disk_thread (_log_manager n);
  ap_last_committed_index :
    last_committed_index (_commit_manager n')
    = last_committed_index (_commit_manager n);
  ap_pending_index :
    pending_index (_commit_manager n') = pending_index (_commit_manager n);
  ap_pending_apps :
    pending_apps (_commit_manager n')
    = pending_apps (_commit_manager n)
      ++ [(if LogMgr.is_conf_entry entry
           then Conf.of_peers (default [] (entry_peers entry))
           else (_conf n).2, done)]
}.

Record became_leader (n n' : NodeImpl) : Prop := {
  bl_state : _state n' = LEADER;
  bl_leader_id : _leader_id n' = _server_id n;
  bl_server_id : _server_id n' = _server_id n;
  bl_current_term : _current_term n' = _current_term n;
  bl_voted_id : _voted_id n' = _voted_id n;
  bl_stable_storage : _stable_storage n' = _stable_storage n;
  bl_vote_timer : _vote_timer n' = false;
  bl_stepdown_timer : _stepdown_timer n' = true;
  bl_election_timer : _election_timer n' = _election_timer n;
  bl_fsm_caller : _fsm_caller n' = _fsm_caller n;
  bl_last_leader_timestamp :
    _last_leader_timestamp n' = _last_leader_timestamp n;
  bl_snapshot_saving : _snapshot_saving n' = _snapshot_saving n;
  bl_loading_snapshot_meta :
    _loading_snapshot_meta n' = _loading_snapshot_meta n;
  bl_snapshot_storage : _snapshot_storage n' = _snapshot_storage n;
  bl_last_snapshot_index : _last_snapshot_index n' = _last_snapshot_index n;
  bl_last_snapshot_term : _last_snapshot_term n' = _last_snapshot_term n;
  bl_first_log_index :
    lm_first_log_index (_log_manager n') = lm_first_log_index (_log_manager n);
  bl_logs :
    lm_logs (_log_manager n')
    = lm_logs (_log_manager n)
      ++ [mkLogEntry (LogMgr.last_log_index (_log_manager n) + 1)
            (_current_term n) ENTRY_TYPE_ADD_PEER
            (Some (Conf.peer_vector (_conf n).2)) []];
  bl_disk_thread : lm_disk_thread (_log_manager n') = true;
  bl_last_committed_index :
    last_committed_index (_commit_manager n')
    = last_committed_index (_commit_manager n);
  bl_pending_index :
    pending_index (_commit_manager n')
    = Int64.add (LogMgr.last_log_index (_log_manager n)) 1
}.

(** The RequestVote that a candidate [n] sends. *)
Definition vote_request (to_string : PeerId -> string) (n : NodeImpl)
    : RequestVoteRequest :=
  mkRequestVoteRequest (to_string (_server_id n)) (_current_term n)
    (last_log_term n) (LogMgr.last_log_index (_log_manager n)).

(** The peers a candidate [n] can reach: all but itself whose channel could
    be set up. *)
Definition reachable_peers (channel_init : PeerId -> Z) (n : NodeImpl)
    (peers : list PeerId) : list PeerId :=
  filter (fun p => p <> _server_id n /\ channel_init p = 0) peers.

(** The answers to a candidate's requests, delivered one after the other. *)
Fixpoint deliver_votes (add_replicator_ret : PeerId -> Z)
    (leader_start : option Closure) (n : NodeImpl) (vote_ctx : VoteCtx)
    (term : Z) (votes : list (PeerId * RequestVoteResponse))
    : option (NodeImpl * VoteCtx) :=
  match votes with
  | [] => Some (n, vote_ctx)
  | (peer_id, response) :: votes =>
      '(n, vote_ctx) ←
        handle_request_vote_response add_replicator_ret leader_start n
          vote_ctx peer_id term response;
      deliver_votes add_replicator_ret leader_start n vote_ctx term votes
  end.

(** The peers other than the node itself that have been silent for longer
    than the election timeout. *)
Definition dead_peers (n : NodeImpl) (now election_timeout : Z)
    (last_response_timestamp : PeerId -> Z) (peers : list PeerId)
    : list PeerId :=
  filter (fun p => p <> _server_id n
                   /\ election_timeout
                      < Int64.sub now (last_response_timestamp p))
    peers.

(** What [step_down] does to the timers and the replicators. *)
Record stepped_down_timers (n : NodeImpl) (n' : NodeImpl) : Prop := {
  sdt_election_timer :
    _election_timer n'
    = (if negb (Conf.empty (_conf n).2)
          && Conf.contain (_conf n).2 (_server_id n)
       then true else _election_timer n);
  sdt_vote_timer :
    _vote_timer n'
    = (if bool_decide (_state n = CANDIDATE) then false else _vote_timer n);
  sdt_stepdown_timer :
    _stepdown_timer n'
    = (if bool_decide (_state n = LEADER) then false else _stepdown_timer n);
  sdt_replicator_group : _replicator_group n' = mkReplicatorGroup ∅ [];
  sdt_fsm_caller :
    _fsm_caller n'
    = (if bool_decide (_state n = LEADER)
       then _fsm_caller n ++ [on_leader_stop] else _fsm_caller n);
  sdt_pending_apps :
    pending_apps (_commit_manager n')
    = (if bool_decide (_state n = LEADER) then []
       else pending_apps (_commit_manager n))
}.

(** The calls of the state-machine caller that carry the closure [d]. *)
Definition fsm_hands (d : Closure) (c : FsmCall) : Prop :=
  match c with
  | on_cleared _ done _ => done = Some d
  | on_snapshot_save done => done = Some d
  | _ => False
  end.

Global Instance fsm_hands_dec d c : Decision (fsm_hands d c).
Proof. destruct c; cbn; apply _. Defined.

(** How many times the closure [d] is in the hands of a collaborator: in a
    call made to the state-machine caller, in a pending application of the
    commit manager, or in a catch-up wait of the replicator group. *)
Definition handoffs (n : NodeImpl) (d : Closure) : nat :=
  (length (filter (fsm_hands d) (_fsm_caller n : list FsmCall))
   + length (filter (fun a => a.2 = Some d) (pending_apps (_commit_manager n)))
   + length (filter (fun w => w.2 = Some d)
               (caughtup_waits (_replicator_group n))))%nat.

(** One call of an entry point of the node: a client call, an RPC handler, a
    timer callback or a completion of a collaborator, with any arguments and
    any answers of the collaborators.  A call that ends the process makes no
    step. *)
Inductive entry_point (parse : string -> option PeerId) (n : NodeImpl)
    : NodeImpl -> Prop :=
  | ep_apply data done : entry_point parse n (apply n data done)
  | ep_add_peer old_peers peer done add_replicator_ret wait_caughtup_ret :
      entry_point parse n
        (add_peer n old_peers peer done add_replicator_ret wait_caughtup_ret)
  | ep_remove_peer old_peers peer done :
      entry_point parse n (remove_peer n old_peers peer done)
  | ep_set_peer old_peers new_peers :
      entry_point parse n (set_peer n old_peers new_peers).2
  | ep_snapshot done : entry_point parse n (snapshot n done)
  | ep_increase_term_to new_term :
      entry_point parse n (increase_term_to n new_term).2
  | ep_request_vote request response :
      entry_point parse n
        (handle_request_vote_request parse n request response).1.2
  | ep_append_entries now buf request response ret n' buf' response' :
      handle_append_entries_request parse n now buf request response
      = Some (ret, n', buf', response') ->
      entry_point parse n n'
  | ep_install_snapshot request response writer copy_ret ret n' response' ran :
      handle_install_snapshot_request parse n request response writer copy_ret
      = Some (ret, n', response', ran) ->
      entry_point parse n n'
  | ep_snapshot_load_done n' :
      on_snapshot_load_done n = Some n' -> entry_point parse n n'
  | ep_snapshot_save_done last_included_index writer ret n' writer' :
      on_snapshot_save_done n last_included_index writer
      = Some (ret, n', writer') ->
      entry_point parse n n'
  | ep_install_snapshot_done err_code response n' response' :
      InstallSnapshotDone_Run n err_code response = Some (n', response') ->
      entry_point parse n n'
  | ep_save_snapshot_done err_code meta writer done n' writer' run :
      SaveSnapshotDone_Run n err_code meta writer done
      = Some (n', writer', run) ->
      entry_point parse n n'
  | ep_configuration_change_done type new_peers :
      entry_point parse n (on_configuration_change_done n type new_peers)
  | ep_caughtup peer error_code done now election_timeout
      last_response_timestamp wait_caughtup_ret n' run :
      on_caughtup n peer error_code done now election_timeout
        last_response_timestamp wait_caughtup_ret = Some (n', run) ->
      entry_point parse n n'
  | ep_stepdown_timeout now election_timeout last_response_timestamp :
      entry_point parse n
        (handle_stepdown_timeout n now election_timeout
           last_response_timestamp)
  | ep_election_timeout to_string channel_init add_replicator_ret
      leader_start vote_ctx now election_timeout n' vote_ctx' sent :
      handle_election_timeout to_string channel_init add_replicator_ret
        leader_start n vote_ctx now election_timeout
      = Some (n', vote_ctx', sent) ->
      entry_point parse n n'
  | ep_vote_timeout to_string channel_init add_replicator_ret leader_start
      vote_ctx n' vote_ctx' sent :
      handle_vote_timeout to_string channel_init add_replicator_ret
        leader_start n vote_ctx = Some (n', vote_ctx', sent) ->
      entry_point parse n n'
  | ep_vote_response add_replicator_ret leader_start vote_ctx peer_id term
      response n' vote_ctx' :
      handle_request_vote_response add_replicator_ret leader_start n vote_ctx
        peer_id term response = Some (n', vote_ctx') ->
      entry_point parse n n'
  | ep_shutdown (nodes : gmap NodeId NodePtr) node_id snapshot_timer done :
      entry_point parse n
        (shutdown nodes node_id n snapshot_timer done).1.1.2.

(** Stable storage holds the term and the vote the node has in memory. *)
Definition persisted (n : NodeImpl) : Prop :=
  _stable_storage n = mkStableStorage (_current_term n) (_voted_id n).

(** A leader knows itself as the leader; a candidate holds its own vote. *)
Definition role_ok (n : NodeImpl) : Prop :=
  (_state n = LEADER -> _leader_id n = _server_id n)
  /\ (_state n = CANDIDATE -> _voted_id n = _server_id n).

(** What every entry point keeps, from [n] to [n']. *)
Definition preserved (n n' : NodeImpl) : Prop :=
  _server_id n' = _server_id n
  /\ (persisted n -> persisted n')
  /\ (Int64.in_range (_current_term n + 1) ->
      _current_term n <= _current_term n'
      \/ (Conf.empty (_conf n).2 = true /\ _current_term n' = 1))
  /\ (_server_id n <> empty_peer -> role_ok n -> role_ok n').

(** The identity, the role, the term and the vote are untouched. *)
Record kept (n n' : NodeImpl) : Prop := {
  k_server_id : _server_id n' = _server_id n;
  k_state : _state n' = _state n;
  k_current_term : _current_term n' = _current_term n;
  k_voted_id : _voted_id n' = _voted_id n;
  k_leader_id : _leader_id n' = _leader_id n;
  k_stable_storage : _stable_storage n' = _stable_storage n
}.

(** * Properties *)

(** ** Arithmetic within [int64_t] *)

Lemma Int64_wrap_in_range (x : Z) : Int64.in_range x -> Int64.wrap x = x.
Proof.
  unfold Int64.in_range, Int64.wrap, Int64.min_signed, Int64.max_signed,
    Int64.modulus.
  intros H. rewrite Z.mod_small; lia.
Qed.

Lemma Int64_add_in_range (x y : Z) :
  Int64.in_range (x + y) -> Int64.add x y = x + y.
Proof. apply Int64_wrap_in_range. Qed.

Lemma Int64_sub_in_range (x y : Z) :
  Int64.in_range (x - y) -> Int64.sub x y = x - y.
Proof. apply Int64_wrap_in_range. Qed.

(** ** What [step_down] writes and what it leaves alone *)

Lemma step_down_spec n term : stepped_down n term (step_down n term).
Proof.
  destruct n as [me st ? ? ? conf ? ? ? ? ? ? ? ? ? ? ? ? ? ? vote_timer stepdown_timer ?].
  destruct st; [destruct stepdown_timer | destruct vote_timer | |];
    split; try discriminate;
    unfold step_down, Release, AddRef; cbn -[Conf.empty Conf.contain];
    destruct (negb (Conf.empty conf.2) && Conf.contain conf.2 me); reflexivity.
Qed.

(** Replaces every [step_down n t] of the goal by a node about which only
    [stepped_down n t] is known.  To be called before the hypotheses that
    mention [step_down] are introduced. *)
Ltac forget_step_down :=
  repeat match goal with
    | |- context [step_down ?n ?t] =>
        let X := fresh "sd" in
        let HX := fresh "Hsd" in
        generalize (step_down_spec n t); generalize (step_down n t);
        intros X HX
    end.

(** Projections of setters, and nothing else. *)
Ltac node_simpl :=
  cbn [
    _server_id _state _current_term _voted_id _leader_id _conf _conf_ctx
    _last_snapshot_term _last_snapshot_index _last_leader_timestamp
    _snapshot_saving _loading_snapshot_meta _snapshot_storage _log_manager
    _config_manager _commit_manager _stable_storage _replicator_group
    _fsm_caller _election_timer _vote_timer _stepdown_timer _ref_count
    set_state set_current_term set_voted_id set_leader_id set_conf
    set_conf_ctx set_last_snapshot_term set_last_snapshot_index
    set_last_leader_timestamp set_snapshot_saving set_loading_snapshot_meta
    set_snapshot_storage set_log_manager set_config_manager
    set_commit_manager set_stable_storage set_replicator_group
    set_fsm_caller set_election_timer set_vote_timer set_stepdown_timer
    set_ref_count AddRef Release fst snd ] in *.

(** Case analysis on the innermost scrutinee of a nest of [match]es. *)
Ltac case_inner x :=
  lazymatch x with
  | context [match ?y with _ => _ end] => case_inner y
  | _ => destruct x eqn:?
  end.

Lemma CHECK_Some {A} b (k : option A) (r : A) :
  (CHECK b ;; k) = Some r -> b = true /\ k = Some r.
Proof. destruct b; cbn; [auto | discriminate]. Qed.

(** Follows a handler along the path that produced the result in [H]. *)
Ltac inv_handler H :=
  repeat match type of H with
    | (CHECK ?b ;; ?k) = Some _ =>
        apply CHECK_Some in H; destruct H as [? H]
    | context [match ?x with _ => _ end] => case_inner x
    end;
  first [ discriminate H | injection H; clear H; intros; subst ].

(** ** InstallSnapshot and the request's term *)

(** C2 (InstallSnapshot adopts the request's term), refuted: a follower in
    term 1 handles an InstallSnapshot of term 2 to the end; afterwards it is
    still in term 1 and the response carries term 1.  The handler calls
    [step_down(_current_term)] where the AppendEntries handler calls
    [step_down(request->term())]. *)
Theorem install_snapshot_ignores_request_term :
  let n := Sample.follower 1 [Sample.pA; Sample.pB] 1 [] in
  let request := mkInstallSnapshotRequest "B" 2 10 1 ["A"; "B"] "uri" in
  match handle_install_snapshot_request Sample.parse n request
          Sample.install_response0 (Some (mkSnapshotWriter 0 0)) 0 with
  | Some (ret, n', response, _) =>
      ret = 0 /\ _current_term n < is_term request
      /\ _state n' = FOLLOWER /\ _leader_id n' = Sample.pB
      /\ _current_term n' = 1 /\ isr_term response = 1
      /\ _current_term n' <> is_term request
  | None => False
  end.
Proof. vm_compute. repeat split; discriminate. Qed.

(** ** RequestVote *)

(** C3 (a node that trusts a leader rejects every RequestVote), refuted by
    three calls in a row: node A in term 3 grants its vote to B; B's
    heartbeat of term 3 makes B the leader A trusts; the same RequestVote of B
    delivered again is answered with [granted = true] although [_leader_id]
    is B.  After the [break] the shared tail recomputes [granted] from
    [_voted_id]. *)
Theorem request_vote_granted_despite_leader :
  let n0 := Sample.follower 3 [Sample.pA; Sample.pB; Sample.pC] 1 [] in
  let vote := mkRequestVoteRequest "B" 3 0 0 in
  let heartbeat := mkAppendEntriesRequest "B" 3 0 0 [] 0 in
  let '(_, n1, _) :=
    handle_request_vote_request Sample.parse n0 vote Sample.vote_response0 in
  match handle_append_entries_request Sample.parse n1 50 [] heartbeat
          Sample.append_response0 with
  | Some (_, n2, _, _) =>
      let '(ret, n3, response) :=
        handle_request_vote_request Sample.parse n2 vote Sample.vote_response0 in
      is_empty (_leader_id n2) = false /\ _leader_id n2 = Sample.pB
      /\ ret = 0 /\ rvr_granted response = true /\ rvr_term response = 3
  | None => False
  end.
Proof. vm_compute. repeat split. Qed.

(** With a leader known, the handler leaves the node as it is, and the answer
    is the shared tail's. *)
Lemma request_vote_with_leader parse n request response candidate_id :
  parse (rv_server_id request) = Some candidate_id ->
  is_empty (_leader_id n) = false ->
  handle_request_vote_request parse n request response
  = (0, n, mkRequestVoteResponse (_current_term n)
             ((rv_term request =? _current_term n)
              && peer_eqb (_voted_id n) candidate_id)).
Proof.
  intros Hp Hl. unfold handle_request_vote_request. rewrite Hp, Hl. reflexivity.
Qed.

(** C4: without a leader, a request of a larger term makes the node step down
    to that term first, which clears the vote; when the request's term is
    not older, the vote goes to the candidate exactly when [log_is_ok] holds
    and no vote is held after that step, and a recorded vote is persisted; a
    request of an older term leaves the node as it is; the response is
    (current_term, request.term == current_term and voted_for ==
    candidate).  The node after the call is given in full: it is the node
    after the term check, with the vote recorded or not. *)
Theorem request_vote_without_leader parse n request response candidate_id :
  parse (rv_server_id request) = Some candidate_id ->
  is_empty (_leader_id n) = true ->
  let r := handle_request_vote_request parse n request response in
  let n' := r.1.2 in
  let stepped :=
    if _current_term n <? rv_term request
    then step_down n (rv_term request) else n in
  let recorded :=
    (_current_term n <=? rv_term request) && log_is_ok n request
    && is_empty (vote_after_term_check n request) in
  r.1.1 = 0
  /\ _current_term n' = Z.max (_current_term n) (rv_term request)
  /\ (_current_term n < rv_term request -> _state n' = FOLLOWER)
  /\ _voted_id n'
     = (if recorded then candidate_id else vote_after_term_check n request)
  /\ (recorded = true -> stable_votedfor (_stable_storage n') = candidate_id)
  /\ (rv_term request < _current_term n -> n' = n)
  /\ (_current_term n <= rv_term request ->
      n' = if recorded
           then set_stable_storage (set_voted_id stepped candidate_id)
                  (Stable.set_votedfor (_stable_storage stepped) candidate_id)
           else stepped)
  /\ r.2 = mkRequestVoteResponse (_current_term n')
             ((rv_term request =? _current_term n')
              && peer_eqb (_voted_id n') candidate_id).
Proof.
  intros Hp Hl. unfold handle_request_vote_request, vote_after_term_check.
  rewrite Hp, Hl. cbn [negb].
  assert (Hok : log_is_ok (step_down n (rv_term request)) request
                = log_is_ok n request).
  { unfold log_is_ok, last_log_term, LogMgr.get_term, LogMgr.last_log_index,
      LogMgr.first_log_index.
    pose proof (step_down_spec n (rv_term request)) as S.
    rewrite (sd_first_log_index _ _ _ S), (sd_logs _ _ _ S),
      (sd_last_snapshot_term _ _ _ S).
    reflexivity. }
  revert Hok. generalize (log_is_ok n request). intros ok.
  forget_step_down. intros Hok.
  pose proof (sd_state _ _ _ Hsd) as Hst.
  pose proof (sd_current_term _ _ _ Hsd) as Hterm.
  pose proof (sd_voted_id _ _ _ Hsd) as Hvote. clear Hsd.
  destruct (Z.leb_spec (_current_term n) (rv_term request));
    destruct (Z.ltb_spec (_current_term n) (rv_term request)); try lia;
    cbn [andb fst snd];
    repeat match goal with
      | |- context [if ?b then _ else _] => destruct b eqn:?
      end;
    node_simpl; cbn [stable_votedfor Stable.set_votedfor];
    repeat split; try congruence; try lia; try discriminate.
Qed.

Lemma request_vote_without_leader_witness :
  let n := Sample.follower 3 [Sample.pA; Sample.pB] 1 [] in
  let request := mkRequestVoteRequest "B" 4 0 0 in
  let r := handle_request_vote_request Sample.parse n request
             Sample.vote_response0 in
  Sample.parse (rv_server_id request) = Some Sample.pB
  /\ is_empty (_leader_id n) = true
  /\ r.1.1 = 0 /\ _current_term r.1.2 = 4 /\ _voted_id r.1.2 = Sample.pB
  /\ r.2 = mkRequestVoteResponse 4 true.
Proof.
  intros n request r. subst r.
  destruct (request_vote_without_leader Sample.parse n request
              Sample.vote_response0 Sample.pB eq_refl eq_refl)
    as (H1 & H2 & _ & H4 & _ & _ & _ & H6).
  split; [reflexivity |]. split; [reflexivity |].
  split; [exact H1 |]. split; [rewrite H2; reflexivity |].
  split; [rewrite H4; reflexivity |].
  rewrite H6, H2, H4. reflexivity.
Defined.

(** ** Snapshot save *)

(** C6: a save whose index is not beyond the last snapshot is stale.  The
    call returns ESTALE, the writer records ESTALE, and the node is the one
    before with [_snapshot_saving] cleared, so that the last snapshot index
    and term and the log are untouched; and whatever the index, a call that
    completes has cleared [_snapshot_saving]. *)
Theorem on_snapshot_save_done_stale n last_included_index writer :
  last_included_index <= _last_snapshot_index n ->
  (exists n' writer',
      on_snapshot_save_done n last_included_index writer
      = Some (ESTALE, n', writer')
      /\ writer' = mkSnapshotWriter ESTALE (writer_save_meta writer)
      /\ n' = set_snapshot_saving n false
      /\ _last_snapshot_index n' = _last_snapshot_index n
      /\ _last_snapshot_term n' = _last_snapshot_term n
      /\ _log_manager n' = _log_manager n
      /\ _snapshot_saving n' = false)
  /\ (forall index w ret n' w',
        on_snapshot_save_done n index w = Some (ret, n', w') ->
        _snapshot_saving n' = false).
Proof.
  intros Hstale. split.
  - exists (set_snapshot_saving n false),
      (mkSnapshotWriter ESTALE (writer_save_meta writer)).
    unfold on_snapshot_save_done.
    destruct (Z.leb_spec last_included_index (_last_snapshot_index n)); [| lia].
    repeat split.
  - clear. intros index w ret n' w'. destruct n.
    unfold on_snapshot_save_done, CHECK. node_simpl. intros H.
    inv_handler H; reflexivity.
Qed.

Lemma on_snapshot_save_done_stale_witness :
  let n :=
    set_snapshot_saving
      (set_last_snapshot_index
         (Sample.follower 2 [Sample.pA] 201 [Sample.entry 201 2]) 200) true in
  100 <= _last_snapshot_index n
  /\ on_snapshot_save_done n 100 (mkSnapshotWriter 0 0)
     = Some (ESTALE, set_snapshot_saving n false, mkSnapshotWriter ESTALE 0).
Proof.
  intros n. split; [vm_compute; discriminate |].
  destruct (on_snapshot_save_done_stale n 100 (mkSnapshotWriter 0 0))
    as [(n' & w' & H & -> & -> & _) _]; [vm_compute; discriminate |].
  rewrite H. reflexivity.
Defined.

(** A save beyond the last snapshot, within the log, completes with the code
    of [save_meta] and moves the snapshot to [last_included_index]. *)
Lemma on_snapshot_save_done_fresh n last_included_index writer :
  _last_snapshot_index n < last_included_index ->
  LogMgr.first_log_index (_log_manager n) <= last_included_index ->
  last_included_index <= LogMgr.last_log_index (_log_manager n) ->
  exists n',
    on_snapshot_save_done n last_included_index writer
    = Some (writer_save_meta writer, n', writer)
    /\ _snapshot_saving n' = false
    /\ _last_snapshot_index n' = last_included_index.
Proof.
  intros H1 H2 H3. unfold on_snapshot_save_done, CHECK.
  destruct (Z.leb_spec last_included_index (_last_snapshot_index n)); [lia |].
  destruct (Z.leb_spec (LogMgr.first_log_index (_log_manager n))
              last_included_index); [| lia].
  destruct (Z.leb_spec last_included_index
              (LogMgr.last_log_index (_log_manager n))); [| lia].
  cbn [mbind option_bind]. eexists. split; [reflexivity |].
  split; [reflexivity |].
  destruct n. node_simpl. repeat case_match; reflexivity.
Qed.

(** ** set_peer *)

Lemma contain_all_spec (c : gset PeerId) (peers : list PeerId) :
  Conf.contain_all c peers = true <-> forall p, p ∈ peers -> p ∈ c.
Proof.
  unfold Conf.contain_all, Conf.contain. rewrite forallb_forall. split.
  - intros H p Hp. apply list_elem_of_In in Hp. apply H in Hp.
    by apply bool_decide_eq_true in Hp.
  - intros H p Hp. apply bool_decide_eq_true. apply H. by apply list_elem_of_In.
Qed.

(** C7: on a node that has a configuration, [set_peer] rejects with EINVAL
    (which is not 0) and changes nothing whenever [new_peers] has at least
    [old_peers.size() / 2 + 1] elements, or is not contained in [old_peers],
    or [old_peers] is not the current configuration; when it returns 0, the
    node has stepped down to [current_term + 1] (an [int64_t] addition) and
    its configuration is exactly [new_peers]. *)
Theorem set_peer_recover n old_peers new_peers :
  Conf.empty (_conf n).2 = false ->
  (vec_size old_peers / 2 + 1 <= vec_size new_peers
   \/ ~ (forall p, p ∈ new_peers -> p ∈ old_peers)
   \/ (_conf n).2 <> list_to_set old_peers ->
   set_peer n old_peers new_peers = (EINVAL, n) /\ EINVAL <> 0)
  /\ ((set_peer n old_peers new_peers).1 = 0 ->
      (set_peer n old_peers new_peers).2
      = set_conf (step_down n (Int64.add (_current_term n) 1))
          ((_conf n).1, list_to_set new_peers)
      /\ _state (set_peer n old_peers new_peers).2 = FOLLOWER
      /\ _current_term (set_peer n old_peers new_peers).2
         = Int64.add (_current_term n) 1
      /\ (_conf (set_peer n old_peers new_peers).2).2 = list_to_set new_peers).
Proof.
  intros Hconf. unfold set_peer. rewrite Hconf. cbn [andb].
  forget_step_down.
  destruct (bool_decide (_state n = SHUTDOWN));
    [split; [split; [reflexivity | discriminate] | discriminate] |].
  destruct (bool_decide (_state n = LEADER) && negb (ConfCtx.empty (_conf_ctx n)));
    [split; [split; [reflexivity | discriminate] | discriminate] |].
  destruct (Conf.equal (_conf n).2 old_peers) eqn:Heq; cbn [negb];
    [| split; [split; [reflexivity | discriminate] | discriminate]].
  destruct (Z.leb_spec (vec_size old_peers / 2 + 1) (vec_size new_peers));
    [split; [split; [reflexivity | discriminate] | discriminate] |].
  destruct (Conf.contain_all (_conf n).2 new_peers) eqn:Hall; cbn [negb];
    [| split; [split; [reflexivity | discriminate] | discriminate]].
  apply bool_decide_eq_true in Heq.
  pose proof (proj1 (contain_all_spec _ _) Hall) as Hin.
  split.
  - intros [Hq | [Hsub | Hne]].
    + lia.
    + exfalso. apply Hsub. intros p Hp. apply Hin in Hp.
      rewrite Heq in Hp. by apply elem_of_list_to_set in Hp.
    + contradiction.
  - intros _. destruct Hsd. cbn [fst snd]. node_simpl.
    rewrite sd_conf0. repeat split; assumption.
Qed.

Lemma set_peer_recover_witness :
  let n := Sample.follower 5 [Sample.pA; Sample.pB; Sample.pC] 1 [] in
  Conf.empty (_conf n).2 = false
  /\ set_peer n [Sample.pA; Sample.pB] [Sample.pA; Sample.pB] = (EINVAL, n)
  /\ (set_peer n [Sample.pA; Sample.pB; Sample.pC] [Sample.pA]).1 = 0
  /\ _current_term (set_peer n [Sample.pA; Sample.pB; Sample.pC] [Sample.pA]).2
     = 6
  /\ (_conf (set_peer n [Sample.pA; Sample.pB; Sample.pC] [Sample.pA]).2).2
     = {[Sample.pA]}.
Proof.
  intros n.
  assert (Hc : Conf.empty (_conf n).2 = false) by (vm_compute; reflexivity).
  split; [exact Hc |]. split.
  - apply (set_peer_recover n [Sample.pA; Sample.pB] [Sample.pA; Sample.pB] Hc).
    left. vm_compute. discriminate.
  - assert (H0 : (set_peer n [Sample.pA; Sample.pB; Sample.pC] [Sample.pA]).1 = 0)
      by (vm_compute; reflexivity).
    destruct (proj2 (set_peer_recover n [Sample.pA; Sample.pB; Sample.pC]
                       [Sample.pA] Hc) H0) as (_ & _ & Ht & Hcf).
    split; [exact H0 |]. split; [rewrite Ht; reflexivity |].
    rewrite Hcf. vm_compute. reflexivity.
Defined.

(** When [set_peer] accepts on a node that has a configuration. *)
Lemma set_peer_recover_accepts n old_peers new_peers :
  Conf.empty (_conf n).2 = false ->
  (set_peer n old_peers new_peers).1 = 0 <->
  _state n <> SHUTDOWN
  /\ ~ (_state n = LEADER /\ _conf_ctx n <> [])
  /\ (_conf n).2 = list_to_set old_peers
  /\ vec_size new_peers < vec_size old_peers / 2 + 1
  /\ (forall p, p ∈ new_peers -> p ∈ old_peers).
Proof.
  intros Hconf. unfold set_peer. rewrite Hconf. cbn [andb].
  forget_step_down. clear Hsd.
  unfold Conf.equal, ConfCtx.empty.
  destruct (decide (_state n = SHUTDOWN)) as [Hs | Hs];
    [rewrite (bool_decide_eq_true_2 _ Hs); cbn [fst]; split;
       [discriminate | tauto] |].
  rewrite (bool_decide_eq_false_2 _ Hs).
  destruct (decide (_state n = LEADER)) as [Hl | Hl];
    [rewrite (bool_decide_eq_true_2 _ Hl) | rewrite (bool_decide_eq_false_2 _ Hl)];
    cbn [andb].
  2: assert (Hnl : ~ (_state n = LEADER /\ _conf_ctx n <> [])) by tauto.
  1: destruct (decide (_conf_ctx n = [])) as [Hx | Hx];
       [rewrite (bool_decide_eq_true_2 _ Hx)
       | rewrite (bool_decide_eq_false_2 _ Hx)]; cbn [negb];
       [assert (Hnl : ~ (_state n = LEADER /\ _conf_ctx n <> [])) by tauto
       | cbn [fst]; split; [discriminate | tauto]].
  all: destruct (decide ((_conf n).2 = list_to_set old_peers)) as [He | He];
    [rewrite (bool_decide_eq_true_2 _ He)
    | rewrite (bool_decide_eq_false_2 _ He)]; cbn [negb];
    [| cbn [fst]; split; [discriminate | tauto]].
  all: destruct (Z.leb_spec (vec_size old_peers / 2 + 1) (vec_size new_peers));
    [cbn [fst]; split; [discriminate | intros; lia] |].
  all: destruct (Conf.contain_all (_conf n).2 new_peers) eqn:Hall; cbn [negb fst].
  all: try (pose proof (proj1 (contain_all_spec _ _) Hall) as Hin;
            split; [intros _ | reflexivity];
            repeat split; try assumption;
            intros p Hp; apply Hin in Hp; rewrite He in Hp;
            by apply elem_of_list_to_set in Hp).
  all: split; [discriminate |]; intros (_ & _ & _ & _ & Hsub);
    assert (Conf.contain_all (_conf n).2 new_peers = true) as Hyes
      by (apply contain_all_spec; intros p Hp; rewrite He;
          apply elem_of_list_to_set; auto);
    congruence.
Qed.

(** ** One configuration change at a time (invariant 5) *)

(** With a change in flight, [add_peer] hands the closure to [on_cleared]
    with an error (EPERM on a non-leader, EINVAL on a leader) and does nothing
    else: no replicator, no entry, no new configuration. *)
Lemma add_peer_conf_change_in_flight n old_peers peer done a w :
  _conf_ctx n <> [] ->
  exists e, e <> 0
    /\ add_peer n old_peers peer done a w
       = set_fsm_caller n (_fsm_caller n ++ [on_cleared 0 done e]).
Proof.
  intros Hctx. unfold add_peer, ConfCtx.empty.
  rewrite (bool_decide_eq_false_2 _ Hctx). cbn [negb].
  destruct (bool_decide (_state n = LEADER)); cbn [negb].
  - exists EINVAL. split; [discriminate | reflexivity].
  - exists EPERM. split; [discriminate | reflexivity].
Qed.

(** The same for [remove_peer], with EAGAIN on a leader. *)
Lemma remove_peer_conf_change_in_flight n old_peers peer done :
  _conf_ctx n <> [] ->
  exists e, e <> 0
    /\ remove_peer n old_peers peer done
       = set_fsm_caller n (_fsm_caller n ++ [on_cleared 0 done e]).
Proof.
  intros Hctx. unfold remove_peer, ConfCtx.empty.
  rewrite (bool_decide_eq_false_2 _ Hctx). cbn [negb].
  destruct (bool_decide (_state n = LEADER)); cbn [negb].
  - exists EAGAIN. split; [discriminate | reflexivity].
  - exists EPERM. split; [discriminate | reflexivity].
Qed.

(** [set_peer] on a leader with a change in flight returns EINVAL and changes
    nothing, provided the call is not taken for a bootstrap. *)
Lemma set_peer_conf_change_in_flight n old_peers new_peers :
  _state n = LEADER ->
  _conf_ctx n <> [] ->
  Conf.empty (_conf n).2 && (vec_size old_peers =? 0) = false ->
  set_peer n old_peers new_peers = (EINVAL, n).
Proof.
  intros Hl Hctx Hboot. unfold set_peer, ConfCtx.empty.
  rewrite Hboot, Hl, (bool_decide_eq_false_2 _ Hctx). reflexivity.
Qed.

(** C8 (no configuration change starts while one is in flight), refuted on
    the bootstrap branch of [set_peer], which is tested before [_conf_ctx]:
    the leader of the one-member group {A} removes itself; until that entry
    commits it is a leader with an empty configuration and [_conf_ctx] = [A];
    [set_peer([], [B])] then returns 0, installs {B} and steps down into
    term 1. *)
Theorem set_peer_bootstrap_during_conf_change :
  let n := remove_peer (Sample.lone_leader 4) [Sample.pA] Sample.pA (Some 7%nat) in
  let r := set_peer n [] [Sample.pB] in
  _state n = LEADER /\ _conf_ctx n = [Sample.pA] /\ (_conf n).2 = ∅
  /\ r.1 = 0 /\ (_conf r.2).2 = {[Sample.pB]} /\ _state r.2 = FOLLOWER
  /\ _conf_ctx r.2 = [] /\ _current_term r.2 = 1.
Proof. vm_compute. repeat split. Qed.

(** ** The log manager's truncations *)

Lemma first_le_last (lm : LogManager) :
  LogMgr.first_log_index lm <= LogMgr.last_log_index lm + 1.
Proof. unfold LogMgr.first_log_index, LogMgr.last_log_index. lia. Qed.

Lemma truncate_prefix_spec lm cm k lm' cm' :
  LogMgr.truncate_prefix lm cm k = (lm', cm') ->
  lm_first_log_index lm' = Z.max (lm_first_log_index lm) k
  /\ lm_logs lm' = drop (Z.to_nat (k - lm_first_log_index lm)) (lm_logs lm).
Proof.
  unfold LogMgr.truncate_prefix.
  destruct (Z.leb_spec k (lm_first_log_index lm)); intros [= <- <-].
  - replace (Z.to_nat (k - lm_first_log_index lm)) with 0%nat by lia.
    split; [lia | reflexivity].
  - cbn. split; [lia | reflexivity].
Qed.

Lemma truncate_suffix_spec lm cm k lm' cm' :
  LogMgr.truncate_suffix lm cm k = (lm', cm') ->
  lm_first_log_index lm' = lm_first_log_index lm
  /\ lm_logs lm' = take (Z.to_nat (k + 1 - lm_first_log_index lm)) (lm_logs lm).
Proof.
  unfold LogMgr.truncate_suffix, LogMgr.last_log_index.
  destruct (Z.leb_spec (lm_first_log_index lm + Z.of_nat (length (lm_logs lm)) - 1) k);
    intros [= <- <-].
  - split; [reflexivity |]. rewrite take_ge; [reflexivity | lia].
  - cbn. split; reflexivity.
Qed.

(** ** Snapshot load *)



(** The call made inside [init], from [init_snapshot_storage], does not
    complete: the commit manager is created later. *)
Lemma on_snapshot_load_done_at_init n :
  on_snapshot_load_done_at loading_at_init n = None.
Proof.
  unfold on_snapshot_load_done_at. destruct (negb _); reflexivity.
Qed.



(** ** AppendEntries: what the entry loop and the batch append leave alone *)

Lemma log_frame_refl n : log_frame n n.
Proof. by split. Qed.

Lemma log_frame_trans n1 n2 n3 :
  log_frame n1 n2 -> log_frame n2 n3 -> log_frame n1 n3.
Proof. intros [] []. split; congruence. Qed.

Lemma log_frame_set n lm cm conf :
  log_frame n (set_conf (set_config_manager (set_log_manager n lm) cm) conf).
Proof. by split. Qed.

(** Case analysis along a handler, binds included, without touching the
    final equation. *)
Ltac split_handler H :=
  repeat match type of H with
    | (_ ≫= _) = Some _ =>
        let Hm := fresh "Hbind" in
        apply bind_Some in H; destruct H as (? & Hm & H)
    | context [match ?x with _ => _ end] => case_inner x
    end.

Lemma append_entries_loop_frame parse metas :
  forall index n buf acc n' buf' batch,
    append_entries_loop parse metas index n buf acc = Some (n', buf', batch) ->
    log_frame n n'.
Proof.
  induction metas as [| entry metas IH]; intros index n buf acc n' buf' batch H.
  - cbn in H. injection H as <- _ _. apply log_frame_refl.
  - cbn [append_entries_loop] in H. split_handler H;
      try discriminate H; apply IH in H;
      try assumption;
      (eapply log_frame_trans; [| exact H]); apply log_frame_set.
Qed.

Lemma append_batch_frame n entries : log_frame n (append_batch n entries).2.
Proof.
  unfold append_batch, LogMgr.append_entries.
  destruct (vec_size entries =? 0); [apply log_frame_refl |].
  destruct (foldl LogMgr.push _ _) as [lm cm]. cbn [Z.eqb snd].
  apply log_frame_set.
Qed.

(** C10: whenever the handler answers (it returns 0), the reply carries the
    node's term and last log index as they are after the call; a reply with
    [success = false] leaves [_last_leader_timestamp] and the committed index
    of the commit manager as they were; a reply with [success = true] sets the
    timestamp to the current time and advances the committed index to the
    request's (the commit manager never moves it back). *)
Theorem append_entries_reply parse n now buf request response
    ret n' buf' response' :
  handle_append_entries_request parse n now buf request response
  = Some (ret, n', buf', response') ->
  ret = 0 ->
  aer_term response' = _current_term n'
  /\ aer_last_log_index response' = LogMgr.last_log_index (_log_manager n')
  /\ (aer_success response' = false ->
      _last_leader_timestamp n' = _last_leader_timestamp n
      /\ last_committed_index (_commit_manager n')
         = last_committed_index (_commit_manager n))
  /\ (aer_success response' = true ->
      _last_leader_timestamp n' = now
      /\ last_committed_index (_commit_manager n')
         = Z.max (last_committed_index (_commit_manager n))
             (ae_committed_index request)).
Proof.
  unfold handle_append_entries_request, append_entries_do.
  forget_step_down. intros H Hret.
  destruct (parse (ae_server_id request)) as [server_id |];
    [| injection H as <- _ _ _; discriminate Hret].
  apply bind_Some in H as ([[success n1] buf1] & Hbody & H).
  injection H as _ <- _ <-. cbn [aer_term aer_success aer_last_log_index].
  assert (Hframe : _last_leader_timestamp n1 = _last_leader_timestamp n
                   /\ last_committed_index (_commit_manager n1)
                      = last_committed_index (_commit_manager n)).
  { destruct Hsd.
    split_handler Hbody; try discriminate Hbody;
      try (injection Hbody as _ <- _; node_simpl; split; congruence).
    all: injection Hbody as _ <- _;
      match goal with
      | Hl : append_entries_loop _ _ _ _ _ _ = Some _ |- _ =>
          apply append_entries_loop_frame in Hl; destruct Hl
      end;
      match goal with
      | |- context [append_batch ?a ?b] =>
          destruct (append_batch_frame a b)
      end; node_simpl; split; congruence. }
  destruct Hframe as [Ht Hc].
  destruct success; node_simpl;
    cbn [last_committed_index CommitMgr.set_last_committed_index];
    repeat split; try discriminate; congruence.
Qed.

Lemma append_entries_reply_witness :
  let n := Sample.follower 3 [Sample.pA; Sample.pB] 1 [] in
  let request := mkAppendEntriesRequest "B" 3 0 0 [] 7 in
  exists n' response',
    handle_append_entries_request Sample.parse n 50 [] request
      Sample.append_response0 = Some (0, n', [], response')
    /\ aer_success response' = true
    /\ aer_term response' = _current_term n'
    /\ _last_leader_timestamp n' = 50
    /\ last_committed_index (_commit_manager n') = 7.
Proof.
  intros n request.
  destruct (handle_append_entries_request Sample.parse n 50 [] request
              Sample.append_response0) as [[[[ret n'] buf'] response'] |] eqn:H;
    [| vm_compute in H; discriminate H].
  assert (Hret : ret = 0) by (vm_compute in H; injection H as <- _ _ _; reflexivity).
  destruct (append_entries_reply Sample.parse n 50 [] request
              Sample.append_response0 ret n' buf' response' H Hret)
    as (Ht & _ & _ & Hs).
  assert (Hsucc : aer_success response' = true)
    by (vm_compute in H; injection H as _ _ _ <-; reflexivity).
  destruct (Hs Hsucc) as [Hts Hci].
  assert (Hbuf : buf' = [])
    by (vm_compute in H; injection H as _ _ <- _; reflexivity).
  subst ret buf'. exists n', response'.
  split; [reflexivity |]. split; [exact Hsucc |]. split; [exact Ht |].
  split; [exact Hts | rewrite Hci; reflexivity].
Defined.

(** The log checks read the log through its first index and its entries. *)
Lemma log_mismatch_ext lm1 lm2 request :
  lm_first_log_index lm1 = lm_first_log_index lm2 ->
  lm_logs lm1 = lm_logs lm2 ->
  log_mismatch lm1 request <-> log_mismatch lm2 request.
Proof.
  intros Hf Hl.
  unfold log_mismatch, LogMgr.get_term, LogMgr.last_log_index,
    LogMgr.first_log_index.
  rewrite Hf, Hl. reflexivity.
Qed.

(** The three ways to a reply with [success = false], and no other. *)
Lemma append_entries_do_success parse n server_id buf request success n' buf' :
  append_entries_do parse n server_id buf request = Some (success, n', buf') ->
  success = false <->
  ae_term request < _current_term n \/ log_mismatch (_log_manager n) request.
Proof.
  unfold append_entries_do. forget_step_down. intros H.
  destruct (Z.ltb_spec (ae_term request) (_current_term n)) as [Hstale | Hterm].
  { injection H as <- _ _. tauto. }
  match type of H with
  | (CHECK (is_null (_loading_snapshot_meta ?m)) ;; _) = _ => set (na := m) in *
  end.
  assert (Hview : log_mismatch (_log_manager na) request
                  <-> log_mismatch (_log_manager n) request).
  { subst na. destruct Hsd.
    repeat match goal with
      | |- context [if ?b then _ else _] => destruct b
      end; node_simpl; try reflexivity;
      apply log_mismatch_ext; assumption. }
  clearbody na. clear Hsd sd. rewrite <- Hview. clear Hview.
  apply CHECK_Some in H as [_ H]. unfold log_mismatch.
  destruct (Z.ltb_spec (LogMgr.last_log_index (_log_manager na))
              (ae_prev_log_index request)).
  { injection H as <- _ _. split; [intros _; right; left; assumption | reflexivity]. }
  destruct (Z.leb_spec (LogMgr.first_log_index (_log_manager na))
              (ae_prev_log_index request)); cbn [andb] in H.
  - destruct (Z.eqb_spec (LogMgr.get_term (_log_manager na)
                            (ae_prev_log_index request))
                (ae_prev_log_term request)); cbn [negb] in H.
    + apply bind_Some in H as ([[? ?] ?] & _ & H). injection H as <- _ _.
      split; [discriminate |]. intros [? | [? | [_ ?]]]; [lia | lia | contradiction].
    + injection H as <- _ _. split; [| reflexivity]. intros _. right. right. auto.
  - apply bind_Some in H as ([[? ?] ?] & _ & H). injection H as <- _ _.
    split; [discriminate |]. intros [? | [? | [? _]]]; lia.
Qed.

(** ** AppendEntries: entries that the log already has *)

Lemma get_term_lookup lm index :
  LogMgr.first_log_index lm <= index <= LogMgr.last_log_index lm ->
  LogMgr.get_term lm index
  = match lm_logs lm !! Z.to_nat (index - lm_first_log_index lm) with
    | Some e => entry_term e
    | None => 0
    end.
Proof.
  unfold LogMgr.get_term, LogMgr.first_log_index. intros [H1 H2].
  destruct (Z.leb_spec (lm_first_log_index lm) index); [| lia].
  destruct (Z.leb_spec index (LogMgr.last_log_index lm)); [| lia].
  reflexivity.
Qed.

Section Push.
Variables (st : LogManager * ConfigurationManager) (e : LogEntry).

Lemma push_first :
  LogMgr.first_log_index (LogMgr.push st e).1 = LogMgr.first_log_index st.1.
Proof. destruct st. reflexivity. Qed.

Lemma push_last :
  LogMgr.last_log_index (LogMgr.push st e).1 = LogMgr.last_log_index st.1 + 1.
Proof.
  destruct st as [lm cm]. unfold LogMgr.push, LogMgr.last_log_index.
  cbn [fst LogMgr.with_logs lm_first_log_index lm_logs].
  rewrite length_app. cbn [length]. lia.
Qed.

Lemma push_get_term_old index :
  index <= LogMgr.last_log_index st.1 ->
  LogMgr.get_term (LogMgr.push st e).1 index = LogMgr.get_term st.1 index.
Proof.
  intros Hle. pose proof push_last as Hl. pose proof push_first as Hf.
  unfold LogMgr.get_term at 1. unfold LogMgr.first_log_index in Hf.
  rewrite Hl, Hf.
  unfold LogMgr.get_term.
  destruct (Z.leb_spec (lm_first_log_index st.1) index); cbn [andb]; [| reflexivity].
  destruct (Z.leb_spec index (LogMgr.last_log_index st.1)); [| lia].
  destruct (Z.leb_spec index (LogMgr.last_log_index st.1 + 1)); [| lia].
  destruct st as [lm cm]. cbn [fst] in *. unfold LogMgr.push.
  cbn [fst LogMgr.with_logs lm_first_log_index lm_logs].
  rewrite lookup_app_l; [reflexivity |].
  unfold LogMgr.last_log_index in *. lia.
Qed.

Lemma push_get_term_new :
  LogMgr.get_term (LogMgr.push st e).1 (LogMgr.last_log_index st.1 + 1)
  = entry_term e.
Proof.
  pose proof push_last as Hl. pose proof push_first as Hf.
  rewrite get_term_lookup.
  - destruct st as [lm cm]. cbn [fst] in *. unfold LogMgr.push.
    cbn [fst LogMgr.with_logs lm_first_log_index lm_logs].
    unfold LogMgr.last_log_index.
    replace (Z.to_nat _) with (length (lm_logs lm) + 0)%nat by lia.
    rewrite lookup_app_r by lia.
    replace (_ - _)%nat with 0%nat by lia. reflexivity.
  - rewrite Hl, Hf. unfold LogMgr.first_log_index, LogMgr.last_log_index. lia.
Qed.

Lemma present_push index term :
  present st.1 index term -> present (LogMgr.push st e).1 index term.
Proof.
  unfold present. rewrite push_first, push_last.
  intros [H | [H1 H2]]; [left; assumption | right].
  rewrite push_get_term_old by assumption. split; [lia | assumption].
Qed.

Lemma present_push_new :
  present (LogMgr.push st e).1 (LogMgr.last_log_index st.1 + 1) (entry_term e).
Proof.
  right. rewrite push_last, push_get_term_new. split; [lia | reflexivity].
Qed.

End Push.

Section TruncateSuffix.
Variables (lm : LogManager) (cm : ConfigurationManager) (k : Z).
Hypothesis Hk : LogMgr.first_log_index lm - 1 <= k.

Lemma truncate_suffix_first :
  LogMgr.first_log_index (LogMgr.truncate_suffix lm cm k).1
  = LogMgr.first_log_index lm.
Proof.
  unfold LogMgr.truncate_suffix. by destruct (_ <=? _).
Qed.

Lemma truncate_suffix_last :
  k <= LogMgr.last_log_index lm ->
  LogMgr.last_log_index (LogMgr.truncate_suffix lm cm k).1 = k.
Proof.
  intros Hle. unfold LogMgr.truncate_suffix.
  destruct (Z.leb_spec (LogMgr.last_log_index lm) k); cbn [fst]; [lia |].
  unfold LogMgr.last_log_index, LogMgr.first_log_index in *.
  cbn [LogMgr.with_logs lm_first_log_index lm_logs].
  rewrite length_take. lia.
Qed.

Lemma truncate_suffix_get_term index :
  index <= k ->
  LogMgr.get_term (LogMgr.truncate_suffix lm cm k).1 index
  = LogMgr.get_term lm index.
Proof.
  intros Hle. unfold LogMgr.truncate_suffix.
  destruct (Z.leb_spec (LogMgr.last_log_index lm) k); cbn [fst];
    [reflexivity |].
  unfold LogMgr.get_term, LogMgr.last_log_index, LogMgr.first_log_index in *.
  cbn [LogMgr.with_logs lm_first_log_index lm_logs].
  rewrite length_take.
  destruct (Z.leb_spec (lm_first_log_index lm) index); cbn [andb];
    [| reflexivity].
  destruct (Z.leb_spec index
              (lm_first_log_index lm + Z.of_nat (length (lm_logs lm)) - 1));
    [| lia].
  destruct (Z.leb_spec index
              (lm_first_log_index lm
               + Z.of_nat (Z.to_nat (k + 1 - lm_first_log_index lm)
                           `min` length (lm_logs lm)) - 1)); [| lia].
  rewrite lookup_take_lt by lia. reflexivity.
Qed.

Lemma present_truncate_suffix index term :
  index <= k -> present lm index term ->
  present (LogMgr.truncate_suffix lm cm k).1 index term.
Proof.
  unfold present. rewrite truncate_suffix_first. intros Hle [H | [H1 H2]];
    [left; assumption | right].
  rewrite truncate_suffix_get_term by assumption. split; [| assumption].
  unfold LogMgr.truncate_suffix.
  destruct (Z.leb_spec (LogMgr.last_log_index lm) k); cbn [fst];
    [assumption |].
  fold (LogMgr.truncate_suffix lm cm k).
  pose proof truncate_suffix_last as Hl.
  unfold LogMgr.truncate_suffix in Hl.
  destruct (Z.leb_spec (LogMgr.last_log_index lm) k); [lia |].
  cbn [fst] in Hl. rewrite Hl; lia.
Qed.

End TruncateSuffix.

Lemma foldl_push_first acc : forall st,
  LogMgr.first_log_index (foldl LogMgr.push st acc).1
  = LogMgr.first_log_index st.1.
Proof.
  induction acc as [| e acc IH]; intros st; [reflexivity |].
  cbn [foldl]. rewrite IH. apply push_first.
Qed.

Lemma foldl_push_last acc : forall st,
  LogMgr.last_log_index (foldl LogMgr.push st acc).1
  = LogMgr.last_log_index st.1 + Z.of_nat (length acc).
Proof.
  induction acc as [| e acc IH]; intros st; [cbn; lia |].
  cbn [foldl length]. rewrite IH, push_last. lia.
Qed.

Lemma vlog_first n acc :
  LogMgr.first_log_index (vlog n acc) = LogMgr.first_log_index (_log_manager n).
Proof. apply foldl_push_first. Qed.

Lemma vlog_last n acc :
  LogMgr.last_log_index (vlog n acc)
  = LogMgr.last_log_index (_log_manager n) + Z.of_nat (length acc).
Proof. apply foldl_push_last. Qed.

Lemma vlog_snoc n acc e :
  vlog n (acc ++ [e])
  = (LogMgr.push (foldl LogMgr.push (_log_manager n, _config_manager n) acc) e).1.
Proof. unfold vlog. rewrite foldl_app. reflexivity. Qed.

(** Entries that are all present are all skipped: the loop changes nothing. *)
Lemma append_entries_loop_all_present parse metas :
  forall index n buf acc,
    Int64.min_signed <= index ->
    index + Z.of_nat (length metas) <= Int64.max_signed ->
    all_present (_log_manager n) index metas ->
    append_entries_loop parse metas index n buf acc = Some (n, buf, acc).
Proof.
  induction metas as [| entry metas IH]; intros index n buf acc Hlo Hhi Hall;
    [reflexivity |].
  cbn [length] in Hhi. destruct Hall as [Hp Hall].
  cbn [append_entries_loop].
  rewrite Int64_add_in_range by (unfold Int64.in_range; lia).
  assert (Hnext : append_entries_loop parse metas (index + 1) n buf acc
                  = Some (n, buf, acc)) by (apply IH; [lia | lia | assumption]).
  destruct (Z.ltb_spec (index + 1) (LogMgr.first_log_index (_log_manager n)));
    [exact Hnext |].
  destruct Hp as [Hp | [Hle Hterm]]; [lia |].
  destruct (Z.leb_spec (index + 1) (LogMgr.last_log_index (_log_manager n)));
    [| lia].
  rewrite Hterm, Z.eqb_refl. exact Hnext.
Qed.

(** One delivery makes every entry of the request present in the log that
    the batch append will produce, and keeps present what was present at or
    below the starting index.  Entries of unknown type are excluded: the loop
    drops them, and the entries after them land one index too low. *)
Lemma append_entries_loop_present parse metas :
  forall index n buf acc n' buf' batch,
    append_entries_loop parse metas index n buf acc = Some (n', buf', batch) ->
    Forall (fun entry => em_type entry <> ENTRY_TYPE_UNKNOWN) metas ->
    Int64.min_signed <= index ->
    index + Z.of_nat (length metas) <= Int64.max_signed ->
    index <= LogMgr.last_log_index (vlog n acc) ->
    (acc <> [] -> index = LogMgr.last_log_index (vlog n acc)) ->
    LogMgr.first_log_index (vlog n' batch)
    = LogMgr.first_log_index (vlog n acc)
    /\ index <= LogMgr.last_log_index (vlog n' batch)
    /\ (forall i t, i <= index ->
          present (vlog n acc) i t -> present (vlog n' batch) i t)
    /\ all_present (vlog n' batch) index metas.
Proof.
  induction metas as [| entry metas IH];
    intros index n buf acc n' buf' batch H Hknown Hlo Hhi Hlast Hacc.
  { cbn in H. injection H as <- _ <-. cbn [all_present]. auto. }
  cbn [length] in Hhi. apply Forall_cons in Hknown as [Hty Hknown].
  cbn [append_entries_loop] in H.
  rewrite Int64_add_in_range in H by (unfold Int64.in_range; lia).
  rewrite Int64_sub_in_range in H by (unfold Int64.in_range; lia).
  replace (index + 1 - 1) with index in H by lia.
  pose proof (first_le_last (_log_manager n)) as Hfl.
  pose proof (vlog_last n acc) as Hvl. pose proof (vlog_first n acc) as Hvf.
  assert (Hempty : index + 1 <= LogMgr.last_log_index (_log_manager n) ->
                   acc = []).
  { intros Hle. destruct acc as [| a acc]; [reflexivity |].
    specialize (Hacc ltac:(discriminate)). cbn [length] in Hvl. lia. }
  (* an entry that is skipped *)
  assert (Hskip :
    present (vlog n acc) (index + 1) (em_term entry) ->
    index + 1 <= LogMgr.last_log_index (_log_manager n) ->
    append_entries_loop parse metas (index + 1) n buf acc
    = Some (n', buf', batch) ->
    LogMgr.first_log_index (vlog n' batch)
    = LogMgr.first_log_index (vlog n acc)
    /\ index <= LogMgr.last_log_index (vlog n' batch)
    /\ (forall i t, i <= index ->
          present (vlog n acc) i t -> present (vlog n' batch) i t)
    /\ all_present (vlog n' batch) index (entry :: metas)).
  { intros Hp Hle Hrec.
    apply IH in Hrec as (Hf & Hl & Hkeep & Hall);
      [| assumption | lia | lia | lia
       | intros Hne; specialize (Hempty Hle); contradiction].
    split; [assumption |]. split; [lia |]. split.
    - intros i t Hi. apply Hkeep. lia.
    - split; [apply Hkeep; [lia | assumption] | assumption]. }
  destruct (Z.ltb_spec (index + 1) (LogMgr.first_log_index (_log_manager n))).
  { apply Hskip; [left; rewrite Hvf; assumption | lia | assumption]. }
  destruct (Z.leb_spec (index + 1) (LogMgr.last_log_index (_log_manager n)))
    as [Hin | Hout]; cbn [andb] in H.
  - (* the index is in the log *)
    destruct (Z.eqb_spec (LogMgr.get_term (_log_manager n) (index + 1))
                (em_term entry)) as [Hterm | Hterm].
    { apply Hskip; [| assumption | assumption].
      rewrite (Hempty Hin). right. split; assumption. }
    specialize (Hempty Hin). subst acc.
    rewrite (bool_decide_eq_false_2 _ Hty) in H. cbn [negb] in H.
    destruct (LogMgr.truncate_suffix _ _ index) as [lm1 cm1] eqn:Etr.
    apply bind_Some in H as (peers & _ & H).
    destruct (match em_data_len entry with
              | Some _ => _ | None => _ end) as [buf1 data].
    apply IH in H as (Hf & Hl & Hkeep & Hall); [| assumption | lia | lia | |].
    + assert (E1 : lm1 = (LogMgr.truncate_suffix (_log_manager n)
                            (_config_manager n) index).1)
        by (rewrite Etr; reflexivity).
      rewrite vlog_snoc in Hf, Hkeep.
      node_simpl. cbn [foldl] in *.
      rewrite push_first in Hf. cbn [fst] in Hf.
      split; [| split; [lia | split]].
      * rewrite Hf, E1. apply truncate_suffix_first.
      * intros i t Hi Hp. apply Hkeep; [lia |]. apply present_push. cbn [fst].
        rewrite E1. apply present_truncate_suffix; [lia | assumption |].
        exact Hp.
      * split; [| assumption]. apply Hkeep; [lia |].
        replace (index + 1) with (LogMgr.last_log_index (lm1, cm1).1 + 1).
        -- apply (present_push_new (lm1, cm1)).
        -- cbn [fst]. rewrite E1, truncate_suffix_last; lia.
    + rewrite vlog_snoc, push_last. node_simpl. cbn [foldl fst].
      replace lm1 with (LogMgr.truncate_suffix (_log_manager n)
                          (_config_manager n) index).1
        by (rewrite Etr; reflexivity).
      rewrite truncate_suffix_last; lia.
    + intros _. rewrite vlog_snoc, push_last. node_simpl. cbn [foldl fst].
      replace lm1 with (LogMgr.truncate_suffix (_log_manager n)
                          (_config_manager n) index).1
        by (rewrite Etr; reflexivity).
      rewrite truncate_suffix_last; lia.
  - (* the index is the next one after the log and the batch *)
    rewrite (bool_decide_eq_false_2 _ Hty) in H. cbn [negb] in H.
    apply bind_Some in H as (peers & _ & H).
    destruct (match em_data_len entry with
              | Some _ => _ | None => _ end) as [buf1 data].
    assert (Hidx : index = LogMgr.last_log_index (vlog n acc)).
    { destruct acc as [| a acc]; [| apply Hacc; discriminate].
      cbn [length] in Hvl. lia. }
    apply IH in H as (Hf & Hl & Hkeep & Hall); [| assumption | lia | lia | |].
    + rewrite vlog_snoc in Hf, Hkeep.
      rewrite push_first in Hf.
      split; [exact Hf |]. split; [lia |]. split.
      * intros i t Hi Hp. apply Hkeep; [lia |]. apply present_push. exact Hp.
      * split; [| assumption]. apply Hkeep; [lia |].
        rewrite Hidx at 1. apply present_push_new.
    + rewrite vlog_snoc, push_last. fold (vlog n acc). lia.
    + intros _. rewrite vlog_snoc, push_last. fold (vlog n acc). lia.
Qed.

Lemma append_batch_log_manager n batch :
  _log_manager (append_batch n batch).2 = vlog n batch.
Proof.
  unfold append_batch, vlog, LogMgr.append_entries, vec_size.
  destruct batch as [| e batch]; [reflexivity |].
  cbn [length]. destruct (Z.eqb_spec (Z.of_nat (S (length batch))) 0); [lia |].
  destruct (foldl LogMgr.push _ (e :: batch)) as [lm cm]. reflexivity.
Qed.

(** What one delivery leaves behind. *)
Lemma append_entries_do_first parse n server_id buf request success n' buf' :
  append_entries_do parse n server_id buf request = Some (success, n', buf') ->
  Forall (fun entry => em_type entry <> ENTRY_TYPE_UNKNOWN) (ae_entries request) ->
  Int64.min_signed <= ae_prev_log_index request ->
  ae_prev_log_index request + Z.of_nat (length (ae_entries request))
  <= Int64.max_signed ->
  (ae_term request < _current_term n /\ success = false /\ n' = n)
  \/ (settled n' request
      /\ if success then log_up_to_date (_log_manager n') request
         else log_mismatch (_log_manager n') request).
Proof.
  unfold append_entries_do. forget_step_down. intros H Hknown Hlo Hhi.
  destruct (Z.ltb_spec (ae_term request) (_current_term n)) as [Hstale | Hterm].
  { left. injection H as <- <- _. auto. }
  right.
  (* the node after the term check and the adoption of the leader *)
  match type of H with
  | (CHECK (is_null (_loading_snapshot_meta ?m)) ;; _) = _ => set (na := m) in *
  end.
  assert (Hsettled : _current_term na = ae_term request /\ _state na = FOLLOWER).
  { subst na. destruct Hsd.
    destruct (Z.ltb_spec (_current_term n) (ae_term request)); cbn [orb].
    - destruct (is_empty (_leader_id sd)); node_simpl; auto.
    - destruct (decide (_state n = FOLLOWER)) as [Hf | Hf];
        [rewrite (bool_decide_eq_true_2 _ Hf)
        | rewrite (bool_decide_eq_false_2 _ Hf)]; cbn [negb].
      + destruct (is_empty (_leader_id n)); node_simpl; split; auto; lia.
      + destruct (is_empty (_leader_id sd)); node_simpl; auto. }
  clearbody na. clear Hsd sd. destruct Hsettled as [Hct Hst].
  apply CHECK_Some in H as [Hnull H].
  destruct (Z.ltb_spec (LogMgr.last_log_index (_log_manager na))
              (ae_prev_log_index request)) as [Hgap | Hnogap].
  { injection H as <- <- _. split; [repeat split; assumption |].
    left. assumption. }
  destruct (Z.leb_spec (LogMgr.first_log_index (_log_manager na))
              (ae_prev_log_index request)) as [Hin | Hbelow]; cbn [andb] in H.
  - destruct (Z.eqb_spec (LogMgr.get_term (_log_manager na)
                            (ae_prev_log_index request))
                (ae_prev_log_term request)) as [Hprev | Hprev]; cbn [negb] in H.
    2: { injection H as <- <- _. split; [repeat split; assumption |].
         right. split; assumption. }
    apply bind_Some in H as ([[nb bufb] batch] & Hloop & H).
    injection H as <- <- _.
    pose proof (append_entries_loop_frame _ _ _ _ _ _ _ _ _ Hloop) as [].
    destruct (append_batch_frame nb batch).
    apply append_entries_loop_present in Hloop
      as (Hf & Hl & Hkeep & Hall); [| assumption | lia | lia | exact Hnogap
                                    | intros Hne; contradiction].
    split; [unfold settled; repeat split; congruence |].
    rewrite append_batch_log_manager.
    split; [exact Hl |]. split; [| exact Hall].
    apply Hkeep; [lia |]. right. split; assumption.
  - apply bind_Some in H as ([[nb bufb] batch] & Hloop & H).
    injection H as <- <- _.
    pose proof (append_entries_loop_frame _ _ _ _ _ _ _ _ _ Hloop) as [].
    destruct (append_batch_frame nb batch).
    apply append_entries_loop_present in Hloop
      as (Hf & Hl & Hkeep & Hall); [| assumption | lia | lia | exact Hnogap
                                    | intros Hne; contradiction].
    split; [unfold settled; repeat split; congruence |].
    rewrite append_batch_log_manager.
    split; [exact Hl |]. split; [| exact Hall].
    apply Hkeep; [lia |]. left. assumption.
Qed.

(** Delivering to a settled node: nothing but the leader is touched, and the
    flag says which of the two log situations holds. *)
Lemma append_entries_do_settled parse n server_id buf request :
  settled n request ->
  Int64.min_signed <= ae_prev_log_index request ->
  ae_prev_log_index request + Z.of_nat (length (ae_entries request))
  <= Int64.max_signed ->
  let n' := if is_empty (_leader_id n) then set_leader_id n server_id else n in
  (log_mismatch (_log_manager n) request ->
   append_entries_do parse n server_id buf request = Some (false, n', buf))
  /\ (log_up_to_date (_log_manager n) request ->
      append_entries_do parse n server_id buf request = Some (true, n', buf)).
Proof.
  intros (Hct & Hst & Hnull) Hlo Hhi n'. unfold append_entries_do.
  forget_step_down. clear Hsd.
  rewrite Hct, Hst, Z.ltb_irrefl. cbn [orb negb].
  rewrite bool_decide_eq_true_2 by reflexivity. cbn [negb].
  fold n'.
  assert (Hlm : _log_manager n' = _log_manager n)
    by (subst n'; destruct (is_empty _); reflexivity).
  assert (Hmeta : _loading_snapshot_meta n' = _loading_snapshot_meta n)
    by (subst n'; destruct (is_empty _); reflexivity).
  clearbody n'. rewrite Hmeta, Hnull, Hlm. cbn [CHECK mbind option_bind].
  split.
  - intros [Hgap | [Hin Hprev]].
    + destruct (Z.ltb_spec (LogMgr.last_log_index (_log_manager n))
                  (ae_prev_log_index request)); [reflexivity | lia].
    + destruct (Z.ltb_spec (LogMgr.last_log_index (_log_manager n))
                  (ae_prev_log_index request)); [reflexivity |].
      destruct (Z.leb_spec (LogMgr.first_log_index (_log_manager n))
                  (ae_prev_log_index request)); [| lia].
      destruct (Z.eqb_spec (LogMgr.get_term (_log_manager n)
                              (ae_prev_log_index request))
                  (ae_prev_log_term request)); [contradiction | reflexivity].
  - intros (Hle & Hprev & Hall).
    destruct (Z.ltb_spec (LogMgr.last_log_index (_log_manager n))
                (ae_prev_log_index request)); [lia |].
    assert (Hcheck :
      (LogMgr.first_log_index (_log_manager n) <=? ae_prev_log_index request)
      && negb (LogMgr.get_term (_log_manager n) (ae_prev_log_index request)
               =? ae_prev_log_term request) = false).
    { destruct (Z.leb_spec (LogMgr.first_log_index (_log_manager n))
                  (ae_prev_log_index request)); [| reflexivity].
      destruct Hprev as [Hprev | [_ Hprev]]; [lia |].
      rewrite Hprev, Z.eqb_refl. reflexivity. }
    rewrite Hcheck.
    rewrite (append_entries_loop_all_present parse _ _ n' buf [] Hlo Hhi)
      by (rewrite Hlm; exact Hall).
    reflexivity.
Qed.

(** C9, counterexample: a request whose first entry has type
    [ENTRY_TYPE_UNKNOWN].  The loop drops that entry, the data entry after it
    is stored at index 1 instead of 2, and the second delivery, which finds
    index 1 taken and index 2 free, appends the data entry once more. *)
Lemma redelivery_unknown_entry_counterexample :
  ~ redelivery_idempotent Sample.parse
      (Sample.follower 5 [Sample.pA; Sample.pB] 1 []) 100 []
      (mkAppendEntriesRequest "B" 5 0 0
         [mkEntryMeta 5 ENTRY_TYPE_UNKNOWN [] None;
          mkEntryMeta 5 ENTRY_TYPE_DATA [] None] 0).
Proof.
  intros H.
  destruct (H Sample.append_response0 _ _ _ _ eq_refl)
    as (n2 & buf2 & r2 & Heq & Hlog & _).
  vm_compute in Heq. injection Heq as <- _ _. vm_compute in Hlog.
  discriminate Hlog.
Qed.

(** C9, amended: for a request without entries of unknown type (and whose
    indices stay within [int64_t]), a second delivery right after the first
    returns the same code, leaves the log manager as the first delivery left
    it, and answers with the same flag, term and last log index. *)
Theorem append_entries_redelivery parse n now now' buf request response
    ret n1 buf1 r1 :
  Forall (fun entry => em_type entry <> ENTRY_TYPE_UNKNOWN) (ae_entries request) ->
  Int64.min_signed <= ae_prev_log_index request ->
  ae_prev_log_index request + Z.of_nat (length (ae_entries request))
  <= Int64.max_signed ->
  handle_append_entries_request parse n now buf request response
  = Some (ret, n1, buf1, r1) ->
  exists n2 r2,
    handle_append_entries_request parse n1 now' buf request response
    = Some (ret, n2, buf, r2)
    /\ _log_manager n2 = _log_manager n1
    /\ aer_success r2 = aer_success r1
    /\ aer_term r2 = aer_term r1
    /\ aer_last_log_index r2 = aer_last_log_index r1.
Proof.
  intros Hknown Hlo Hhi H. unfold handle_append_entries_request in *.
  destruct (parse (ae_server_id request)) as [server_id |].
  2: { injection H as <- <- <- <-. eauto 10. }
  apply bind_Some in H as ([[success nc] bufc] & Hdo & H).
  injection H as <- <- _ <-.
  destruct (append_entries_do_first _ _ _ _ _ _ _ _ Hdo Hknown Hlo Hhi)
    as [(Hstale & -> & ->) | [(Hct & Hst & Hnull) Hlog]].
  - (* a stale request is ignored both times *)
    unfold append_entries_do in *.
    destruct (Z.ltb_spec (ae_term request) (_current_term n)); [| lia].
    cbn [mbind option_bind]. eauto 10.
  - set (n1 := if success then _ else nc).
    assert (Hlm : _log_manager n1 = _log_manager nc)
      by (subst n1; destruct success; reflexivity).
    assert (Hsettled : settled n1 request)
      by (subst n1; destruct success; repeat split; assumption).
    assert (Hterm : _current_term n1 = _current_term nc)
      by (subst n1; destruct success; reflexivity).
    clearbody n1.
    destruct (append_entries_do_settled parse n1 server_id buf request
                Hsettled Hlo Hhi) as [Hno Hyes].
    rewrite <- Hlm in Hlog. rewrite <- Hterm, <- Hlm.
    destruct success.
    + rewrite (Hyes Hlog). cbn [mbind option_bind].
      eexists _, _. split; [reflexivity |].
      destruct (is_empty (_leader_id n1)); node_simpl; auto.
    + rewrite (Hno Hlog). cbn [mbind option_bind].
      eexists _, _. split; [reflexivity |].
      destruct (is_empty (_leader_id n1)); node_simpl; auto.
Qed.

Lemma append_entries_redelivery_witness :
  let n :=
    Sample.follower 2 [Sample.pA; Sample.pB] 1
      [Sample.entry 1 1; Sample.entry 2 1] in
  let request :=
    mkAppendEntriesRequest "B" 2 1 1 [mkEntryMeta 2 ENTRY_TYPE_DATA [] None] 2 in
  Forall (fun entry => em_type entry <> ENTRY_TYPE_UNKNOWN) (ae_entries request)
  /\ Int64.min_signed <= ae_prev_log_index request
  /\ ae_prev_log_index request + Z.of_nat (length (ae_entries request))
     <= Int64.max_signed
  /\ exists n1 r1 n2 r2,
       handle_append_entries_request Sample.parse n 100 [] request
         Sample.append_response0 = Some (0, n1, [], r1)
       /\ lm_logs (_log_manager n1) = [Sample.entry 1 1; Sample.entry 2 2]
       /\ handle_append_entries_request Sample.parse n1 200 [] request
            Sample.append_response0 = Some (0, n2, [], r2)
       /\ _log_manager n2 = _log_manager n1
       /\ aer_success r2 = aer_success r1.
Proof.
  intros n request.
  assert (Hknown : Forall (fun entry => em_type entry <> ENTRY_TYPE_UNKNOWN)
                     (ae_entries request))
    by (repeat constructor; discriminate).
  assert (Hlo : Int64.min_signed <= ae_prev_log_index request)
    by (vm_compute; discriminate).
  assert (Hhi : ae_prev_log_index request
                + Z.of_nat (length (ae_entries request)) <= Int64.max_signed)
    by (vm_compute; discriminate).
  split; [exact Hknown |]. split; [exact Hlo |]. split; [exact Hhi |].
  destruct (handle_append_entries_request Sample.parse n 100 [] request
              Sample.append_response0) as [[[[ret n1] buf1] r1] |] eqn:H1;
    [| vm_compute in H1; discriminate H1].
  destruct (append_entries_redelivery Sample.parse n 100 200 [] request
              Sample.append_response0 ret n1 buf1 r1 Hknown Hlo Hhi H1)
    as (n2 & r2 & H2 & Hlog & Hsucc & _).
  vm_compute in H1. injection H1 as <- <- <- <-.
  eexists _, _, n2, r2. split; [reflexivity |]. split; [reflexivity |].
  split; [exact H2 |]. split; [exact Hlog | exact Hsucc].
Defined.

(** Scenario S3 of the specification: the follower holds (1, term 1) and
    (2, term 1); the leader sends [prev_log_index = 1], [prev_log_term = 1]
    and one entry of term 2.  The follower truncates index 2, adopts the
    entry and answers [success = true], [last_log_index = 2]. *)
Example append_entries_conflict_resolution :
  let n :=
    Sample.follower 2 [Sample.pA; Sample.pB] 1
      [Sample.entry 1 1; Sample.entry 2 1] in
  let request :=
    mkAppendEntriesRequest "B" 2 1 1 [mkEntryMeta 2 ENTRY_TYPE_DATA [] None] 2 in
  match handle_append_entries_request Sample.parse n 100 [] request
          Sample.append_response0 with
  | Some (ret, n', _, response) =>
      ret = 0 /\ response = mkAppendEntriesResponse 2 true 2
      /\ lm_logs (_log_manager n') = [Sample.entry 1 1; Sample.entry 2 2]
  | None => False
  end.
Proof. vm_compute. repeat split. Qed.

(** ** Term monotonicity (invariant 1) *)

(** [increase_term_to] never lowers the term. *)
Lemma increase_term_to_monotone n t :
  _current_term n <= _current_term (increase_term_to n t).2.
Proof.
  unfold increase_term_to. destruct (Z.leb_spec t (_current_term n)).
  - cbn [snd]. lia.
  - forget_step_down. cbn [snd]. destruct Hsd. lia.
Qed.

(** [handle_install_snapshot_request] steps down to the term the node already
    has, so it leaves [current_term] where it was. *)
Lemma handle_install_snapshot_request_term parse n req resp w c r n' resp' d :
  handle_install_snapshot_request parse n req resp w c = Some (r, n', resp', d) ->
  _current_term n' = _current_term n.
Proof.
  unfold handle_install_snapshot_request. forget_step_down. intros H.
  destruct Hsd. inv_handler H; node_simpl; congruence.
Qed.

(** [handle_request_vote_request] never lowers the term either. *)
Lemma handle_request_vote_request_term_monotone parse n request response :
  _current_term n
  <= _current_term (handle_request_vote_request parse n request response).1.2.
Proof.
  unfold handle_request_vote_request. forget_step_down. destruct Hsd.
  destruct (parse (rv_server_id request)); [| cbn [fst snd]; lia].
  destruct (is_empty (_leader_id n)); cbn [negb fst snd]; [| lia].
  destruct (Z.leb_spec (_current_term n) (rv_term request)); [| lia].
  destruct (Z.ltb_spec (_current_term n) (rv_term request));
    repeat match goal with
      | |- context [if ?b then _ else _] => destruct b
      end; node_simpl; lia.
Qed.

(** [handle_append_entries_request] never lowers the term: it steps down to
    the request's term only when that is not below the current one. *)
Lemma handle_append_entries_request_term_monotone parse n now buf request
    response ret n' buf' response' :
  handle_append_entries_request parse n now buf request response
  = Some (ret, n', buf', response') ->
  _current_term n <= _current_term n'.
Proof.
  unfold handle_append_entries_request, append_entries_do.
  forget_step_down. intros H.
  destruct (parse (ae_server_id request)) as [server_id |];
    [| injection H as _ <- _ _; lia].
  apply bind_Some in H as ([[success n1] buf1] & Hbody & H).
  injection H as _ <- _ _.
  assert (Hmono : _current_term n <= _current_term n1).
  { destruct Hsd.
    destruct (Z.ltb_spec (ae_term request) (_current_term n));
      [injection Hbody as _ <- _; lia |].
    split_handler Hbody; try discriminate Hbody;
      try (injection Hbody as _ <- _; node_simpl; lia).
    all: injection Hbody as _ <- _;
      match goal with
      | Hl : append_entries_loop _ _ _ _ _ _ = Some _ |- _ =>
          apply append_entries_loop_frame in Hl; destruct Hl
      end;
      match goal with
      | |- context [append_batch ?a ?b] =>
          destruct (append_batch_frame a b)
      end; node_simpl; lia. }
  destruct success; node_simpl; exact Hmono.
Qed.

(** The recovery branch of [set_peer] (the node has a configuration, or
    [old_peers] is not empty) moves to [current_term + 1] or rejects. *)
Lemma set_peer_recover_term_monotone n old_peers new_peers :
  Conf.empty (_conf n).2 && (vec_size old_peers =? 0) = false ->
  Int64.in_range (_current_term n + 1) ->
  _current_term n <= _current_term (set_peer n old_peers new_peers).2.
Proof.
  intros Hb Hr. unfold set_peer. rewrite Hb.
  rewrite Int64_add_in_range by assumption. forget_step_down. destruct Hsd.
  repeat case_match; node_simpl; lia.
Qed.

(** C1 (term monotonicity), refuted on the bootstrap branch of [set_peer]:
    a follower that came back from stable storage in term 5 with no
    configuration accepts [set_peer([], [A])] and ends in term 1, because the
    branch calls [step_down(1)] whatever the current term is. *)
Theorem set_peer_bootstrap_lowers_term :
  let n := Sample.follower 5 [] 1 [] in
  let r := set_peer n [] [Sample.pA] in
  _current_term n = 5 /\ r.1 = 0 /\ _state r.2 = FOLLOWER
  /\ _current_term r.2 = 1 /\ stable_term (_stable_storage r.2) = 1.
Proof. vm_compute. repeat split. Qed.

(** * Properties of the entry points, the callbacks and the election *)

(** ** The registry of nodes *)

(** X1: a node registered under an id is the one [get] returns for that id,
    the other ids are not affected, and a second [add] under the same id
    fails and leaves the registry as it is. *)
Theorem node_manager_add_get (nodes : gmap NodeId NodePtr) id node nodes' :
  NodeManager.add nodes id node = (true, nodes') ->
  NodeManager.get nodes' (node_group_id id) (node_peer_id id) = Some node
  /\ (forall g p, mkNodeId g p <> id ->
        NodeManager.get nodes' g p = NodeManager.get nodes g p)
  /\ (forall other, NodeManager.add nodes' id other = (false, nodes')).
Proof.
  unfold NodeManager.add, NodeManager.get. intros H.
  destruct (nodes !! id) eqn:E; [discriminate |].
  injection H as <-.
  split; [destruct id; apply lookup_insert_eq |].
  split.
  - intros g' p' Hne. by apply lookup_insert_ne.
  - intros other. by rewrite lookup_insert_eq.
Qed.

Lemma node_manager_add_get_witness :
  NodeManager.get (NodeManager.add ∅ (mkNodeId "g" Sample.pA) 1%positive).2
    "g" Sample.pA = Some 1%positive.
Proof.
  exact (proj1 (node_manager_add_get ∅ (mkNodeId "g" Sample.pA) 1%positive _
                  eq_refl)).
Defined.

(** X2: after [remove], [get] finds nothing under the id, the other ids are
    not affected, and the id can be registered again; removing an id that is
    not registered changes nothing. *)
Theorem node_manager_remove_get (nodes : gmap NodeId NodePtr) id :
  NodeManager.get (NodeManager.remove nodes id) (node_group_id id)
    (node_peer_id id) = None
  /\ (forall g p, mkNodeId g p <> id ->
        NodeManager.get (NodeManager.remove nodes id) g p
        = NodeManager.get nodes g p)
  /\ (forall node,
        NodeManager.add (NodeManager.remove nodes id) id node
        = (true, <[id := node]> nodes))
  /\ (NodeManager.get nodes (node_group_id id) (node_peer_id id) = None ->
      NodeManager.remove nodes id = nodes).
Proof.
  unfold NodeManager.add, NodeManager.get, NodeManager.remove.
  destruct id as [g p]; cbn [node_group_id node_peer_id].
  split; [apply lookup_delete_eq |].
  split; [intros g' p' Hne; by apply lookup_delete_ne |].
  split.
  - intros node. rewrite lookup_delete_eq. by rewrite insert_delete_eq.
  - apply delete_id.
Qed.

(** ** One vote per term *)

Lemma is_empty_true p : is_empty p = true <-> p = empty_peer.
Proof. unfold is_empty. apply bool_decide_eq_true. Qed.

Lemma is_empty_false p : is_empty p = false <-> p <> empty_peer.
Proof. unfold is_empty. apply bool_decide_eq_false. Qed.

(** A granted answer tells what the node holds afterwards. *)
Lemma request_vote_granted parse n request response candidate_id :
  parse (rv_server_id request) = Some candidate_id ->
  let r := handle_request_vote_request parse n request response in
  rvr_granted r.2 = true ->
  rv_term request = _current_term r.1.2
  /\ _voted_id r.1.2 = candidate_id
  /\ rvr_term r.2 = _current_term r.1.2.
Proof.
  intros Hp. unfold handle_request_vote_request. rewrite Hp.
  cbn [fst snd rvr_granted rvr_term]. intros H.
  apply andb_prop in H as [Ht Hv].
  apply Z.eqb_eq in Ht. apply bool_decide_eq_true in Hv. auto.
Qed.

(** A vote that is held survives a request that leaves the term alone. *)
Lemma request_vote_keeps_vote parse n request response :
  let n' := (handle_request_vote_request parse n request response).1.2 in
  _current_term n' = _current_term n ->
  _voted_id n <> empty_peer ->
  _voted_id n' = _voted_id n.
Proof.
  unfold handle_request_vote_request. forget_step_down. destruct Hsd.
  destruct (parse (rv_server_id request)); [| reflexivity].
  cbn [fst snd].
  destruct (is_empty (_leader_id n)); cbn [negb]; [| reflexivity].
  destruct (Z.leb_spec (_current_term n) (rv_term request)); [| reflexivity].
  destruct (Z.ltb_spec (_current_term n) (rv_term request)).
  - repeat match goal with
      | |- context [if ?b then _ else _] => destruct b
      end; node_simpl; lia.
  - intros _ Hv. apply is_empty_false in Hv. rewrite Hv, andb_false_r.
    reflexivity.
Qed.

(** X3: a node does not grant two candidates in one term: when two requests
    handled one after the other are both granted and come from different
    candidates, the second is answered in a later term than the first. *)
Theorem request_vote_one_per_term parse n request1 request2 response1
    response2 candidate1 candidate2 :
  parse (rv_server_id request1) = Some candidate1 ->
  parse (rv_server_id request2) = Some candidate2 ->
  candidate1 <> empty_peer ->
  candidate1 <> candidate2 ->
  let r1 := handle_request_vote_request parse n request1 response1 in
  let r2 := handle_request_vote_request parse r1.1.2 request2 response2 in
  rvr_granted r1.2 = true ->
  rvr_granted r2.2 = true ->
  rvr_term r1.2 < rvr_term r2.2.
Proof.
  intros Hp1 Hp2 Hne Hdiff r1 r2 Hg1 Hg2.
  destruct (request_vote_granted parse n request1 response1 _ Hp1 Hg1)
    as (_ & Hv1 & Ht1).
  destruct (request_vote_granted parse r1.1.2 request2 response2 _ Hp2 Hg2)
    as (_ & Hv2 & Ht2).
  fold r1 in Hv1, Ht1. fold r2 in Hv2, Ht2.
  pose proof (handle_request_vote_request_term_monotone parse r1.1.2 request2
                response2) as Hmono.
  fold r2 in Hmono.
  destruct (Z.eq_dec (_current_term r2.1.2) (_current_term r1.1.2)) as [He |];
    [| lia].
  exfalso. apply Hdiff. rewrite <- Hv1, <- Hv2. symmetry.
  apply (request_vote_keeps_vote parse r1.1.2 request2 response2 He).
  rewrite Hv1. exact Hne.
Qed.

Lemma request_vote_one_per_term_witness :
  let n := Sample.follower 3 [Sample.pA; Sample.pB; Sample.pC] 1 [] in
  let r1 := handle_request_vote_request Sample.parse n
              (mkRequestVoteRequest "B" 3 0 0) Sample.vote_response0 in
  let r2 := handle_request_vote_request Sample.parse r1.1.2
              (mkRequestVoteRequest "C" 4 0 0) Sample.vote_response0 in
  rvr_term r1.2 < rvr_term r2.2.
Proof.
  apply (request_vote_one_per_term Sample.parse
           (Sample.follower 3 [Sample.pA; Sample.pB; Sample.pC] 1 [])
           (mkRequestVoteRequest "B" 3 0 0) (mkRequestVoteRequest "C" 4 0 0)
           Sample.vote_response0 Sample.vote_response0 Sample.pB Sample.pC);
    first [reflexivity | discriminate].
Defined.

(** ** Snapshots: one save at a time *)

(** X4: once [snapshot] has handed a save to the state-machine caller, a
    second call is answered EAGAIN and changes nothing else. *)
Theorem snapshot_single_flight n done done' :
  last (_fsm_caller (snapshot n done)) = Some (on_snapshot_save done) ->
  snapshot (snapshot n done) done'
  = set_fsm_caller (snapshot n done)
      (_fsm_caller (snapshot n done) ++ [on_cleared 0 done' EAGAIN]).
Proof.
  destruct n. unfold snapshot at 1 3 4. node_simpl.
  repeat match goal with
    | |- context [if ?b then _ else _] => destruct b eqn:?
    end; node_simpl; rewrite last_snoc; try discriminate.
  intros _. unfold snapshot. node_simpl.
  repeat match goal with
    | H : ?b = _ |- context [if ?b then _ else _] => rewrite H
    end.
  reflexivity.
Qed.

Lemma snapshot_single_flight_witness :
  let n := snapshot (Sample.lone_leader 4) (Some 1%nat) in
  snapshot n (Some 2%nat)
  = set_fsm_caller n (_fsm_caller n ++ [on_cleared 0 (Some 2%nat) EAGAIN]).
Proof.
  exact (snapshot_single_flight (Sample.lone_leader 4) (Some 1%nat)
           (Some 2%nat) eq_refl).
Defined.

Lemma on_snapshot_save_done_clears n index w ret n' w' :
  on_snapshot_save_done n index w = Some (ret, n', w') ->
  _snapshot_saving n' = false.
Proof.
  destruct n. unfold on_snapshot_save_done, CHECK. node_simpl. intros H.
  inv_handler H; reflexivity.
Qed.

(** With a save in flight, [snapshot] only reports an error. *)
Lemma snapshot_refused n done :
  _snapshot_saving n = true ->
  exists e, (e = EINVAL \/ e = EAGAIN)
    /\ snapshot n done
       = set_fsm_caller n (_fsm_caller n ++ [on_cleared 0 done e]).
Proof.
  intros Hs. unfold snapshot. rewrite Hs.
  repeat match goal with
    | |- context [if ?b then _ else _] => destruct b
    end; eauto.
Qed.

(** X5: [SaveSnapshotDone::Run] clears [_snapshot_saving] when the state
    machine saved the snapshot; when the state machine reports an error, the
    error reaches the user's closure, the node is only released, and the flag
    stays set, so that every later [snapshot] is refused. *)
Theorem save_snapshot_done_flag n err_code meta writer done n' writer' run :
  SaveSnapshotDone_Run n err_code meta writer done = Some (n', writer', run) ->
  (err_code = 0 -> _snapshot_saving n' = false)
  /\ (err_code <> 0 ->
      n' = Release n /\ run.2 = err_code
      /\ (_snapshot_saving n = true ->
          forall done', exists e, (e = EINVAL \/ e = EAGAIN)
            /\ snapshot n' done'
               = set_fsm_caller n'
                   (_fsm_caller n' ++ [on_cleared 0 done' e]))).
Proof.
  unfold SaveSnapshotDone_Run. intros H.
  destruct (Z.eqb_spec err_code 0) as [-> | Hne].
  - split; [intros _ | congruence].
    apply bind_Some in H as ([[e n1] w1] & H1 & H).
    apply bind_Some in H1 as (w & _ & H1).
    apply bind_Some in H1 as ([[ret n2] w2] & H1 & H2).
    apply on_snapshot_save_done_clears in H1.
    injection H2 as _ <- _.
    apply bind_Some in H as (d & _ & H). injection H as <- _ _.
    destruct n2; exact H1.
  - split; [congruence | intros _].
    cbn [mbind option_bind] in H. destruct done as [d |]; [| discriminate].
    injection H as <- _ <-. repeat split.
    intros Hs done'. apply snapshot_refused. destruct n; exact Hs.
Qed.

Lemma save_snapshot_done_flag_witness :
  let n := snapshot (Sample.lone_leader 4) (Some 1%nat) in
  exists e, (e = EINVAL \/ e = EAGAIN)
    /\ snapshot (Release n) (Some 2%nat)
       = set_fsm_caller (Release n)
           (_fsm_caller (Release n) ++ [on_cleared 0 (Some 2%nat) e]).
Proof.
  intros n.
  exact (proj2 (proj2 (proj2
           (save_snapshot_done_flag n 5 (mkSnapshotMeta 1 4 ∅) None
              (Some 1%nat) (Release n) None (1%nat, 5) eq_refl)
           ltac:(discriminate))) eq_refl (Some 2%nat)).
Defined.

(** ** Snapshots: a pending install *)

(** X6: while a snapshot meta is pending, a further InstallSnapshot is
    answered EAGAIN and changes nothing, [snapshot] is refused, and an
    AppendEntries request that is not of an older term fails the CHECK on
    [_loading_snapshot_meta], which ends the process. *)
Theorem loading_snapshot_blocks parse n :
  is_null (_loading_snapshot_meta n) = false ->
  (forall request response writer copy_ret server_id,
      parse (is_server_id request) = Some server_id ->
      handle_install_snapshot_request parse n request response writer copy_ret
      = Some (EAGAIN, n, mkInstallSnapshotResponse (_current_term n) false,
              false))
  /\ (forall now buf request response server_id,
        parse (ae_server_id request) = Some server_id ->
        _current_term n <= ae_term request ->
        handle_append_entries_request parse n now buf request response = None)
  /\ (forall done,
        _state n <> SHUTDOWN -> _snapshot_storage n = true ->
        snapshot n done
        = set_fsm_caller n (_fsm_caller n ++ [on_cleared 0 done EAGAIN])).
Proof.
  intros Hl. split; [| split].
  - intros request response writer copy_ret server_id Hp.
    unfold handle_install_snapshot_request. rewrite Hp, Hl. reflexivity.
  - intros now buf request response server_id Hp Ht.
    unfold handle_append_entries_request, append_entries_do. rewrite Hp.
    forget_step_down. destruct Hsd.
    destruct (Z.ltb_spec (ae_term request) (_current_term n)); [lia |].
    assert (Hnull : forall m : NodeImpl,
               _loading_snapshot_meta m = _loading_snapshot_meta n ->
               is_null (_loading_snapshot_meta
                          (if is_empty (_leader_id m)
                           then set_leader_id m server_id else m)) = false).
    { intros m Hm. destruct (is_empty (_leader_id m)); node_simpl;
        rewrite Hm; exact Hl. }
    destruct ((_current_term n <? ae_term request)
              || negb (bool_decide (_state n = FOLLOWER)));
      rewrite Hnull by auto; reflexivity.
  - intros done Hs Hst. unfold snapshot.
    rewrite bool_decide_eq_false_2 by assumption.
    rewrite Hst, Hl. reflexivity.
Qed.

Lemma loading_snapshot_blocks_witness :
  let n := set_loading_snapshot_meta
             (Sample.follower 2 [Sample.pA; Sample.pB] 1 [])
             (Some (mkSnapshotMeta 10 2 ∅)) in
  handle_append_entries_request Sample.parse n 0 []
    (mkAppendEntriesRequest "B" 2 0 0 [] 0) Sample.append_response0 = None.
Proof.
  intros n.
  exact (proj1 (proj2 (loading_snapshot_blocks Sample.parse n eq_refl))
           0 [] (mkAppendEntriesRequest "B" 2 0 0 [] 0)
           Sample.append_response0 Sample.pB eq_refl ltac:(cbn; lia)).
Defined.

(** X7: an install that fails after the meta was recorded leaves the meta
    pending: in the handler, when the writer cannot be created or the copy
    or [save_meta] fails; in [InstallSnapshotDone::Run], when the load is
    reported with an error. *)
Theorem install_snapshot_failure_keeps_meta parse n :
  (forall request response writer copy_ret ret n' response' ran server_id peers,
      parse (is_server_id request) = Some server_id ->
      mapM parse (is_peers request) = Some peers ->
      handle_install_snapshot_request parse n request response writer copy_ret
      = Some (ret, n', response', ran) ->
      ret <> 0 ->
      is_null (_loading_snapshot_meta n') = false)
  /\ (forall err_code response,
        err_code <> 0 ->
        InstallSnapshotDone_Run n err_code response
        = Some (Release n,
                mkInstallSnapshotResponse (isr_term response) false)).
Proof.
  split.
  - intros request response writer copy_ret ret n' response' ran server_id
      peers Hp Hps.
    unfold handle_install_snapshot_request. rewrite Hp, Hps.
    forget_step_down. intros H Hret. destruct Hsd.
    inv_handler H; node_simpl; try reflexivity; try congruence.
    by apply negb_true_iff.
  - intros err_code response Hne. unfold InstallSnapshotDone_Run.
    destruct (Z.eqb_spec err_code 0); [congruence | reflexivity].
Qed.

Lemma install_snapshot_failure_keeps_meta_witness :
  let n := Sample.follower 1 [Sample.pA; Sample.pB] 1 [] in
  let request := mkInstallSnapshotRequest "B" 1 10 1 ["A"; "B"] "uri" in
  match handle_install_snapshot_request Sample.parse n request
          Sample.install_response0 (Some (mkSnapshotWriter 0 0)) 5 with
  | Some (ret, n', _, _) =>
      ret = 5 /\ is_null (_loading_snapshot_meta n') = false
  | None => False
  end.
Proof.
  intros n request.
  destruct (handle_install_snapshot_request Sample.parse n request
              Sample.install_response0 (Some (mkSnapshotWriter 0 0)) 5)
    as [[[[ret n'] response'] ran] |] eqn:E; [| discriminate E].
  assert (Hret : ret = 5) by (injection E as <- _ _ _; reflexivity).
  split; [exact Hret |].
  apply (proj1 (install_snapshot_failure_keeps_meta Sample.parse n)
           request Sample.install_response0 (Some (mkSnapshotWriter 0 0)) 5
           ret n' response' ran Sample.pB [Sample.pA; Sample.pB]
           eq_refl eq_refl E).
  rewrite Hret. discriminate.
Defined.

Lemma node_manager_remove_get_witness :
  NodeManager.remove (∅ : gmap NodeId NodePtr) (mkNodeId "g" Sample.pA) = ∅.
Proof.
  exact (proj2 (proj2 (proj2
           (node_manager_remove_get ∅ (mkNodeId "g" Sample.pA)))) eq_refl).
Defined.

(** ** Snapshots: an install that completes *)

(** Loading a snapshot that lies beyond the log: the log is emptied and
    starts after the snapshot. *)
Lemma on_snapshot_load_done_beyond_log n meta :
  _loading_snapshot_meta n = Some meta ->
  LogMgr.last_log_index (_log_manager n) < last_included_index meta ->
  Int64.in_range (last_included_index meta + 1) ->
  exists n',
    on_snapshot_load_done n = Some n'
    /\ _last_snapshot_index n' = last_included_index meta
    /\ _last_snapshot_term n' = last_included_term meta
    /\ lm_logs (_log_manager n') = []
    /\ lm_first_log_index (_log_manager n') = last_included_index meta + 1
    /\ _loading_snapshot_meta n' = None
    /\ _current_term n' = _current_term n
    /\ _state n' = _state n
    /\ _snapshot_saving n' = _snapshot_saving n.
Proof.
  intros Hmeta Hlast Hr.
  unfold on_snapshot_load_done. rewrite Hmeta. cbn [mbind option_bind].
  eexists. split; [reflexivity |].
  destruct n as [? ? ? ? ? ? ? ? ? ? ? ? ? lm cm ? ? ? ? ? ? ? ?].
  node_simpl. clear Hmeta.
  destruct meta as [idx term conf].
  cbn [last_included_index last_included_term last_configuration] in *.
  assert (Hadd : Int64.add idx 1 = idx + 1)
    by (apply Int64_add_in_range; assumption).
  pose proof (first_le_last lm) as Hfl.
  destruct (LogMgr.truncate_prefix lm cm (idx + 1)) as [lm1 cm1] eqn:E1.
  destruct (LogMgr.truncate_suffix lm1 cm1 idx) as [lm2 cm2] eqn:E2.
  pose proof (truncate_prefix_spec _ _ _ _ _ E1) as [F1 L1].
  pose proof (truncate_suffix_spec _ _ _ _ _ E2) as [F2 L2].
  unfold LogMgr.first_log_index in *.
  assert (Hlen : (Z.to_nat (idx + 1 - lm_first_log_index lm)
                  >= length (lm_logs lm))%nat).
  { unfold LogMgr.last_log_index in Hlast. lia. }
  assert (Hnil : lm_logs lm2 = []).
  { rewrite L2, L1. rewrite drop_ge by lia. apply take_nil. }
  destruct (Z.ltb_spec (LogMgr.last_log_index lm) idx); [| lia].
  cbn [orb]. node_simpl. rewrite !Hadd, E1, E2. node_simpl.
  destruct (Z.leb_spec (lm_first_log_index lm2) idx); [lia |].
  node_simpl. repeat split; try assumption; lia.
Qed.

(** What a handler call that queued the load has established. *)
Lemma install_snapshot_queued parse n request response writer copy_ret n1
    response1 :
  handle_install_snapshot_request parse n request response writer copy_ret
  = Some (0, n1, response1, false) ->
  exists server_id meta,
    parse (is_server_id request) = Some server_id
    /\ _current_term n <= is_term request
    /\ _loading_snapshot_meta n1 = Some meta
    /\ last_included_index meta = is_last_included_log_index request
    /\ last_included_term meta = is_last_included_log_term request
    /\ LogMgr.last_log_index (_log_manager n1)
       < is_last_included_log_index request
    /\ _current_term n1 = _current_term n
    /\ isr_term response1 = _current_term n.
Proof.
  unfold handle_install_snapshot_request. forget_step_down. intros H.
  destruct Hsd.
  destruct (parse (is_server_id request)) as [server_id |];
    [| discriminate H].
  exists server_id.
  destruct (negb (is_null (_loading_snapshot_meta n))); [discriminate H |].
  destruct (Z.ltb_spec (is_term request) (_current_term n));
    [discriminate H |].
  assert (Hlog : forall a b : NodeImpl,
             lm_logs (_log_manager a) = lm_logs (_log_manager b) ->
             lm_first_log_index (_log_manager a)
             = lm_first_log_index (_log_manager b) ->
             LogMgr.last_log_index (_log_manager a)
             = LogMgr.last_log_index (_log_manager b)).
  { intros a b H1 H2. unfold LogMgr.last_log_index. rewrite H1, H2.
    reflexivity. }
  inv_handler H; node_simpl; eexists;
    repeat match goal with
      | |- _ /\ _ => split
      end; try reflexivity; try assumption;
    repeat match goal with
      | H : (_ <? _) = true |- _ => apply Z.ltb_lt in H
      end;
    node_simpl; try assumption.
Qed.

(** The handler that records the meta has checked that the log ends before
    the snapshot's index: when the load is queued, the log does not start
    after it. *)
Lemma install_snapshot_log_starts_before parse n request response writer
    copy_ret n1 response1 :
  handle_install_snapshot_request parse n request response writer copy_ret
  = Some (0, n1, response1, false) ->
  exists meta,
    _loading_snapshot_meta n1 = Some meta
    /\ last_included_index meta = is_last_included_log_index request
    /\ LogMgr.first_log_index (_log_manager n1) <= last_included_index meta
    /\ ~ holds_entry (_log_manager n1) (last_included_index meta)
           (last_included_term meta).
Proof.
  intros H.
  destruct (install_snapshot_queued _ _ _ _ _ _ _ _ H)
    as (_ & meta & _ & _ & Hm & Hi & _ & Hlast & _).
  exists meta. split; [exact Hm |]. split; [exact Hi |].
  pose proof (first_le_last (_log_manager n1)).
  split; [lia |]. unfold holds_entry. lia.
Qed.

(** A request for the snapshot the node already has is acknowledged without
    a load. *)
Lemma install_snapshot_retry parse n request response writer copy_ret
    server_id :
  parse (is_server_id request) = Some server_id ->
  is_null (_loading_snapshot_meta n) = true ->
  _current_term n <= is_term request ->
  _last_snapshot_index n = is_last_included_log_index request ->
  _last_snapshot_term n = is_last_included_log_term request ->
  exists n',
    handle_install_snapshot_request parse n request response writer copy_ret
    = Some (0, n', mkInstallSnapshotResponse (_current_term n) true, true)
    /\ _last_snapshot_index n' = _last_snapshot_index n
    /\ _last_snapshot_term n' = _last_snapshot_term n
    /\ lm_logs (_log_manager n') = lm_logs (_log_manager n)
    /\ lm_first_log_index (_log_manager n')
       = lm_first_log_index (_log_manager n)
    /\ _loading_snapshot_meta n' = None
    /\ _current_term n' = _current_term n.
Proof.
  intros Hp Hl Ht Hi Hterm. unfold handle_install_snapshot_request.
  rewrite Hp, Hl. cbn [negb]. forget_step_down.
  pose proof (sd_last_snapshot_index _ _ _ Hsd) as Hsi.
  pose proof (sd_last_snapshot_term _ _ _ Hsd) as Hst.
  destruct Hsd.
  destruct (Z.ltb_spec (is_term request) (_current_term n)); [lia |].
  destruct (_loading_snapshot_meta n) eqn:Hm; [discriminate Hl |].
  destruct ((_current_term n <? is_term request)
            || negb (bool_decide (_state n = FOLLOWER)));
    match goal with
    | |- context [is_empty ?l] => destruct (is_empty l)
    end; node_simpl;
    rewrite ?Hsi, ?Hst, <- ?Hi, <- ?Hterm,
      !Z.eqb_refl;
    cbn [andb isr_term]; eexists; (split; [reflexivity |]); node_simpl;
    repeat split; congruence.
Qed.

(** X8: an InstallSnapshot whose load was queued and then reported done
    ([InstallSnapshotDone::Run] without error) leaves the node on the
    request's snapshot with an empty log that starts right after it and no
    pending meta, and acknowledges the request; the same request delivered
    again is acknowledged at once, without a second load. *)
Theorem install_snapshot_completes parse n request response writer copy_ret
    n1 response1 :
  handle_install_snapshot_request parse n request response writer copy_ret
  = Some (0, n1, response1, false) ->
  Int64.in_range (is_last_included_log_index request + 1) ->
  exists n2 response2,
    InstallSnapshotDone_Run n1 0 response1 = Some (n2, response2)
    /\ isr_success response2 = true
    /\ isr_term response2 = _current_term n
    /\ _current_term n2 = _current_term n
    /\ _last_snapshot_index n2 = is_last_included_log_index request
    /\ _last_snapshot_term n2 = is_last_included_log_term request
    /\ lm_logs (_log_manager n2) = []
    /\ LogMgr.first_log_index (_log_manager n2)
       = is_last_included_log_index request + 1
    /\ _loading_snapshot_meta n2 = None
    /\ forall response' writer' copy_ret',
         exists n3,
           handle_install_snapshot_request parse n2 request response' writer'
             copy_ret'
           = Some (0, n3, mkInstallSnapshotResponse (_current_term n) true,
                   true)
           /\ _last_snapshot_index n3 = is_last_included_log_index request
           /\ lm_logs (_log_manager n3) = []
           /\ _loading_snapshot_meta n3 = None.
Proof.
  intros H Hr.
  destruct (install_snapshot_queued _ _ _ _ _ _ _ _ H)
    as (server_id & meta & Hp & Ht & Hm & Hi & Hterm & Hlast & Hc & Hrt).
  destruct (on_snapshot_load_done_beyond_log n1 meta Hm)
    as (n' & Hload & Li & Lt & Ll & Lf & Lm & Lc & _); [lia | rewrite Hi; exact Hr |].
  exists (Release n'), (mkInstallSnapshotResponse (isr_term response1) true).
  unfold InstallSnapshotDone_Run. cbn [Z.eqb]. rewrite Hload.
  cbn [mbind option_bind]. split; [reflexivity |].
  unfold LogMgr.first_log_index. destruct n'. node_simpl.
  cbn [isr_success isr_term].
  repeat match goal with
    | |- _ /\ _ => split
    end; try congruence.
  intros response' writer' copy_ret'.
  match goal with
  | |- context [handle_install_snapshot_request _ ?m _ _ _ _] =>
      destruct (install_snapshot_retry parse m request response' writer'
                  copy_ret' server_id Hp)
        as (n3 & H3 & Hi3 & _ & Hl3 & _ & Hm3 & _)
  end; node_simpl; try congruence; [rewrite Lm; reflexivity |].
  exists n3. rewrite H3. node_simpl. rewrite Lc, Hc.
  repeat split; congruence.
Qed.

Lemma install_snapshot_completes_witness :
  let n := Sample.follower 1 [Sample.pA; Sample.pB] 1 [Sample.entry 1 1] in
  let request := mkInstallSnapshotRequest "B" 1 10 1 ["A"; "B"] "uri" in
  exists n1 response1 n2 response2,
    handle_install_snapshot_request Sample.parse n request
      Sample.install_response0 (Some (mkSnapshotWriter 0 0)) 0
    = Some (0, n1, response1, false)
    /\ InstallSnapshotDone_Run n1 0 response1 = Some (n2, response2)
    /\ isr_success response2 = true
    /\ _last_snapshot_index n2 = 10
    /\ lm_logs (_log_manager n2) = []
    /\ LogMgr.first_log_index (_log_manager n2) = 11.
Proof.
  intros n request.
  destruct (handle_install_snapshot_request Sample.parse n request
              Sample.install_response0 (Some (mkSnapshotWriter 0 0)) 0)
    as [[[[ret n1] response1] ran] |] eqn:E; [| discriminate E].
  assert (ret = 0 /\ ran = false) as [-> ->]
    by (injection E as <- _ _ <-; split; reflexivity).
  destruct (install_snapshot_completes Sample.parse n request
              Sample.install_response0 (Some (mkSnapshotWriter 0 0)) 0
              n1 response1 E)
    as (n2 & response2 & H2 & Hs & _ & _ & Hi & _ & Hl & Hf & _).
  { vm_compute. split; discriminate. }
  exists n1, response1, n2, response2. repeat split; assumption.
Defined.

(** ** What [append] writes and what it leaves alone *)

Lemma append_spec n entry done : appended n entry done (append n entry done).
Proof.
  destruct n as [? ? ? ? ? conf ? ? ? ? ? ? ? lm cm cmt ? ? ? ? ? ? ?].
  split;
    unfold append, LogMgr.append_entry, LogMgr.push, LogMgr.is_conf_entry;
    node_simpl;
    destruct (bool_decide (entry_type entry = ENTRY_TYPE_ADD_PEER));
    destruct (bool_decide (entry_type entry = ENTRY_TYPE_REMOVE_PEER));
    cbn [negb andb orb]; node_simpl;
    match goal with
    | |- context [LogMgr.check_and_set_configuration ?a ?b] =>
        destruct (LogMgr.check_and_set_configuration a b) as [[] ?]
    end; node_simpl; reflexivity.
Qed.

(** The configuration after a configuration entry was appended: the entry's
    peers, under the entry's index, with the old peers kept in [_conf_ctx]. *)
Lemma append_conf_entry n entry done :
  LogMgr.is_conf_entry entry = true ->
  (_conf n).1 <> LogMgr.last_log_index (_log_manager n) + 1 ->
  _conf (append n entry done)
  = (LogMgr.last_log_index (_log_manager n) + 1,
     Conf.of_peers (default [] (entry_peers entry)))
  /\ _conf_ctx (append n entry done) = Conf.peer_vector (_conf n).2.
Proof.
  intros Hc Hi.
  destruct n as [? ? ? ? ? conf ? ? ? ? ? ? ? lm cm cmt ? ? ? ? ? ? ?].
  unfold append, LogMgr.append_entry, LogMgr.push. rewrite Hc.
  unfold LogMgr.is_conf_entry in Hc. node_simpl.
  replace (negb (negb (bool_decide (entry_type entry = ENTRY_TYPE_ADD_PEER))
                 && negb (bool_decide (entry_type entry = ENTRY_TYPE_REMOVE_PEER))))
    with true
    by (destruct (bool_decide (entry_type entry = ENTRY_TYPE_ADD_PEER)),
          (bool_decide (entry_type entry = ENTRY_TYPE_REMOVE_PEER));
        cbn in *; congruence).
  node_simpl.
  unfold LogMgr.check_and_set_configuration, ConfigManager.last_configuration,
    ConfigManager.add.
  cbn [cm_configurations cm_snapshot]. rewrite last_snoc. cbn [fst snd].
  rewrite bool_decide_eq_false_2 by exact Hi.
  node_simpl. split; reflexivity.
Qed.

(** ** Elections *)

(** Nested setters on a record whose fields are known, innermost first. *)
Ltac node_eval :=
  cbv beta iota zeta delta [
    _server_id _state _current_term _voted_id _leader_id _conf _conf_ctx
    _last_snapshot_term _last_snapshot_index _last_leader_timestamp
    _snapshot_saving _loading_snapshot_meta _snapshot_storage _log_manager
    _config_manager _commit_manager _stable_storage _replicator_group
    _fsm_caller _election_timer _vote_timer _stepdown_timer _ref_count
    set_state set_current_term set_voted_id set_leader_id set_conf
    set_conf_ctx set_last_snapshot_term set_last_snapshot_index
    set_last_leader_timestamp set_snapshot_saving set_loading_snapshot_meta
    set_snapshot_storage set_log_manager set_config_manager
    set_commit_manager set_stable_storage set_replicator_group
    set_fsm_caller set_election_timer set_vote_timer set_stepdown_timer
    set_ref_count AddRef Release ].

Lemma set_replicator_group_twice n g g' :
  set_replicator_group (set_replicator_group n g) g'
  = set_replicator_group n g'.
Proof. destruct n; reflexivity. Qed.

Lemma set_replicator_group_same n :
  set_replicator_group n (_replicator_group n) = n.
Proof. destruct n; reflexivity. Qed.

(** The loop of [become_leader] touches the replicator group only. *)
Lemma add_replicators_frame (add_replicator_ret : PeerId -> Z) peers :
  forall n,
    exists g,
      foldl (fun n peer =>
               if bool_decide (peer = _server_id n) then n
               else if add_replicator_ret peer =? 0 then
                 set_replicator_group n
                   (Replicators.add_replicator (_replicator_group n) peer)
               else n)
        n peers
      = set_replicator_group n g.
Proof.
  induction peers as [| p peers IH]; intros n; cbn [foldl].
  - exists (_replicator_group n). symmetry. apply set_replicator_group_same.
  - destruct (bool_decide (p = _server_id n));
      [| destruct (add_replicator_ret p =? 0)].
    + apply IH.
    + destruct (IH (set_replicator_group n
                      (Replicators.add_replicator (_replicator_group n) p)))
        as [g Hg].
      exists g. rewrite Hg. apply set_replicator_group_twice.
    + apply IH.
Qed.

Lemma peer_vector_nonempty (c : gset PeerId) :
  c <> ∅ -> (0 <? vec_size (Conf.peer_vector c)) = true.
Proof.
  intros Hc. unfold vec_size, Conf.peer_vector. apply Z.ltb_lt.
  destruct (elements c) eqn:E; [| cbn; lia].
  apply elements_empty_inv in E. apply leibniz_equiv in E. contradiction.
Qed.

Lemma become_leader_spec add_replicator_ret leader_start n :
  _state n = CANDIDATE ->
  (_conf n).2 <> ∅ ->
  exists n',
    become_leader add_replicator_ret leader_start n = Some n'
    /\ became_leader n n'.
Proof.
  intros Hs Hc.
  destruct n as [me st ? ? ? conf ? ? ? ? ? ? ? lm ? ? ? ? ? ? vote_timer ? ?].
  node_simpl. subst st. unfold become_leader.
  rewrite bool_decide_eq_true_2 by reflexivity.
  cbn [CHECK mbind option_bind].
  match goal with
  | |- context [foldl ?f ?m ?l] =>
      destruct (add_replicators_frame add_replicator_ret l m) as [g Hg];
      rewrite Hg; clear Hg
  end.
  destruct vote_timer; node_eval; cbn [bthread_timer_del Z.eqb];
    cbn [entry_peers default from_option id];
    rewrite peer_vector_nonempty by exact Hc;
    cbn [CHECK mbind option_bind];
    eexists; (split; [reflexivity |]);
    match goal with
    | |- context [append ?m ?e ?d] =>
        pose proof (append_spec m e d) as Ha;
        generalize dependent (append m e d); intros a Ha
    end;
    destruct Ha; destruct a; node_simpl;
    cbn [entry_term entry_type entry_peers entry_data] in *;
    split; node_simpl; try assumption; try reflexivity.
Qed.

Lemma set_ref_count_twice n a b :
  set_ref_count (set_ref_count n a) b = set_ref_count n b.
Proof. destruct n; reflexivity. Qed.

Lemma request_votes_loop to_string channel_init peers :
  forall n sent,
    foldl (fun '(n, sent) peer =>
             if bool_decide (peer = _server_id n) then (n, sent)
             else if negb (channel_init peer =? 0) then (n, sent)
             else
               let request :=
                 mkRequestVoteRequest (to_string (_server_id n))
                   (_current_term n) (last_log_term n)
                   (LogMgr.last_log_index (_log_manager n)) in
               (AddRef n, sent ++ [(peer, request)]))
      (n, sent) peers
    = (set_ref_count n
         (_ref_count n
          + Z.of_nat (length (reachable_peers channel_init n peers))),
       sent ++ map (fun p => (p, vote_request to_string n))
                 (reachable_peers channel_init n peers)).
Proof.
  unfold reachable_peers.
  induction peers as [| p peers IH]; intros n sent.
  - cbn. rewrite app_nil_r, Z.add_0_r. destruct n; reflexivity.
  - cbn [foldl]. rewrite filter_cons.
    destruct (decide (p = _server_id n)) as [-> | Hne].
    + rewrite bool_decide_eq_true_2 by reflexivity.
      rewrite decide_False by tauto. apply IH.
    + rewrite bool_decide_eq_false_2 by exact Hne.
      destruct (Z.eqb_spec (channel_init p) 0) as [Hc | Hc]; cbn [negb].
      * rewrite decide_True by tauto. rewrite IH.
        destruct n. unfold vote_request, last_log_term. node_simpl.
        cbn [length map]. rewrite <- app_assoc. cbn [app].
        f_equal. f_equal. lia.
      * rewrite decide_False by tauto. apply IH.
Qed.

Lemma request_votes_spec to_string channel_init n peers :
  request_votes to_string channel_init n peers
  = (set_ref_count n
       (_ref_count n
        + Z.of_nat (length (reachable_peers channel_init n peers))),
     map (fun p => (p, vote_request to_string n))
       (reachable_peers channel_init n peers)).
Proof. unfold request_votes. apply request_votes_loop. Qed.

Lemma vec_size_peer_vector (c : gset PeerId) :
  vec_size (Conf.peer_vector c) = Z.of_nat (size c).
Proof. reflexivity. Qed.

Lemma size_nonempty_pos (c : gset PeerId) : c <> ∅ -> (0 < size c)%nat.
Proof.
  intros Hc. destruct (size c) eqn:E; [| lia].
  apply size_empty_inv in E. apply leibniz_equiv in E. contradiction.
Qed.

(** [elect_self] on a node with a configuration of [k] peers. *)
Lemma elect_self_spec to_string channel_init add_replicator_ret
    leader_start n vote_ctx :
  (_conf n).2 <> ∅ ->
  let k := Z.of_nat (size (_conf n).2) in
  let term := Int64.add (_current_term n) 1 in
  exists n',
    elect_self to_string channel_init add_replicator_ret leader_start n
      vote_ctx
    = Some (n', mkVoteCtx (k / 2 + 1) {[_server_id n]},
            map (fun p =>
                   (p, mkRequestVoteRequest (to_string (_server_id n)) term
                         (last_log_term n)
                         (LogMgr.last_log_index (_log_manager n))))
              (filter (fun p => p <> _server_id n /\ channel_init p = 0)
                 (Conf.peer_vector (_conf n).2)))
    /\ _current_term n' = term
    /\ _voted_id n' = _server_id n
    /\ _stable_storage n' = mkStableStorage term (_server_id n)
    /\ _state n' = (if decide (k = 1) then LEADER else CANDIDATE)
    /\ (k = 1 ->
        _leader_id n' = _server_id n
        /\ lm_logs (_log_manager n')
           = lm_logs (_log_manager n)
             ++ [mkLogEntry (LogMgr.last_log_index (_log_manager n) + 1) term
                   ENTRY_TYPE_ADD_PEER
                   (Some (Conf.peer_vector (_conf n).2)) []]
        /\ _stepdown_timer n' = true /\ _vote_timer n' = false)
    /\ (k <> 1 ->
        _vote_timer n' = true /\ _log_manager n' = _log_manager n
        /\ _leader_id n' = _leader_id n /\ _conf n' = _conf n)
    /\ (_state n = FOLLOWER -> _election_timer n' = false).
Proof.
  intros Hc k term. subst k term.
  pose proof (size_nonempty_pos _ Hc) as Hpos.
  destruct n as [me st ct ? ? conf ? ? ? ? ? ? ? lm ? ? ? ? ? et ? ? ?].
  node_simpl. unfold elect_self.
  cbn [_state _election_timer].
  assert (Hfollower : bool_decide (st = FOLLOWER) = false -> st <> FOLLOWER)
    by apply bool_decide_eq_false.
  destruct (bool_decide (st = FOLLOWER)); destruct et;
    cbn [bthread_timer_del Z.eqb]; rewrite request_votes_spec;
    unfold Votes.quorum, Votes.grant, Votes.set, Votes.reset;
    cbn [vc_needed vc_granted]; rewrite vec_size_peer_vector;
    rewrite (left_id_L ∅ (∪)), size_singleton;
    unfold vote_request, reachable_peers, last_log_term;
    node_eval.
  all: destruct (Z.leb_spec (Z.of_nat (size conf.2) / 2 + 1) (Z.of_nat 1))
         as [Hq | Hq];
    [ assert (Hk : Z.of_nat (size conf.2) = 1);
      [ destruct (Z.eq_dec (Z.of_nat (size conf.2)) 1) as [| Hne];
        [assumption |];
        exfalso;
        assert (2 <= Z.of_nat (size conf.2)) by lia;
        assert (1 <= Z.of_nat (size conf.2) / 2)
          by (apply Z.div_le_lower_bound; lia);
        lia
      | rewrite Hk; rewrite decide_True by reflexivity;
        match goal with
        | |- context [become_leader ?a ?l ?m] =>
            destruct (become_leader_spec a l m) as (n' & Hb & Hl);
            [reflexivity | exact Hc |]
        end;
        exists n'; rewrite Hb; destruct Hl; node_simpl;
        repeat split; try assumption; try congruence;
        first [ match goal with
                | H : _election_timer _ = false |- _ => intros _; exact H
                end
              | intros Hst; exact (False_ind _ (Hfollower eq_refl Hst)) ] ]
    | assert (Hk : Z.of_nat (size conf.2) <> 1)
        by (intros Hk; rewrite Hk in Hq; vm_compute in Hq; discriminate Hq);
      rewrite decide_False by exact Hk;
      eexists; (split; [reflexivity |]);
      repeat split; try congruence;
      intros Hst; exact (False_ind _ (Hfollower eq_refl Hst)) ].
Qed.

(** X10: on a node whose configuration is empty, [elect_self] counts the
    node's own vote as a quorum, and [become_leader] then fails its CHECK on
    the peers of the configuration entry: the process ends. *)
Theorem elect_self_empty_conf_aborts to_string channel_init add_replicator_ret
    leader_start n vote_ctx :
  (_conf n).2 = ∅ ->
  elect_self to_string channel_init add_replicator_ret leader_start n vote_ctx
  = None.
Proof.
  intros Hc.
  destruct n as [me st ct ? ? [ci cs] ? ? ? ? ? ? ? lm ? ? ? ? ? et ? ? ?].
  node_simpl. subst cs. unfold elect_self. cbn [_state _election_timer].
  destruct (bool_decide (st = FOLLOWER)); destruct et;
    cbn [bthread_timer_del Z.eqb]; rewrite request_votes_spec;
    unfold Votes.quorum, Votes.grant, Votes.set, Votes.reset;
    cbn [vc_needed vc_granted]; rewrite vec_size_peer_vector;
    rewrite (left_id_L ∅ (∪)), size_singleton;
    node_eval; cbn [snd]; rewrite size_empty;
    change (Z.of_nat 0 `div` 2 + 1 <=? Z.of_nat 1) with true; cbn match;
    unfold become_leader;
    rewrite bool_decide_eq_true_2 by reflexivity;
    cbn [CHECK mbind option_bind];
    match goal with
    | |- context [foldl ?f ?m ?l] =>
        destruct (add_replicators_frame add_replicator_ret l m) as [g Hg];
        rewrite Hg; clear Hg
    end; node_eval; cbn [snd];
    cbn [entry_peers default from_option id];
    unfold Conf.peer_vector; rewrite elements_empty; reflexivity.
Qed.

Lemma elect_self_empty_conf_aborts_witness :
  elect_self (fun _ => "A") (fun _ => 0) (fun _ => 0) None
    (Sample.follower 1 [] 1 []) Votes.reset = None.
Proof.
  exact (elect_self_empty_conf_aborts (fun _ => "A") (fun _ => 0)
           (fun _ => 0) None (Sample.follower 1 [] 1 []) Votes.reset eq_refl).
Defined.

Lemma become_leader_inv add_replicator_ret leader_start n n' :
  become_leader add_replicator_ret leader_start n = Some n' ->
  _state n = CANDIDATE /\ became_leader n n'.
Proof.
  intros H.
  assert (Hs : _state n = CANDIDATE).
  { unfold become_leader in H. apply CHECK_Some in H as [Hs _].
    by apply bool_decide_eq_true in Hs. }
  split; [exact Hs |].
  destruct (decide ((_conf n).2 = ∅)) as [Hc | Hc].
  - exfalso. revert H. unfold become_leader.
    rewrite bool_decide_eq_true_2 by exact Hs.
    cbn [CHECK mbind option_bind].
    match goal with
    | |- context [foldl ?f ?m ?l] =>
        destruct (add_replicators_frame add_replicator_ret l m) as [g Hg];
        rewrite Hg; clear Hg
    end.
    destruct n as [? ? ? ? ? [ci cs] ? ? ? ? ? ? ? ? ? ? ? ? ? ? vt ? ?].
    node_simpl. subst cs.
    destruct vt; cbn [bthread_timer_del Z.eqb]; node_eval; cbn [snd];
      cbn [entry_peers default from_option id];
      unfold Conf.peer_vector; rewrite elements_empty; discriminate.
  - destruct (become_leader_spec add_replicator_ret leader_start n Hs Hc)
      as (n'' & H' & Hb).
    congruence.
Qed.

(** X11: a RequestVote answer delivered a second time changes nothing: the
    node and the vote context are what the first delivery left. *)
Theorem request_vote_response_idempotent add_replicator_ret leader_start n
    vote_ctx peer_id term response n1 vote_ctx1 :
  handle_request_vote_response add_replicator_ret leader_start n vote_ctx
    peer_id term response = Some (n1, vote_ctx1) ->
  handle_request_vote_response add_replicator_ret leader_start n1 vote_ctx1
    peer_id term response = Some (n1, vote_ctx1).
Proof.
  unfold handle_request_vote_response at 1. forget_step_down. intros H.
  destruct (bool_decide (_state n = CANDIDATE)) eqn:Hs; cbn [negb] in H.
  2: { injection H as <- <-. unfold handle_request_vote_response.
       rewrite Hs. reflexivity. }
  destruct (term =? _current_term n) eqn:Ht; cbn [negb] in H.
  2: { injection H as <- <-. unfold handle_request_vote_response.
       rewrite Hs, Ht. reflexivity. }
  destruct (_current_term n <? rvr_term response) eqn:Hr.
  { injection H as <- <-.
    unfold handle_request_vote_response. rewrite (sd_state _ _ _ Hsd).
    reflexivity. }
  destruct (rvr_granted response) eqn:Hg.
  2: { injection H as <- <-. unfold handle_request_vote_response.
       rewrite Hs, Ht, Hr, Hg. reflexivity. }
  destruct (Votes.quorum (Votes.grant vote_ctx peer_id)) eqn:Hq.
  - apply bind_Some in H as (n' & Hb & H). injection H as <- <-.
    apply become_leader_inv in Hb as [_ []].
    unfold handle_request_vote_response. rewrite bl_state0. reflexivity.
  - injection H as <- <-. unfold handle_request_vote_response.
    rewrite Hs, Ht, Hr, Hg. cbn [negb].
    assert (Hidem : Votes.grant (Votes.grant vote_ctx peer_id) peer_id
                    = Votes.grant vote_ctx peer_id).
    { unfold Votes.grant. cbn [vc_needed vc_granted]. f_equal.
      rewrite <- (assoc_L (∪)). f_equal. apply (idemp_L (∪)). }
    rewrite Hidem, Hq. reflexivity.
Qed.

Lemma request_vote_response_idempotent_witness :
  let n := set_state (Sample.follower 2 [Sample.pA; Sample.pB; Sample.pC] 1 [])
             CANDIDATE in
  let vote_ctx := mkVoteCtx 3 {[Sample.pA]} in
  let response := mkRequestVoteResponse 2 true in
  handle_request_vote_response (fun _ => 0) None n
    (Votes.grant vote_ctx Sample.pB) Sample.pB 2 response
  = Some (n, Votes.grant vote_ctx Sample.pB).
Proof.
  intros n vote_ctx response.
  apply (request_vote_response_idempotent (fun _ => 0) None n vote_ctx
           Sample.pB 2 response).
  vm_compute. reflexivity.
Defined.

(** X9: [elect_self] on a node that has a configuration opens the next term,
    votes for the node itself and persists both, starts a vote context that
    needs a majority of the configuration and holds the node's own vote, and
    sends one RequestVote, in the new term and with the node's last log
    position, to every peer other than itself whose channel could be set
    up. *)
Theorem elect_self_campaign to_string channel_init add_replicator_ret
    leader_start n vote_ctx :
  (_conf n).2 <> ∅ ->
  let term := Int64.add (_current_term n) 1 in
  exists n',
    elect_self to_string channel_init add_replicator_ret leader_start n
      vote_ctx
    = Some (n',
            mkVoteCtx (Z.of_nat (size (_conf n).2) / 2 + 1) {[_server_id n]},
            map (fun p =>
                   (p, mkRequestVoteRequest (to_string (_server_id n)) term
                         (last_log_term n)
                         (LogMgr.last_log_index (_log_manager n))))
              (filter (fun p => p <> _server_id n /\ channel_init p = 0)
                 (Conf.peer_vector (_conf n).2)))
    /\ _current_term n' = term
    /\ _voted_id n' = _server_id n
    /\ _stable_storage n' = mkStableStorage term (_server_id n).
Proof.
  intros Hc term.
  destruct (elect_self_spec to_string channel_init add_replicator_ret
              leader_start n vote_ctx Hc) as (n' & H & Ht & Hv & Hst & _).
  exists n'. repeat split; assumption.
Qed.

Lemma elect_self_campaign_witness :
  let n := Sample.follower 1 [Sample.pA; Sample.pB; Sample.pC] 1 [] in
  exists n' sent,
    elect_self (fun _ => "A") (fun _ => 0) (fun _ => 0) None n Votes.reset
    = Some (n', mkVoteCtx 2 {[Sample.pA]}, sent)
    /\ _current_term n' = 2
    /\ _voted_id n' = Sample.pA.
Proof.
  intros n.
  destruct (elect_self_campaign (fun _ => "A") (fun _ => 0) (fun _ => 0) None
              n Votes.reset)
    as (n' & H & Ht & Hv & _).
  { vm_compute. discriminate. }
  exists n'. eexists. split; [exact H |].
  split; [exact Ht | exact Hv].
Defined.

Lemma deliver_votes_spec add_replicator_ret leader_start needed term votes :
  forall n vote_ctx (voters : gset PeerId),
    vc_needed vote_ctx = needed ->
    _current_term n = term ->
    (needed <= Z.of_nat (size voters) /\ _state n = LEADER)
    \/ (Z.of_nat (size voters) < needed /\ _state n = CANDIDATE
        /\ vc_granted vote_ctx = voters /\ (_conf n).2 <> ∅) ->
    Forall (fun v => rvr_granted v.2 = true /\ rvr_term v.2 <= term) votes ->
    exists n' vote_ctx',
      deliver_votes add_replicator_ret leader_start n vote_ctx term votes
      = Some (n', vote_ctx')
      /\ _current_term n' = term
      /\ (_state n' = LEADER
          <-> needed <= Z.of_nat (size (voters ∪ list_to_set votes.*1)))
      /\ (_state n' = LEADER \/ _state n' = CANDIDATE).
Proof.
  induction votes as [| [p r] votes IH]; intros n vote_ctx voters Hn Ht Hinv Hv.
  - exists n, vote_ctx. cbn [deliver_votes fmap list_fmap list_to_set].
    rewrite (right_id_L ∅ (∪)).
    split; [reflexivity |]. split; [exact Ht |].
    destruct Hinv as [[Hq Hs] | (Hq & Hs & _)]; rewrite Hs.
    + split; [tauto | auto].
    + split; [split; [discriminate | lia] | auto].
  - apply Forall_cons in Hv as [[Hg Hr] Hv]. cbn [snd] in Hg, Hr.
    cbn [deliver_votes].
    replace (voters ∪ list_to_set ((p, r) :: votes).*1)
      with ((voters ∪ {[p]}) ∪ list_to_set votes.*1)
      by (cbn [fmap list_fmap list_to_set fst];
          symmetry; apply (assoc_L (∪))).
    assert (Hsub : (size voters <= size (voters ∪ {[p]}))%nat)
      by (apply subseteq_size, union_subseteq_l).
    unfold handle_request_vote_response.
    destruct Hinv as [[Hq Hs] | (Hq & Hs & Hvc & Hc)]; rewrite Hs.
    + rewrite bool_decide_eq_false_2 by discriminate.
      cbn [negb mbind option_bind].
      apply IH; try assumption. left. split; [lia | exact Hs].
    + rewrite bool_decide_eq_true_2 by reflexivity. cbn [negb].
      rewrite Ht, Z.eqb_refl. cbn [negb].
      destruct (Z.ltb_spec term (rvr_term r)); [lia |].
      rewrite Hg. unfold Votes.quorum, Votes.grant.
      cbn [vc_needed vc_granted]. rewrite Hn, Hvc.
      destruct (Z.leb_spec needed (Z.of_nat (size (voters ∪ {[p]})))).
      * destruct (become_leader_spec add_replicator_ret leader_start n Hs Hc)
          as (n' & Hb & []).
        rewrite Hb. cbn [mbind option_bind].
        apply IH; try assumption; [reflexivity | congruence |].
        left. split; assumption.
      * cbn [mbind option_bind].
        apply IH; try assumption; [reflexivity |].
        right. repeat split; assumption.
Qed.

(** X12: an election is won by a majority and by nothing less.  After
    [elect_self], when granted answers of the new term are delivered one
    after the other, the node ends as leader exactly when the peers that
    answered, each counted once, and the node itself number at least
    [k / 2 + 1], [k] being the size of the configuration; otherwise it is
    still a candidate.  The term is the one [elect_self] opened. *)
Theorem election_won_by_majority to_string channel_init add_replicator_ret
    leader_start n vote_ctx votes :
  (_conf n).2 <> ∅ ->
  Forall (fun v => rvr_granted v.2 = true
                   /\ rvr_term v.2 <= Int64.add (_current_term n) 1) votes ->
  exists n1 vote_ctx1 sent n2 vote_ctx2,
    elect_self to_string channel_init add_replicator_ret leader_start n
      vote_ctx = Some (n1, vote_ctx1, sent)
    /\ deliver_votes add_replicator_ret leader_start n1 vote_ctx1
         (Int64.add (_current_term n) 1) votes = Some (n2, vote_ctx2)
    /\ _current_term n2 = Int64.add (_current_term n) 1
    /\ (_state n2 = LEADER
        <-> Z.of_nat (size (_conf n).2) / 2 + 1
            <= Z.of_nat (size ({[_server_id n]} ∪ list_to_set votes.*1
                             : gset PeerId)))
    /\ (_state n2 = LEADER \/ _state n2 = CANDIDATE).
Proof.
  intros Hc Hv.
  destruct (elect_self_spec to_string channel_init add_replicator_ret
              leader_start n vote_ctx Hc)
    as (n1 & H & Ht & _ & _ & Hs & _ & Hcand & _).
  destruct (deliver_votes_spec add_replicator_ret leader_start
              (Z.of_nat (size (_conf n).2) / 2 + 1)
              (Int64.add (_current_term n) 1) votes n1
              (mkVoteCtx (Z.of_nat (size (_conf n).2) / 2 + 1)
                 {[_server_id n]})
              {[_server_id n]} eq_refl Ht)
    as (n2 & vote_ctx2 & Hd & Ht2 & Hiff & Hor); [| exact Hv |].
  - rewrite size_singleton.
    destruct (decide (Z.of_nat (size (_conf n).2) = 1)) as [Hk | Hk].
    + left. split; [rewrite Hk; vm_compute; discriminate | exact Hs].
    + right. destruct (Hcand Hk) as (_ & _ & _ & Hconf).
      assert (2 <= Z.of_nat (size (_conf n).2))
        by (pose proof (size_nonempty_pos _ Hc); lia).
      assert (1 <= Z.of_nat (size (_conf n).2) / 2)
        by (apply Z.div_le_lower_bound; lia).
      repeat split; [lia | exact Hs | congruence].
  - eauto 10.
Qed.

Lemma election_won_by_majority_witness :
  let n := Sample.follower 1 [Sample.pA; Sample.pB; Sample.pC] 1 [] in
  exists n1 vote_ctx1 sent n2 vote_ctx2,
    elect_self (fun _ => "A") (fun _ => 0) (fun _ => 0) None n Votes.reset
    = Some (n1, vote_ctx1, sent)
    /\ deliver_votes (fun _ => 0) None n1 vote_ctx1 2
         [(Sample.pB, mkRequestVoteResponse 2 true)] = Some (n2, vote_ctx2)
    /\ _state n2 = LEADER.
Proof.
  intros n.
  destruct (election_won_by_majority (fun _ => "A") (fun _ => 0) (fun _ => 0)
              None n Votes.reset [(Sample.pB, mkRequestVoteResponse 2 true)])
    as (n1 & vote_ctx1 & sent & n2 & vote_ctx2 & H1 & H2 & _ & Hiff & _).
  { vm_compute. discriminate. }
  { repeat constructor. vm_compute. discriminate. }
  exists n1, vote_ctx1, sent, n2, vote_ctx2.
  split; [exact H1 |]. split; [exact H2 |].
  apply Hiff. vm_compute. discriminate.
Defined.

(** ** The stepdown timer *)

Lemma dead_count_loop n now election_timeout last_response_timestamp peers :
  forall count,
    foldl (fun dead_count peer =>
             if bool_decide (peer = _server_id n) then dead_count
             else if election_timeout
                     <? Int64.sub now (last_response_timestamp peer)
             then dead_count + 1 else dead_count)
      count peers
    = count
      + Z.of_nat (length (dead_peers n now election_timeout
                            last_response_timestamp peers)).
Proof.
  unfold dead_peers. induction peers as [| p peers IH]; intros count.
  - cbn. lia.
  - cbn [foldl]. rewrite filter_cons.
    destruct (decide (p = _server_id n)) as [-> | Hne].
    + rewrite bool_decide_eq_true_2 by reflexivity.
      rewrite decide_False by tauto. apply IH.
    + rewrite bool_decide_eq_false_2 by exact Hne.
      destruct (Z.ltb_spec election_timeout
                  (Int64.sub now (last_response_timestamp p))).
      * rewrite decide_True by tauto. rewrite IH. cbn [length]. lia.
      * rewrite decide_False by lia. apply IH.
Qed.

Lemma dead_count_spec n now election_timeout last_response_timestamp peers :
  dead_count n now election_timeout last_response_timestamp peers
  = Z.of_nat (length (dead_peers n now election_timeout
                        last_response_timestamp peers)).
Proof. unfold dead_count. rewrite dead_count_loop. lia. Qed.

(** X13: on the stepdown timer a leader counts the peers, other than itself,
    that have been silent for longer than the election timeout.  With fewer
    than [k / 2 + 1] of them, [k] being the size of the configuration, it
    only re-arms the timer; otherwise it steps down into the term it has.
    A node that is not leader does nothing. *)
Theorem stepdown_timeout_spec n now election_timeout last_response_timestamp :
  let n' := handle_stepdown_timeout n now election_timeout
              last_response_timestamp in
  let dead := dead_peers n now election_timeout last_response_timestamp
                (Conf.peer_vector (_conf n).2) in
  _current_term n' = _current_term n
  /\ (_state n <> LEADER -> n' = n)
  /\ (_state n = LEADER ->
      Z.of_nat (length dead) < Z.of_nat (size (_conf n).2) / 2 + 1 ->
      n' = set_stepdown_timer (AddRef n) true)
  /\ (_state n = LEADER ->
      Z.of_nat (size (_conf n).2) / 2 + 1 <= Z.of_nat (length dead) ->
      _state n' = FOLLOWER /\ _leader_id n' = empty_peer
      /\ _voted_id n' = empty_peer
      /\ _stable_storage n' = mkStableStorage (_current_term n) empty_peer).
Proof.
  unfold handle_stepdown_timeout. rewrite dead_count_spec.
  rewrite vec_size_peer_vector. forget_step_down. destruct Hsd.
  cbv zeta.
  destruct (decide (_state n = LEADER)) as [Hs | Hs].
  - rewrite bool_decide_eq_true_2 by exact Hs. cbn [negb].
    destruct (Z.ltb_spec
                (Z.of_nat (length (dead_peers n now election_timeout
                                     last_response_timestamp
                                     (Conf.peer_vector (_conf n).2))))
                (Z.of_nat (size (_conf n).2) / 2 + 1)).
    + split; [destruct n; reflexivity |].
      split; [intros Hne; contradiction |].
      split; [reflexivity | intros _ Hle; lia].
    + split; [assumption |].
      split; [intros Hne; contradiction |].
      split; [intros _ Hlt; lia | intros _ _; auto].
  - rewrite bool_decide_eq_false_2 by exact Hs. cbn [negb].
    split; [reflexivity |].
    split; [reflexivity |].
    split; intros Hl; contradiction.
Qed.

Lemma dead_peers_bound n now election_timeout last_response_timestamp
    (c : gset PeerId) :
  _server_id n ∈ c ->
  (length (dead_peers n now election_timeout last_response_timestamp
             (elements c)) < size c)%nat.
Proof.
  intros Hin. unfold dead_peers.
  set (dead := filter _ (elements c)).
  assert (Hnd : NoDup dead) by apply NoDup_filter, NoDup_elements.
  rewrite <- (size_list_to_set (C:=gset PeerId) dead) by exact Hnd.
  assert (Hsub : list_to_set dead ⊆ c ∖ {[_server_id n]}).
  { intros p Hp. apply elem_of_list_to_set in Hp.
    apply list_elem_of_filter in Hp as [[Hne _] Hp].
    apply elem_of_elements in Hp. set_solver. }
  apply subseteq_size in Hsub.
  assert (Hd : size (c ∖ {[_server_id n]}) = (size c - 1)%nat).
  { rewrite size_difference by set_solver. rewrite size_singleton.
    reflexivity. }
  pose proof (size_nonempty_pos c ltac:(set_solver)). lia.
Qed.

(** X14: the leader of a group of one or two members, itself among them,
    never steps down on the stepdown timer, however long the other member
    has been silent: it re-arms the timer. *)
Theorem stepdown_timeout_small_group n now election_timeout
    last_response_timestamp :
  _state n = LEADER ->
  _server_id n ∈ (_conf n).2 ->
  (size (_conf n).2 <= 2)%nat ->
  handle_stepdown_timeout n now election_timeout last_response_timestamp
  = set_stepdown_timer (AddRef n) true.
Proof.
  intros Hs Hin Hsize. unfold handle_stepdown_timeout.
  rewrite dead_count_spec, vec_size_peer_vector.
  rewrite bool_decide_eq_true_2 by exact Hs. cbn [negb].
  pose proof (dead_peers_bound n now election_timeout last_response_timestamp
                _ Hin) as Hb.
  unfold Conf.peer_vector.
  destruct (Z.ltb_spec
              (Z.of_nat (length (dead_peers n now election_timeout
                                   last_response_timestamp
                                   (elements (_conf n).2))))
              (Z.of_nat (size (_conf n).2) / 2 + 1)); [reflexivity |].
  exfalso.
  destruct (size (_conf n).2) as [| [| [| k]]] eqn:E; [lia | | | lia].
  - change (Z.of_nat 1 / 2 + 1) with 1 in *. lia.
  - change (Z.of_nat 2 / 2 + 1) with 2 in *. lia.
Qed.

Lemma stepdown_timeout_small_group_witness :
  let n := set_conf (Sample.lone_leader 4)
             (1, Conf.of_peers [Sample.pA; Sample.pB]) in
  handle_stepdown_timeout n 1000000 100 (fun _ => 0)
  = set_stepdown_timer (AddRef n) true.
Proof.
  intros n.
  apply (stepdown_timeout_small_group n 1000000 100 (fun _ => 0)).
  - reflexivity.
  - vm_compute. reflexivity.
  - vm_compute. lia.
Defined.

(** ** Configuration changes, from the request to the commit *)

Lemma of_peers_peer_vector (c : gset PeerId) :
  Conf.of_peers (Conf.peer_vector c) = c.
Proof. apply list_to_set_elements_L. Qed.

Lemma foldl_remove_peer peers :
  forall c : gset PeerId,
    foldl Conf.remove_peer c peers = c ∖ list_to_set peers.
Proof.
  induction peers as [| p peers IH]; intros c; cbn [foldl list_to_set].
  - symmetry. apply difference_empty_L.
  - rewrite IH. unfold Conf.remove_peer. apply set_eq. intros x.
    rewrite !elem_of_difference, elem_of_union. tauto.
Qed.

Lemma stop_replicators_loop peers :
  forall n,
    foldl (fun n p =>
             set_replicator_group n
               (Replicators.stop_replicator (_replicator_group n) p))
      n peers
    = set_replicator_group n
        (mkReplicatorGroup
           (replicators (_replicator_group n) ∖ list_to_set peers)
           (caughtup_waits (_replicator_group n))).
Proof.
  induction peers as [| p peers IH]; intros n; cbn [foldl list_to_set].
  - rewrite difference_empty_L. destruct n as
      [? ? ? ? ? ? ? ? ? ? ? ? ? ? ? ? ? [] ? ? ? ? ?]. reflexivity.
  - rewrite IH. destruct n. node_simpl. unfold set_replicator_group.
    node_simpl. unfold Replicators.stop_replicator.
    cbn [replicators caughtup_waits]. do 2 f_equal.
    apply set_eq. intros x.
    rewrite !elem_of_difference, elem_of_union. tauto.
Qed.

Lemma difference_difference_singleton (c : gset PeerId) p :
  p ∈ c -> c ∖ (c ∖ {[p]}) = {[p]}.
Proof.
  intros Hp. apply set_eq. intros x.
  rewrite !elem_of_difference, elem_of_singleton.
  destruct (decide (x = p)) as [-> | Hne]; [tauto |].
  split; [intros [Hx Hn]; exfalso; apply Hn; tauto | tauto].
Qed.

Lemma conf_equal_spec (c : gset PeerId) peers :
  Conf.equal c peers = true <-> c = list_to_set peers.
Proof. unfold Conf.equal. apply bool_decide_eq_true. Qed.

Lemma conf_contain_spec (c : gset PeerId) p :
  Conf.contain c p = true <-> p ∈ c.
Proof. unfold Conf.contain. apply bool_decide_eq_true. Qed.

(** An accepted [remove_peer] is the append of the configuration entry. *)
Lemma remove_peer_accepted n old_peers peer done :
  _state n = LEADER ->
  _conf_ctx n = [] ->
  (_conf n).2 = list_to_set old_peers ->
  peer ∈ (_conf n).2 ->
  remove_peer n old_peers peer done
  = append n
      (mkLogEntry 0 (_current_term n) ENTRY_TYPE_REMOVE_PEER
         (Some (Conf.peer_vector ((_conf n).2 ∖ {[peer]}))) [])
      done.
Proof.
  intros Hs Hctx He Hin. unfold remove_peer.
  rewrite bool_decide_eq_true_2 by exact Hs.
  unfold ConfCtx.empty. rewrite bool_decide_eq_true_2 by exact Hctx.
  rewrite (proj2 (conf_equal_spec _ _) He).
  rewrite (proj2 (conf_contain_spec _ _) Hin).
  reflexivity.
Qed.

(** X15: removing a peer other than the leader, from the request to the
    commit.  [remove_peer] appends the configuration entry, under which the
    node already runs with the new configuration and keeps the old peers in
    [_conf_ctx]; when the entry is committed,
    [on_configuration_change_done] stops the replicator of the removed peer,
    and of no other, and clears [_conf_ctx].  The node stays leader of its
    term. *)
Theorem remove_peer_commit n old_peers peer done :
  _state n = LEADER ->
  _conf_ctx n = [] ->
  (_conf n).2 = list_to_set old_peers ->
  peer ∈ (_conf n).2 ->
  peer <> _server_id n ->
  _server_id n ∈ (_conf n).2 ->
  (_conf n).1 <> LogMgr.last_log_index (_log_manager n) + 1 ->
  let n1 := remove_peer n old_peers peer done in
  let n2 := on_configuration_change_done n1 ENTRY_TYPE_REMOVE_PEER
              (Conf.peer_vector ((_conf n).2 ∖ {[peer]})) in
  _conf n1 = (LogMgr.last_log_index (_log_manager n) + 1,
              (_conf n).2 ∖ {[peer]})
  /\ _conf_ctx n1 = Conf.peer_vector (_conf n).2
  /\ _conf n2 = _conf n1
  /\ _conf_ctx n2 = []
  /\ replicators (_replicator_group n2)
     = replicators (_replicator_group n) ∖ {[peer]}
  /\ _state n2 = LEADER
  /\ _current_term n2 = _current_term n.
Proof.
  intros Hs Hctx He Hin Hne Hself Hidx n1 n2. subst n1 n2.
  rewrite remove_peer_accepted by assumption.
  match goal with
  | |- context [append n ?e done] =>
      destruct (append_conf_entry n e done eq_refl Hidx) as [Hconf Hcc];
      pose proof (append_spec n e done) as Ha;
      generalize dependent (append n e done); intros a Hconf Hcc Ha
  end.
  cbn [entry_peers default from_option id] in Hconf.
  rewrite of_peers_peer_vector in Hconf.
  split; [exact Hconf |]. split; [exact Hcc |].
  unfold on_configuration_change_done.
  rewrite bool_decide_eq_false_2 by discriminate.
  rewrite bool_decide_eq_true_2 by reflexivity.
  destruct Ha. rewrite Hconf, ap_server_id0. cbn [snd].
  assert (Hin' : _server_id n ∈ (_conf n).2 ∖ {[peer]}).
  { apply elem_of_difference. split; [exact Hself |].
    rewrite elem_of_singleton. congruence. }
  rewrite (proj2 (conf_contain_spec _ _) Hin'). cbn [negb].
  rewrite Hcc, foldl_remove_peer, !of_peers_peer_vector.
  rewrite difference_difference_singleton by exact Hin.
  unfold Conf.peer_vector. rewrite elements_singleton.
  cbn [foldl]. destruct a. node_simpl.
  repeat split; try congruence.
  cbn [Replicators.stop_replicator replicators]. congruence.
Qed.

Lemma remove_peer_commit_witness :
  let n := set_conf (Sample.lone_leader 4)
             (1, Conf.of_peers [Sample.pA; Sample.pB]) in
  let n1 := remove_peer n [Sample.pA; Sample.pB] Sample.pB None in
  let n2 := on_configuration_change_done n1 ENTRY_TYPE_REMOVE_PEER
              (Conf.peer_vector ((_conf n).2 ∖ {[Sample.pB]})) in
  _conf_ctx n2 = [] /\ _state n2 = LEADER.
Proof.
  intros n n1 n2.
  destruct (remove_peer_commit n [Sample.pA; Sample.pB] Sample.pB None)
    as (_ & _ & _ & Hctx & _ & Hs & _);
    [ reflexivity | reflexivity | reflexivity | vm_compute; reflexivity
    | discriminate | vm_compute; reflexivity | vm_compute; discriminate | ].
  split; [exact Hctx | exact Hs].
Defined.

Lemma step_down_timers n term : stepped_down_timers n (step_down n term).
Proof.
  destruct n as [me st ? ? ? conf ? ? ? ? ? ? ? ? ? ? ? ? ? ? vote_timer stepdown_timer ?].
  destruct st; [destruct stepdown_timer | destruct vote_timer | |];
    split; unfold step_down, Release, AddRef; cbn -[Conf.empty Conf.contain];
    destruct (negb (Conf.empty conf.2) && Conf.contain conf.2 me); reflexivity.
Qed.

(** As [forget_step_down], keeping what is known of the timers too. *)
Ltac forget_step_down_timers :=
  repeat match goal with
    | |- context [step_down ?n ?t] =>
        let X := fresh "sd" in
        let HX := fresh "Hsd" in
        let HT := fresh "Hsdt" in
        generalize (step_down_timers n t); generalize (step_down_spec n t);
        generalize (step_down n t); intros X HX HT
    end.

(** X16: a leader that removes itself.  When the entry is committed,
    [on_configuration_change_done] empties the configuration and steps the
    node down in the term it has: the node ends as a follower without
    configuration, without replicators, and with no election timer armed by
    the step. *)
Theorem remove_self_commit n old_peers done :
  _state n = LEADER ->
  _conf_ctx n = [] ->
  (_conf n).2 = list_to_set old_peers ->
  _server_id n ∈ (_conf n).2 ->
  (_conf n).1 <> LogMgr.last_log_index (_log_manager n) + 1 ->
  let n1 := remove_peer n old_peers (_server_id n) done in
  let n2 := on_configuration_change_done n1 ENTRY_TYPE_REMOVE_PEER
              (Conf.peer_vector ((_conf n).2 ∖ {[_server_id n]})) in
  _state n2 = FOLLOWER
  /\ (_conf n2).2 = ∅
  /\ _conf_ctx n2 = []
  /\ _current_term n2 = _current_term n
  /\ _leader_id n2 = empty_peer
  /\ _election_timer n2 = _election_timer n
  /\ _stepdown_timer n2 = false
  /\ replicators (_replicator_group n2) = ∅.
Proof.
  intros Hs Hctx He Hin Hidx n1 n2. subst n1 n2.
  rewrite remove_peer_accepted by assumption.
  match goal with
  | |- context [append n ?e done] =>
      destruct (append_conf_entry n e done eq_refl Hidx) as [Hconf Hcc];
      pose proof (append_spec n e done) as Ha;
      generalize dependent (append n e done); intros a Hconf Hcc Ha
  end.
  cbn [entry_peers default from_option id] in Hconf.
  rewrite of_peers_peer_vector in Hconf.
  unfold on_configuration_change_done.
  rewrite bool_decide_eq_false_2 by discriminate.
  rewrite bool_decide_eq_true_2 by reflexivity.
  rewrite Hconf, (ap_server_id _ _ _ _ Ha). cbn [snd fst].
  assert (Hout : Conf.contain ((_conf n).2 ∖ {[_server_id n]}) (_server_id n)
                 = false).
  { apply bool_decide_eq_false.
    rewrite elem_of_difference, elem_of_singleton. tauto. }
  rewrite Hout. cbn [negb]. forget_step_down_timers.
  pose proof (sdt_election_timer _ _ Hsdt) as Het.
  pose proof (sdt_stepdown_timer _ _ Hsdt) as Hst.
  pose proof (sdt_replicator_group _ _ Hsdt) as Hrg.
  pose proof (sd_conf _ _ _ Hsd) as Hcf.
  pose proof (sd_state _ _ _ Hsd) as Hstate.
  pose proof (sd_current_term _ _ _ Hsd) as Hterm.
  pose proof (sd_leader_id _ _ _ Hsd) as Hleader.
  clear Hsd Hsdt. revert Het Hst Hcf Hterm. node_simpl.
  unfold Conf.empty, Conf.reset. rewrite bool_decide_eq_true_2 by reflexivity.
  cbn [negb andb]. rewrite (ap_state _ _ _ _ Ha), Hs.
  rewrite bool_decide_eq_true_2 by reflexivity.
  rewrite (ap_election_timer _ _ _ _ Ha), (ap_current_term _ _ _ _ Ha).
  intros Het Hst Hcf Hterm. rewrite Hcf, Hrg.
  repeat split; assumption.
Qed.

Lemma remove_self_commit_witness :
  let n := Sample.lone_leader 4 in
  let n1 := remove_peer n [Sample.pA] Sample.pA None in
  let n2 := on_configuration_change_done n1 ENTRY_TYPE_REMOVE_PEER
              (Conf.peer_vector ((_conf n).2 ∖ {[Sample.pA]})) in
  _state n2 = FOLLOWER /\ (_conf n2).2 = ∅.
Proof.
  intros n n1 n2.
  destruct (remove_self_commit n [Sample.pA] None)
    as (Hs & Hc & _);
    [ reflexivity | reflexivity | reflexivity | vm_compute; reflexivity
    | vm_compute; discriminate | ].
  split; [exact Hs | exact Hc].
Defined.

(** X17: adding a peer, from the request to the commit.  [add_peer] starts
    a replicator for the new peer and waits for it to catch up, the
    configuration still being the old one; when the peer has caught up,
    [on_caughtup] appends the configuration entry, which is registered with
    the commit manager under the new configuration, and from then on the
    node runs with the new configuration, the old peers kept in
    [_conf_ctx]; when the entry is committed,
    [on_configuration_change_done] clears [_conf_ctx]. *)
Theorem add_peer_commit n old_peers peer done now election_timeout
    last_response_timestamp wait_caughtup_ret :
  _state n = LEADER ->
  _conf_ctx n = [] ->
  (_conf n).2 = list_to_set old_peers ->
  peer ∉ (_conf n).2 ->
  (_conf n).1 <> LogMgr.last_log_index (_log_manager n) + 1 ->
  let n1 := add_peer n old_peers peer done 0 0 in
  exists n2,
    on_caughtup n1 peer 0 done now election_timeout last_response_timestamp
      wait_caughtup_ret = Some (n2, None)
    /\ _conf n1 = _conf n
    /\ _conf_ctx n1 = []
    /\ replicators (_replicator_group n1)
       = replicators (_replicator_group n) ∪ {[peer]}
    /\ _conf n2 = (LogMgr.last_log_index (_log_manager n) + 1,
                   (_conf n).2 ∪ {[peer]})
    /\ _conf_ctx n2 = Conf.peer_vector (_conf n).2
    /\ last (pending_apps (_commit_manager n2))
       = Some ((_conf n).2 ∪ {[peer]}, done)
    /\ let n3 := on_configuration_change_done n2 ENTRY_TYPE_ADD_PEER
                   (Conf.peer_vector ((_conf n).2 ∪ {[peer]})) in
       _conf n3 = _conf n2
       /\ _conf_ctx n3 = []
       /\ replicators (_replicator_group n3)
          = replicators (_replicator_group n) ∪ {[peer]}
       /\ _state n3 = LEADER
       /\ _current_term n3 = _current_term n.
Proof.
  intros Hs Hctx He Hnin Hidx n1. subst n1.
  unfold add_peer. rewrite bool_decide_eq_true_2 by exact Hs.
  unfold ConfCtx.empty. rewrite bool_decide_eq_true_2 by exact Hctx.
  rewrite (proj2 (conf_equal_spec _ _) He).
  unfold Conf.contain. rewrite bool_decide_eq_false_2 by exact Hnin.
  cbn [negb Z.eqb].
  destruct n as [me st ct ? ? [ci cs] ctx ? ? ? ? ? ? lm ? ? ? ? ? ? ? ? ?].
  node_simpl. subst st ctx. cbn [fst snd] in *.
  unfold on_caughtup. cbn [Z.eqb].
  match goal with
  | |- context [append ?m ?e done] =>
      destruct (append_conf_entry m e done eq_refl Hidx) as [Hconf Hcc];
      pose proof (append_spec m e done) as Ha;
      generalize dependent (append m e done); intros a Hconf Hcc Ha
  end.
  cbn [entry_peers default from_option id] in Hconf.
  unfold Conf.add_peer in Hconf. node_simpl.
  rewrite of_peers_peer_vector in Hconf.
  exists a. split; [reflexivity |].
  cbn [Replicators.add_replicator Replicators.wait_caughtup replicators].
  split; [reflexivity |]. split; [reflexivity |]. split; [reflexivity |].
  split; [exact Hconf |]. split; [exact Hcc |].
  split.
  { rewrite (ap_pending_apps _ _ _ _ Ha), last_snoc.
    cbn [LogMgr.is_conf_entry entry_type entry_peers default from_option id].
    unfold Conf.add_peer. node_simpl. rewrite of_peers_peer_vector.
    reflexivity. }
  unfold on_configuration_change_done.
  rewrite bool_decide_eq_true_2 by reflexivity.
  pose proof (ap_state _ _ _ _ Ha). pose proof (ap_current_term _ _ _ _ Ha).
  pose proof (ap_replicator_group _ _ _ _ Ha).
  destruct a. node_simpl. repeat split; try congruence.
  match goal with
  | H : _ = Replicators.wait_caughtup _ _ _ |- _ => rewrite H
  end.
  reflexivity.
Qed.

Lemma add_peer_commit_witness :
  let n := Sample.lone_leader 4 in
  let n1 := add_peer n [Sample.pA] Sample.pB None 0 0 in
  exists n2,
    on_caughtup n1 Sample.pB 0 None 0 100 (fun _ => 0) 0 = Some (n2, None)
    /\ (_conf n2).2 = {[Sample.pA]} ∪ {[Sample.pB]}.
Proof.
  intros n n1.
  destruct (add_peer_commit n [Sample.pA] Sample.pB None 0 100 (fun _ => 0) 0)
    as (n2 & H & _ & _ & _ & Hc & _);
    [ reflexivity | reflexivity | reflexivity | vm_compute; discriminate
    | vm_compute; discriminate | ].
  exists n2. split; [exact H |]. rewrite Hc. reflexivity.
Defined.

(** ** No completion is dropped *)

Lemma handoffs_cleared n d index e :
  handoffs (set_fsm_caller n (_fsm_caller n ++ [on_cleared index (Some d) e])) d
  = S (handoffs n d).
Proof.
  destruct n. unfold handoffs. node_simpl.
  rewrite filter_app, length_app, filter_cons, decide_True by reflexivity.
  cbn. lia.
Qed.

Lemma handoffs_append n entry d :
  handoffs (append n entry (Some d)) d = S (handoffs n d).
Proof.
  destruct (append_spec n entry (Some d)). unfold handoffs.
  rewrite ap_fsm_caller0, ap_replicator_group0, ap_pending_apps0.
  rewrite (filter_app _ (pending_apps _)), length_app, filter_cons,
    decide_True by reflexivity.
  cbn. lia.
Qed.

(** X18: a completion handed to the node is never dropped by a call that
    returns.  [apply], [add_peer], [remove_peer] and [snapshot], when they
    return, have passed their closure on exactly once: to the state-machine
    caller with an error, to the commit manager with the entry, to the
    replicator group with the catch-up wait, or to the state-machine caller
    with the save.  [on_caughtup], when it returns, has passed it on once or
    has run it itself with the error it was called with.  The four client
    calls return on a node whose collaborators exist; on a node that is not
    leader and has no state-machine caller, as the constructor leaves it,
    none of them returns. *)
Theorem done_handed_over_once p n d :
  (forall data n',
      apply_at p n data (Some d) = Some n' ->
      handoffs n' d = S (handoffs n d))
  /\ (forall old_peers peer add_replicator_ret wait_caughtup_ret n',
        add_peer_at p n old_peers peer (Some d) add_replicator_ret
          wait_caughtup_ret = Some n' ->
        handoffs n' d = S (handoffs n d))
  /\ (forall old_peers peer n',
        remove_peer_at p n old_peers peer (Some d) = Some n' ->
        handoffs n' d = S (handoffs n d))
  /\ (forall n',
        snapshot_at p n (Some d) = Some n' ->
        handoffs n' d = S (handoffs n d))
  /\ (forall peer error_code now election_timeout last_response_timestamp
        wait_caughtup_ret n' run,
        on_caughtup_at p n peer error_code (Some d) now election_timeout
          last_response_timestamp wait_caughtup_ret = Some (n', run) ->
        (run = None /\ handoffs n' d = S (handoffs n d))
        \/ (run = Some (d, error_code) /\ handoffs n' d = handoffs n d))
  /\ (forall data old_peers peer add_replicator_ret wait_caughtup_ret,
        apply_at initialised n data (Some d) = Some (apply n data (Some d))
        /\ add_peer_at initialised n old_peers peer (Some d)
             add_replicator_ret wait_caughtup_ret
           = Some (add_peer n old_peers peer (Some d) add_replicator_ret
                     wait_caughtup_ret)
        /\ remove_peer_at initialised n old_peers peer (Some d)
           = Some (remove_peer n old_peers peer (Some d))
        /\ snapshot_at initialised n (Some d) = Some (snapshot n (Some d)))
  /\ (_state n <> LEADER -> fsm_caller_set p = false ->
      forall data old_peers peer add_replicator_ret wait_caughtup_ret,
        apply_at p n data (Some d) = None
        /\ add_peer_at p n old_peers peer (Some d) add_replicator_ret
             wait_caughtup_ret = None
        /\ remove_peer_at p n old_peers peer (Some d) = None
        /\ snapshot_at p n (Some d) = None).
Proof.
  split; [| split; [| split; [| split; [| split; [| split]]]]].
  - intros data n' H. unfold apply_at in H.
    apply bind_Some in H as (_ & _ & [= <-]). unfold apply.
    repeat match goal with
      | |- context [if ?b then _ else _] => destruct b
      end; first [apply handoffs_cleared | apply handoffs_append].
  - intros old_peers peer a w n' H. unfold add_peer_at in H.
    apply bind_Some in H as (_ & _ & [= <-]). unfold add_peer.
    repeat match goal with
      | |- context [if ?b then _ else _] => destruct b
      end; try apply handoffs_cleared.
    + destruct n. unfold handoffs. node_simpl.
      rewrite filter_app, length_app, filter_cons, decide_True by reflexivity.
      cbn. lia.
    + destruct n. unfold handoffs. node_simpl.
      cbn [Replicators.wait_caughtup Replicators.add_replicator
             caughtup_waits].
      rewrite (filter_app _ (caughtup_waits _)), length_app, filter_cons,
        decide_True by reflexivity.
      cbn. lia.
  - intros old_peers peer n' H. unfold remove_peer_at in H.
    apply bind_Some in H as (_ & _ & [= <-]). unfold remove_peer.
    repeat match goal with
      | |- context [if ?b then _ else _] => destruct b
      end; first [apply handoffs_cleared | apply handoffs_append].
  - intros n' H. unfold snapshot_at in H.
    apply bind_Some in H as (_ & _ & [= <-]). unfold snapshot.
    repeat match goal with
      | |- context [if ?b then _ else _] => destruct b
      end; try apply handoffs_cleared.
    destruct n. unfold handoffs. node_simpl.
    rewrite filter_app, length_app, filter_cons, decide_True by reflexivity.
    cbn. lia.
  - intros peer error_code now election_timeout last_response_timestamp
      wait_caughtup_ret n' run H. unfold on_caughtup_at in H.
    apply bind_Some in H as (_ & _ & H). revert H. unfold on_caughtup.
    cbn [mbind option_bind].
    repeat match goal with
      | |- context [if ?b then _ else _] => destruct b
      end; intros [= <- <-].
    + left. split; [reflexivity | apply handoffs_append].
    + left. split; [reflexivity |].
      destruct n. unfold handoffs. node_simpl.
      cbn [Replicators.wait_caughtup caughtup_waits].
      rewrite (filter_app _ (caughtup_waits _)), length_app, filter_cons,
        decide_True by reflexivity.
      cbn. lia.
    + right. split; [reflexivity |]. destruct n. reflexivity.
    + right. split; [reflexivity |]. destruct n. reflexivity.
  - intros data old_peers peer a w.
    unfold apply_at, add_peer_at, remove_peer_at, snapshot_at,
      append_through, initialised.
    cbn [fsm_caller_set commit_manager_set log_manager_set CHECK].
    repeat split;
      repeat match goal with
        | |- context [if ?b then _ else _] => destruct b
        end; reflexivity.
  - intros Hs Hp data old_peers peer a w.
    unfold apply_at, add_peer_at, remove_peer_at, snapshot_at.
    rewrite Hp, (bool_decide_eq_false_2 _ Hs). cbn [negb CHECK].
    repeat split; try reflexivity.
    destruct (bool_decide (_state n = SHUTDOWN)); reflexivity.
Qed.

(** ** Heartbeats and the election timer *)

(** After a successful AppendEntries the node is a follower of the
    request's term that has just heard from its leader. *)
Lemma append_entries_success_follower parse n now buf request response
    ret n' buf' response' :
  handle_append_entries_request parse n now buf request response
  = Some (ret, n', buf', response') ->
  ret = 0 ->
  aer_success response' = true ->
  _state n' = FOLLOWER
  /\ _current_term n' = ae_term request
  /\ _last_leader_timestamp n' = now.
Proof.
  unfold handle_append_entries_request, append_entries_do.
  forget_step_down. intros H Hret Hsucc.
  destruct (parse (ae_server_id request)) as [server_id |];
    [| injection H as <- _ _ _; discriminate Hret].
  apply bind_Some in H as ([[success n1] buf1] & Hbody & H).
  injection H as _ <- _ <-. cbn [aer_success] in Hsucc. subst success.
  node_simpl.
  assert (Hframe : _state n1 = FOLLOWER /\ _current_term n1 = ae_term request).
  { destruct Hsd.
    destruct (Z.ltb_spec (ae_term request) (_current_term n));
      [discriminate Hbody |].
    destruct (Z.ltb_spec (_current_term n) (ae_term request));
      destruct (bool_decide (_state n = FOLLOWER)) eqn:Hfol;
      cbn [negb orb] in Hbody;
      try apply bool_decide_eq_true in Hfol;
      split_handler Hbody; try discriminate Hbody;
      injection Hbody as <- _;
      match goal with
      | Hl : append_entries_loop _ _ _ _ _ _ = Some _ |- _ =>
          apply append_entries_loop_frame in Hl; destruct Hl
      end;
      match goal with
      | |- context [append_batch ?a ?b] =>
          destruct (append_batch_frame a b)
      end; node_simpl; split; try congruence; lia. }
  tauto.
Qed.

(** X19: a heartbeat holds the election back.  After an AppendEntries
    request was answered with success at time [now], an election timeout
    that fires less than [election_timeout] later only re-arms the timer: the
    node stays a follower, in its term and with its vote, and sends no
    RequestVote. *)
Theorem heartbeat_suppresses_election parse to_string channel_init
    add_replicator_ret leader_start n now buf request response ret n' buf'
    response' vote_ctx now' election_timeout :
  handle_append_entries_request parse n now buf request response
  = Some (ret, n', buf', response') ->
  ret = 0 ->
  aer_success response' = true ->
  Int64.sub now' now < election_timeout ->
  handle_election_timeout to_string channel_init add_replicator_ret
    leader_start n' vote_ctx now' election_timeout
  = Some (set_election_timer (AddRef n') true, vote_ctx, []).
Proof.
  intros H Hret Hsucc Hnow.
  destruct (append_entries_success_follower _ _ _ _ _ _ _ _ _ _ H Hret Hsucc)
    as (Hs & _ & Ht).
  unfold handle_election_timeout.
  rewrite bool_decide_eq_true_2 by exact Hs. cbn [negb]. rewrite Ht.
  destruct (Z.ltb_spec (Int64.sub now' now) election_timeout); [| lia].
  reflexivity.
Qed.

Lemma heartbeat_suppresses_election_witness :
  let n := Sample.follower 3 [Sample.pA; Sample.pB] 1 [] in
  let request := mkAppendEntriesRequest "B" 3 0 0 [] 0 in
  exists n',
    handle_append_entries_request Sample.parse n 50 [] request
      Sample.append_response0
    = Some (0, n', [], mkAppendEntriesResponse 3 true 0)
    /\ handle_election_timeout (fun _ => "A") (fun _ => 0) (fun _ => 0) None
         n' Votes.reset 120 100
       = Some (set_election_timer (AddRef n') true, Votes.reset, []).
Proof.
  intros n request.
  destruct (handle_append_entries_request Sample.parse n 50 [] request
              Sample.append_response0)
    as [[[[ret n'] buf'] response'] |] eqn:H;
    [| vm_compute in H; discriminate H].
  assert (ret = 0 /\ buf' = [] /\ response' = mkAppendEntriesResponse 3 true 0)
    as (-> & -> & ->)
    by (vm_compute in H; injection H as <- _ <- <-; repeat split).
  exists n'. split; [reflexivity |].
  apply (heartbeat_suppresses_election Sample.parse (fun _ => "A")
           (fun _ => 0) (fun _ => 0) None n 50 [] request
           Sample.append_response0 0 n' [] _ Votes.reset 120 100 H);
    [reflexivity | reflexivity | vm_compute; reflexivity].
Defined.

(** ** Invariants of the entry points *)

Lemma kept_refl n : kept n n.
Proof. by split. Qed.

Lemma kept_trans n1 n2 n3 : kept n1 n2 -> kept n2 n3 -> kept n1 n3.
Proof. intros [] []. split; congruence. Qed.

Lemma kept_preserved n n' : kept n n' -> preserved n n'.
Proof.
  intros [Hid Hst Hterm Hv Hl Hss]. unfold preserved, persisted, role_ok.
  split; [exact Hid |]. split; [congruence |].
  split; [intros _; left; lia |].
  intros _ [HL HC]. split; intros Hs.
  - rewrite Hl, Hid. apply HL. congruence.
  - rewrite Hv, Hid. apply HC. congruence.
Qed.

(** A call that leaves the node a follower keeps the roles' invariant for
    free. *)
Lemma follower_preserved n n' :
  _server_id n' = _server_id n ->
  _state n' = FOLLOWER ->
  (persisted n -> persisted n') ->
  _current_term n <= _current_term n' ->
  preserved n n'.
Proof.
  intros Hid Hs Hp Ht. unfold preserved, role_ok.
  split; [exact Hid |]. split; [exact Hp |].
  split; [intros _; left; exact Ht |].
  intros _ _. split; intros Hs'; congruence.
Qed.

Lemma stepped_down_persisted n term n' :
  stepped_down n term n' -> persisted n'.
Proof. intros []. unfold persisted. congruence. Qed.

Lemma kept_append n entry done : kept n (append n entry done).
Proof. destruct (append_spec n entry done). by split. Qed.

Lemma kept_fsm_caller n calls : kept n (set_fsm_caller n calls).
Proof. by split. Qed.

Lemma apply_kept n data done : kept n (apply n data done).
Proof.
  unfold apply.
  repeat match goal with
    | |- context [if ?b then _ else _] => destruct b
    end; first [apply kept_fsm_caller | apply kept_append].
Qed.

Lemma add_peer_kept n old_peers peer done a w :
  kept n (add_peer n old_peers peer done a w).
Proof.
  unfold add_peer.
  repeat match goal with
    | |- context [if ?b then _ else _] => destruct b
    end; by split.
Qed.

Lemma remove_peer_kept n old_peers peer done :
  kept n (remove_peer n old_peers peer done).
Proof.
  unfold remove_peer.
  repeat match goal with
    | |- context [if ?b then _ else _] => destruct b
    end; first [apply kept_fsm_caller | apply kept_append].
Qed.

Lemma snapshot_kept n done : kept n (snapshot n done).
Proof.
  unfold snapshot.
  repeat match goal with
    | |- context [if ?b then _ else _] => destruct b
    end; by split.
Qed.

Lemma on_snapshot_load_done_kept n n' :
  on_snapshot_load_done n = Some n' -> kept n n'.
Proof.
  destruct n. unfold on_snapshot_load_done. node_simpl. intros H.
  apply bind_Some in H as (meta & _ & H). node_simpl.
  inv_handler H; by split.
Qed.

Lemma on_snapshot_save_done_kept n index writer ret n' writer' :
  on_snapshot_save_done n index writer = Some (ret, n', writer') -> kept n n'.
Proof.
  destruct n. unfold on_snapshot_save_done, CHECK. node_simpl. intros H.
  inv_handler H; by split.
Qed.

Lemma kept_Release n : kept n (Release n).
Proof. by split. Qed.

Lemma InstallSnapshotDone_Run_kept n err_code response n' response' :
  InstallSnapshotDone_Run n err_code response = Some (n', response') ->
  kept n n'.
Proof.
  unfold InstallSnapshotDone_Run. intros H.
  apply bind_Some in H as ([n1 r1] & H1 & H). injection H as <- _.
  apply (kept_trans _ n1); [| apply kept_Release].
  destruct (err_code =? 0).
  - apply bind_Some in H1 as (n2 & H1 & H2). injection H2 as <- _.
    by apply on_snapshot_load_done_kept.
  - injection H1 as <- _. apply kept_refl.
Qed.

Lemma SaveSnapshotDone_Run_kept n err_code meta writer done n' writer' run :
  SaveSnapshotDone_Run n err_code meta writer done = Some (n', writer', run) ->
  kept n n'.
Proof.
  unfold SaveSnapshotDone_Run. intros H.
  apply bind_Some in H as ([[e n1] w1] & H1 & H).
  apply bind_Some in H as (d & _ & H). injection H as <- _ _.
  apply (kept_trans _ n1); [| apply kept_Release].
  destruct (err_code =? 0).
  - apply bind_Some in H1 as (w & _ & H1).
    apply bind_Some in H1 as ([[ret n2] w2] & H1 & H2).
    injection H2 as _ <- _. by eapply on_snapshot_save_done_kept.
  - injection H1 as _ <- _. apply kept_refl.
Qed.

Lemma on_caughtup_kept n peer error_code done now election_timeout
    last_response_timestamp wait_caughtup_ret n' run :
  on_caughtup n peer error_code done now election_timeout
    last_response_timestamp wait_caughtup_ret = Some (n', run) ->
  kept n n'.
Proof.
  unfold on_caughtup. intros H.
  repeat match type of H with
    | context [if ?b then _ else _] => destruct b
    end;
    try (apply bind_Some in H as (d & _ & H));
    injection H as <- _; first [apply kept_append | by split].
Qed.

Lemma preserved_refl n : preserved n n.
Proof. apply kept_preserved, kept_refl. Qed.

(** A call that steps down, to a term that is not older. *)
Lemma stepped_down_preserved n m term n' :
  stepped_down m term n' ->
  _server_id m = _server_id n ->
  _current_term n <= term ->
  preserved n n'.
Proof.
  intros Hsd Hid Ht.
  apply follower_preserved.
  - rewrite (sd_server_id _ _ _ Hsd). exact Hid.
  - exact (sd_state _ _ _ Hsd).
  - intros _. exact (stepped_down_persisted _ _ _ Hsd).
  - rewrite (sd_current_term _ _ _ Hsd). exact Ht.
Qed.

Lemma Int64_add_1_le x : Int64.in_range (x + 1) -> x <= Int64.add x 1.
Proof. intros H. rewrite Int64_add_in_range by exact H. lia. Qed.

Lemma set_peer_preserved n old_peers new_peers :
  preserved n (set_peer n old_peers new_peers).2.
Proof.
  unfold set_peer. forget_step_down.
  destruct (bool_decide (_state n = SHUTDOWN)); [apply preserved_refl |].
  destruct (Conf.empty (_conf n).2 && (vec_size old_peers =? 0)) eqn:Hb.
  - cbn [snd]. apply andb_true_iff in Hb as [Hb _].
    match goal with
    | H : stepped_down (set_conf _ _) 1 ?x |- preserved _ ?x =>
        pose proof (stepped_down_persisted _ _ _ H) as Hp;
        pose proof (sd_server_id _ _ _ H) as Hid;
        pose proof (sd_state _ _ _ H) as Hst;
        pose proof (sd_current_term _ _ _ H) as Hterm
    end.
    unfold preserved, role_ok.
    split; [exact Hid |]. split; [intros _; exact Hp |].
    split; [intros _; right; split; assumption |].
    intros _ _. split; intros Hs; congruence.
  - repeat match goal with
      | |- context [if ?b then _ else _] => destruct b
      end; cbn [snd]; try apply preserved_refl.
    match goal with
    | H : stepped_down n _ ?x |- preserved _ (set_conf ?x _) =>
        pose proof (stepped_down_persisted _ _ _ H) as Hp;
        pose proof (sd_server_id _ _ _ H) as Hid;
        pose proof (sd_state _ _ _ H) as Hst;
        pose proof (sd_current_term _ _ _ H) as Hterm
    end.
    unfold preserved, role_ok, persisted in *. node_simpl.
    split; [assumption |]. split; [intros _; exact Hp |].
    split; [intros Hr; left; rewrite Hterm; apply Int64_add_1_le; exact Hr |].
    intros _ _. split; intros Hs; congruence.
Qed.

Lemma increase_term_to_preserved n new_term :
  preserved n (increase_term_to n new_term).2.
Proof.
  unfold increase_term_to. forget_step_down.
  destruct (Z.leb_spec new_term (_current_term n)); cbn [snd].
  - apply preserved_refl.
  - eapply stepped_down_preserved; [exact Hsd | reflexivity | lia].
Qed.

Lemma handle_request_vote_request_preserved parse n request response :
  preserved n (handle_request_vote_request parse n request response).1.2.
Proof.
  unfold handle_request_vote_request. forget_step_down.
  destruct (parse (rv_server_id request)) as [candidate_id |];
    cbn [fst snd]; [| apply preserved_refl].
  destruct (is_empty (_leader_id n)); cbn [negb]; [| apply preserved_refl].
  destruct (Z.leb_spec (_current_term n) (rv_term request));
    [| apply preserved_refl].
  destruct (Z.ltb_spec (_current_term n) (rv_term request)).
  - pose proof (stepped_down_persisted _ _ _ Hsd) as Hp.
    destruct Hsd.
    match goal with
    | |- context [if ?b then _ else _] => destruct b
    end; apply follower_preserved; node_simpl; try assumption; try lia;
      intros _; unfold persisted in *; node_simpl;
      unfold Stable.set_votedfor; rewrite ?Hp; cbn [stable_term]; congruence.
  - destruct (is_empty (_voted_id n)) eqn:Hv;
      [| rewrite andb_false_r; apply preserved_refl].
    destruct (log_is_ok n request); cbn [andb]; [| apply preserved_refl].
    apply is_empty_true in Hv.
    unfold preserved, persisted, role_ok. node_simpl.
    split; [reflexivity |].
    split; [intros Hp; rewrite Hp; reflexivity |].
    split; [intros _; left; lia |].
    intros Hid [HL HC]. split; [exact HL |].
    intros Hs. exfalso. apply Hid. rewrite <- (HC Hs). exact Hv.
Qed.

Lemma kept_set_log n lm cm conf :
  kept n (set_conf (set_config_manager (set_log_manager n lm) cm) conf).
Proof. by split. Qed.

Lemma append_entries_loop_kept parse metas :
  forall index n buf acc n' buf' batch,
    append_entries_loop parse metas index n buf acc = Some (n', buf', batch) ->
    kept n n'.
Proof.
  induction metas as [| entry metas IH]; intros index n buf acc n' buf' batch H.
  - cbn in H. injection H as <- _ _. apply kept_refl.
  - cbn [append_entries_loop] in H. split_handler H;
      try discriminate H; apply IH in H;
      try assumption;
      (eapply kept_trans; [| exact H]); apply kept_set_log.
Qed.

Lemma append_batch_kept n entries : kept n (append_batch n entries).2.
Proof.
  unfold append_batch, LogMgr.append_entries.
  destruct (vec_size entries =? 0); [apply kept_refl |].
  destruct (foldl LogMgr.push _ _) as [lm cm]. cbn [Z.eqb snd].
  apply kept_set_log.
Qed.

(** What is left of [preserved] for a node that stays or becomes a follower
    with its server id, and whose term, vote and stable storage are those of
    [m]. *)
Lemma follower_like_preserved n m n' :
  preserved n m ->
  _state m = FOLLOWER ->
  _server_id n' = _server_id m ->
  _state n' = FOLLOWER ->
  _current_term n' = _current_term m ->
  _voted_id n' = _voted_id m ->
  _stable_storage n' = _stable_storage m ->
  preserved n n'.
Proof.
  intros (Hid & Hp & Ht & _) _ Hid' Hs Ht' Hv Hss.
  unfold preserved, persisted, role_ok in *.
  split; [congruence |]. split; [intros H; specialize (Hp H); congruence |].
  split; [rewrite Ht'; exact Ht |].
  intros _ _. split; intros Hs'; congruence.
Qed.

Lemma handle_append_entries_request_preserved parse n now buf request
    response ret n' buf' response' :
  handle_append_entries_request parse n now buf request response
  = Some (ret, n', buf', response') ->
  preserved n n'.
Proof.
  unfold handle_append_entries_request, append_entries_do.
  forget_step_down. intros H.
  destruct (parse (ae_server_id request)) as [server_id |];
    [| injection H as _ <- _ _; apply preserved_refl].
  apply bind_Some in H as ([[success n1] buf1] & Hbody & H).
  injection H as _ <- _ _.
  assert (Hn1 : preserved n n1).
  { destruct (Z.ltb_spec (ae_term request) (_current_term n));
      [injection Hbody as _ <- _; apply preserved_refl |].
    match type of Hbody with
    | (CHECK (is_null (_loading_snapshot_meta ?x)) ;; _) = _ =>
        assert (Hm : preserved n x /\ _state x = FOLLOWER);
        [| generalize dependent x; intros m Hbody [Hm Hfol]]
    end.
    { destruct (Z.ltb_spec (_current_term n) (ae_term request));
        destruct (bool_decide (_state n = FOLLOWER)) eqn:Hfol;
        cbn [negb orb];
        try apply bool_decide_eq_true in Hfol.
      all: lazymatch goal with
           | Hsd' : stepped_down _ _ ?x
             |- context [is_empty (_leader_id ?x)] =>
               assert (Hsdp : preserved n x)
                 by (eapply stepped_down_preserved;
                     [exact Hsd' | reflexivity | lia]);
               pose proof (sd_state _ _ _ Hsd') as Hsds;
               destruct (is_empty (_leader_id x)); split; try assumption;
               eapply follower_like_preserved; try exact Hsdp;
               node_simpl; try assumption; reflexivity
           | |- context [is_empty (_leader_id ?x)] =>
               destruct (is_empty (_leader_id x)); split; try assumption;
               try apply preserved_refl;
               eapply follower_like_preserved; try apply preserved_refl;
               node_simpl; try assumption; reflexivity
           end. }
    clear Hsd. apply CHECK_Some in Hbody as [_ Hbody].
    split_handler Hbody; try discriminate Hbody;
      try (injection Hbody as _ <- _; exact Hm).
    all: injection Hbody as _ <- _;
      match goal with
      | Hl : append_entries_loop _ _ _ _ _ _ = Some _ |- _ =>
          apply append_entries_loop_kept in Hl; destruct Hl
      end;
      match goal with
      | |- context [append_batch ?a ?b] =>
          destruct (append_batch_kept a b)
      end;
      eapply follower_like_preserved; try exact Hm; try exact Hfol;
      congruence. }
  destruct success; [| exact Hn1].
  destruct Hn1 as (Hid & Hp & Ht & Hr).
  unfold preserved, persisted, role_ok in *. node_simpl. auto.
Qed.

Lemma handle_install_snapshot_request_preserved parse n request response
    writer copy_ret ret n' response' ran :
  handle_install_snapshot_request parse n request response writer copy_ret
  = Some (ret, n', response', ran) ->
  preserved n n'.
Proof.
  unfold handle_install_snapshot_request. forget_step_down. intros H.
  destruct (parse (is_server_id request)) as [server_id |];
    [| injection H as _ <- _ _; apply preserved_refl].
  destruct (negb (is_null (_loading_snapshot_meta n)));
    [injection H as _ <- _ _; apply preserved_refl |].
  destruct (Z.ltb_spec (is_term request) (_current_term n));
    [injection H as _ <- _ _; apply preserved_refl |].
  assert (Hsdp : preserved n sd)
    by (eapply stepped_down_preserved; [exact Hsd | reflexivity | lia]).
  pose proof (sd_state _ _ _ Hsd) as Hsds. clear Hsd.
  destruct (Z.ltb_spec (_current_term n) (is_term request));
    destruct (bool_decide (_state n = FOLLOWER)) eqn:Hfol;
    cbn [negb orb] in H;
    try apply bool_decide_eq_true in Hfol;
    inv_handler H;
    first [ eapply follower_like_preserved; try exact Hsdp;
            node_simpl; try assumption; reflexivity
          | eapply follower_like_preserved; try apply preserved_refl;
            node_simpl; try assumption; reflexivity ].
Qed.

Lemma on_configuration_change_done_preserved n type new_peers :
  preserved n (on_configuration_change_done n type new_peers).
Proof.
  unfold on_configuration_change_done. forget_step_down.
  rewrite stop_replicators_loop.
  repeat match goal with
    | |- context [if ?b then _ else _] => destruct b
    end; try (apply kept_preserved; by split).
  apply (follower_like_preserved n sd).
  - eapply stepped_down_preserved; [exact Hsd | reflexivity |].
    cbn. lia.
  - exact (sd_state _ _ _ Hsd).
  - reflexivity.
  - exact (sd_state _ _ _ Hsd).
  - reflexivity.
  - reflexivity.
  - reflexivity.
Qed.

Lemma handle_stepdown_timeout_preserved n now election_timeout
    last_response_timestamp :
  preserved n
    (handle_stepdown_timeout n now election_timeout last_response_timestamp).
Proof.
  unfold handle_stepdown_timeout. forget_step_down.
  repeat match goal with
    | |- context [if ?b then _ else _] => destruct b
    end; try apply preserved_refl.
  - apply kept_preserved. by split.
  - eapply stepped_down_preserved; [exact Hsd | reflexivity | lia].
Qed.

(** A node that [become_leader] has made leader. *)
Lemma became_leader_preserved n m n' :
  became_leader m n' ->
  _server_id m = _server_id n ->
  (persisted n -> persisted m) ->
  (Int64.in_range (_current_term n + 1) ->
   _current_term n <= _current_term m) ->
  preserved n n'.
Proof.
  intros Hb Hid Hp Ht. unfold preserved, persisted, role_ok in *.
  rewrite (bl_server_id _ _ Hb), (bl_stable_storage _ _ Hb),
    (bl_current_term _ _ Hb), (bl_voted_id _ _ Hb), (bl_leader_id _ _ Hb),
    (bl_state _ _ Hb).
  split; [exact Hid |]. split; [exact Hp |].
  split; [intros Hr; left; exact (Ht Hr) |].
  intros _ _. split; [intros _; reflexivity | discriminate].
Qed.

Lemma request_votes_kept to_string channel_init n peers :
  kept n (request_votes to_string channel_init n peers).1.
Proof. rewrite request_votes_spec. by split. Qed.

Lemma elect_self_preserved to_string channel_init add_replicator_ret
    leader_start n vote_ctx n' vote_ctx' sent :
  elect_self to_string channel_init add_replicator_ret leader_start n
    vote_ctx = Some (n', vote_ctx', sent) ->
  preserved n n'.
Proof.
  unfold elect_self. rewrite request_votes_spec.
  set (n0 := if bool_decide (_state n = FOLLOWER) then _ else n).
  assert (H0 : _server_id n0 = _server_id n
               /\ _current_term n0 = _current_term n).
  { subst n0.
    repeat match goal with
      | |- context [if ?b then _ else _] => destruct b
      end; split; reflexivity. }
  destruct H0 as [Hid0 Ht0]. clearbody n0.
  match goal with
  | |- context [if _ then become_leader _ _ ?x ≫= _ else _] =>
      assert (Hm : _server_id x = _server_id n
                   /\ _state x = CANDIDATE
                   /\ _current_term x = Int64.add (_current_term n) 1
                   /\ _voted_id x = _server_id n
                   /\ persisted x);
      [| generalize dependent x; intros m (Hid & Hs & Ht & Hv & Hp) H]
  end.
  { unfold persisted. destruct n0. node_simpl. subst.
    repeat split; reflexivity. }
  assert (Hcand : preserved n m).
  { unfold preserved, role_ok.
    split; [exact Hid |]. split; [intros _; exact Hp |].
    split; [intros Hr; left; rewrite Ht; apply Int64_add_1_le; exact Hr |].
    intros _ _. split; [congruence | intros _; congruence]. }
  destruct (Votes.quorum _).
  - apply bind_Some in H as (n1 & Hb & H). injection H as <- _ _.
    apply become_leader_inv in Hb as [_ Hb].
    eapply became_leader_preserved; [exact Hb | exact Hid | |].
    + intros _. exact Hp.
    + intros Hr. rewrite Ht. apply Int64_add_1_le. exact Hr.
  - injection H as <- _ _. exact Hcand.
Qed.

Lemma handle_election_timeout_preserved to_string channel_init
    add_replicator_ret leader_start n vote_ctx now election_timeout n'
    vote_ctx' sent :
  handle_election_timeout to_string channel_init add_replicator_ret
    leader_start n vote_ctx now election_timeout
  = Some (n', vote_ctx', sent) ->
  preserved n n'.
Proof.
  unfold handle_election_timeout. intros H.
  destruct (negb (bool_decide (_state n = FOLLOWER)));
    [injection H as <- _ _; apply preserved_refl |].
  destruct (Int64.sub now (_last_leader_timestamp n) <? election_timeout).
  - injection H as <- _ _. apply kept_preserved. by split.
  - by eapply elect_self_preserved.
Qed.

Lemma handle_vote_timeout_preserved to_string channel_init add_replicator_ret
    leader_start n vote_ctx n' vote_ctx' sent :
  handle_vote_timeout to_string channel_init add_replicator_ret leader_start
    n vote_ctx = Some (n', vote_ctx', sent) ->
  preserved n n'.
Proof.
  unfold handle_vote_timeout. intros H.
  destruct (bool_decide (_state n = CANDIDATE)).
  - by eapply elect_self_preserved.
  - injection H as <- _ _. apply preserved_refl.
Qed.

Lemma handle_request_vote_response_preserved add_replicator_ret leader_start
    n vote_ctx peer_id term response n' vote_ctx' :
  handle_request_vote_response add_replicator_ret leader_start n vote_ctx
    peer_id term response = Some (n', vote_ctx') ->
  preserved n n'.
Proof.
  unfold handle_request_vote_response. forget_step_down. intros H.
  destruct (negb (bool_decide (_state n = CANDIDATE)));
    [injection H as <- _; apply preserved_refl |].
  destruct (negb (term =? _current_term n));
    [injection H as <- _; apply preserved_refl |].
  destruct (Z.ltb_spec (_current_term n) (rvr_term response)).
  { injection H as <- _.
    eapply stepped_down_preserved; [exact Hsd | reflexivity | lia]. }
  destruct (rvr_granted response);
    [| injection H as <- _; apply preserved_refl].
  destruct (Votes.quorum _); [| injection H as <- _; apply preserved_refl].
  apply bind_Some in H as (n1 & Hb & H). injection H as <- _.
  apply become_leader_inv in Hb as [_ Hb].
  eapply became_leader_preserved; [exact Hb | reflexivity | auto | lia].
Qed.

Lemma shutdown_preserved (nodes : gmap NodeId NodePtr) node_id n
    snapshot_timer done :
  preserved n (shutdown nodes node_id n snapshot_timer done).1.1.2.
Proof.
  unfold shutdown. cbn [fst snd]. forget_step_down.
  set (n1 := if negb (bool_decide (_state n = FOLLOWER)) then sd else n).
  assert (H1 : _server_id n1 = _server_id n
               /\ (persisted n -> persisted n1)
               /\ _current_term n1 = _current_term n).
  { subst n1. pose proof (stepped_down_persisted _ _ _ Hsd).
    pose proof (sd_server_id _ _ _ Hsd).
    pose proof (sd_current_term _ _ _ Hsd).
    destruct (negb (bool_decide (_state n = FOLLOWER))); auto. }
  destruct H1 as (Hid & Hp & Ht). clearbody n1. clear Hsd.
  unfold preserved, persisted, role_ok in *.
  destruct n1. node_simpl.
  repeat match goal with
    | |- context [if ?b then _ else _] => destruct b
    end; node_simpl;
    (split; [exact Hid |]); (split; [exact Hp |]);
    (split; [intros _; left; lia |]);
    intros _ _; split; discriminate.
Qed.

(** Every entry point keeps [preserved]. *)
Lemma entry_point_preserved parse n n' :
  entry_point parse n n' -> preserved n n'.
Proof.
  intros []; eauto using
    kept_preserved, apply_kept, add_peer_kept, remove_peer_kept,
    snapshot_kept, on_snapshot_load_done_kept, on_snapshot_save_done_kept,
    InstallSnapshotDone_Run_kept, SaveSnapshotDone_Run_kept, on_caughtup_kept,
    set_peer_preserved, increase_term_to_preserved,
    handle_request_vote_request_preserved,
    handle_append_entries_request_preserved,
    handle_install_snapshot_request_preserved,
    on_configuration_change_done_preserved,
    handle_stepdown_timeout_preserved, handle_election_timeout_preserved,
    handle_vote_timeout_preserved, handle_request_vote_response_preserved,
    shutdown_preserved.
Qed.

Lemma entry_points_server_id parse n n' :
  rtc (entry_point parse) n n' -> _server_id n' = _server_id n.
Proof.
  induction 1 as [| n1 n2 n3 Hstep _ IH]; [reflexivity |].
  rewrite IH. apply (entry_point_preserved parse n1 n2 Hstep).
Qed.

(** X20: what is in stable storage is the term and the vote the node has in
    memory, after any sequence of calls of the entry points on a node for
    which this held at the start. *)
Theorem stable_storage_in_sync parse n n' :
  rtc (entry_point parse) n n' ->
  persisted n ->
  persisted n'.
Proof.
  induction 1 as [| n1 n2 n3 Hstep _ IH]; [auto |].
  intros Hp. apply IH.
  apply (entry_point_preserved parse n1 n2 Hstep). exact Hp.
Qed.

Lemma stable_storage_in_sync_witness :
  persisted
    (handle_request_vote_request Sample.parse
       (Sample.follower 3 [Sample.pA; Sample.pB] 1 [])
       (mkRequestVoteRequest "B" 4 0 0) Sample.vote_response0).1.2.
Proof.
  apply (stable_storage_in_sync Sample.parse
           (Sample.follower 3 [Sample.pA; Sample.pB] 1 [])).
  - apply rtc_once. apply ep_request_vote.
  - reflexivity.
Defined.

(** X21: no entry point lowers the term, with one exception: [set_peer] on
    a node without configuration, which sets the term to 1. *)
Theorem term_monotone_but_bootstrap parse n n' :
  entry_point parse n n' ->
  Int64.in_range (_current_term n + 1) ->
  _current_term n <= _current_term n'
  \/ (Conf.empty (_conf n).2 = true /\ _current_term n' = 1).
Proof.
  intros Hstep Hr.
  apply (entry_point_preserved parse n n' Hstep). exact Hr.
Qed.

Lemma term_monotone_but_bootstrap_witness :
  let n := Sample.follower 3 [Sample.pA; Sample.pB] 1 [] in
  _current_term n
  <= _current_term (handle_request_vote_request Sample.parse n
                      (mkRequestVoteRequest "B" 4 0 0)
                      Sample.vote_response0).1.2
  \/ (Conf.empty (_conf n).2 = true
      /\ _current_term (handle_request_vote_request Sample.parse n
                          (mkRequestVoteRequest "B" 4 0 0)
                          Sample.vote_response0).1.2 = 1).
Proof.
  intros n.
  apply (term_monotone_but_bootstrap Sample.parse n).
  - apply ep_request_vote.
  - vm_compute. split; discriminate.
Defined.

(** X22: a leader knows itself as the leader and a candidate holds its own
    vote, after any sequence of calls of the entry points on a node whose
    server id is not the empty peer and for which this held at the start. *)
Theorem roles_consistent parse n n' :
  rtc (entry_point parse) n n' ->
  _server_id n <> empty_peer ->
  role_ok n ->
  role_ok n'.
Proof.
  induction 1 as [| n1 n2 n3 Hstep Hrest IH]; [auto |].
  intros Hid Hr. apply IH.
  - rewrite (proj1 (entry_point_preserved parse n1 n2 Hstep)). exact Hid.
  - apply (entry_point_preserved parse n1 n2 Hstep); assumption.
Qed.

Lemma roles_consistent_witness :
  role_ok (handle_stepdown_timeout (Sample.lone_leader 4) 0 100 (fun _ => 0)).
Proof.
  apply (roles_consistent Sample.parse (Sample.lone_leader 4)).
  - apply rtc_once. apply ep_stepdown_timeout.
  - discriminate.
  - split; [reflexivity | discriminate].
Defined.

(** ** A node in SHUTDOWN *)

(** X23: on a node in SHUTDOWN the client calls [apply], [snapshot],
    [add_peer] and [remove_peer] go through [_fsm_caller]: they return
    exactly when it exists, which it does not on a node as the constructor
    leaves it, and then they only report an error ([apply] and [snapshot]
    EINVAL, [add_peer] and [remove_peer] EPERM); [set_peer] returns EINVAL,
    and the timer callbacks and vote answers do nothing; but the state is not
    final for the RPC handlers: an AppendEntries request that is not of an
    older term, once answered, has made the node a follower again. *)
Theorem shutdown_state p n :
  _state n = SHUTDOWN ->
  let cleared done e :=
    if fsm_caller_set p
    then Some (set_fsm_caller n (_fsm_caller n ++ [on_cleared 0 done e]))
    else None in
  (forall data done, apply_at p n data done = cleared done EINVAL)
  /\ (forall done, snapshot_at p n done = cleared done EINVAL)
  /\ (forall old_peers new_peers, set_peer n old_peers new_peers = (EINVAL, n))
  /\ (forall old_peers peer done a w,
        add_peer_at p n old_peers peer done a w = cleared done EPERM)
  /\ (forall old_peers peer done,
        remove_peer_at p n old_peers peer done = cleared done EPERM)
  /\ (forall now election_timeout last_response_timestamp,
        handle_stepdown_timeout n now election_timeout last_response_timestamp
        = n)
  /\ (forall to_string channel_init add_replicator_ret leader_start vote_ctx
        now election_timeout,
        handle_election_timeout to_string channel_init add_replicator_ret
          leader_start n vote_ctx now election_timeout
        = Some (n, vote_ctx, [])
        /\ handle_vote_timeout to_string channel_init add_replicator_ret
             leader_start n vote_ctx = Some (n, vote_ctx, []))
  /\ (forall add_replicator_ret leader_start vote_ctx peer_id term response,
        handle_request_vote_response add_replicator_ret leader_start n
          vote_ctx peer_id term response = Some (n, vote_ctx))
  /\ (forall parse now buf request response server_id ret n' buf' response',
        parse (ae_server_id request) = Some server_id ->
        _current_term n <= ae_term request ->
        handle_append_entries_request parse n now buf request response
        = Some (ret, n', buf', response') ->
        _state n' = FOLLOWER /\ _current_term n' = ae_term request).
Proof.
  intros Hs cleared. subst cleared.
  unfold apply_at, snapshot_at, add_peer_at, remove_peer_at,
    apply, snapshot, set_peer, add_peer, remove_peer,
    handle_stepdown_timeout, handle_election_timeout, handle_vote_timeout,
    handle_request_vote_response.
  rewrite Hs. cbn [negb].
  rewrite !bool_decide_eq_true_2 by reflexivity.
  rewrite !bool_decide_eq_false_2 by discriminate. cbn [negb].
  repeat (split;
          [solve [intros; repeat split; destruct (fsm_caller_set p);
                  reflexivity] |]).
  intros parse now buf request response server_id ret n' buf' response'
    Hp Ht.
  unfold handle_append_entries_request, append_entries_do. rewrite Hp.
  forget_step_down. intros H.
  apply bind_Some in H as ([[success n1] buf1] & Hbody & H).
  injection H as _ <- _ _.
  destruct (Z.ltb_spec (ae_term request) (_current_term n)); [lia |].
  rewrite Hs in Hbody.
  rewrite bool_decide_eq_false_2 in Hbody by discriminate.
  rewrite orb_true_r in Hbody.
  pose proof (sd_state _ _ _ Hsd) as Hst.
  pose proof (sd_current_term _ _ _ Hsd) as Hterm. clear Hsd.
  assert (Hn1 : _state n1 = FOLLOWER /\ _current_term n1 = ae_term request).
  { split_handler Hbody; try discriminate Hbody;
      try (injection Hbody as _ <- _; node_simpl; split; assumption).
    all: injection Hbody as _ <- _;
      match goal with
      | Hl : append_entries_loop _ _ _ _ _ _ = Some _ |- _ =>
          apply append_entries_loop_kept in Hl; destruct Hl
      end;
      match goal with
      | |- context [append_batch ?a ?b] =>
          destruct (append_batch_kept a b)
      end; node_simpl; split; congruence. }
  destruct success; node_simpl; exact Hn1.
Qed.

Lemma shutdown_state_witness :
  let n := set_state (Sample.follower 3 [Sample.pA; Sample.pB] 1 []) SHUTDOWN in
  apply_at initialised n [] None
  = Some (set_fsm_caller n (_fsm_caller n ++ [on_cleared 0 None EINVAL]))
  /\ apply_at constructed n [] None = None.
Proof.
  intros n. split.
  - exact (proj1 (shutdown_state initialised n eq_refl) [] None).
  - exact (proj1 (shutdown_state constructed n eq_refl) [] None).
Defined.

(** ** [apply] *)

(** An entry that is no configuration entry leaves the configuration alone,
    provided the node runs with the last configuration of the log. *)
Lemma append_plain_entry_conf n entry done :
  LogMgr.is_conf_entry entry = false ->
  (_conf n).1 = (ConfigManager.last_configuration (_config_manager n)).1 ->
  _conf (append n entry done) = _conf n
  /\ _conf_ctx (append n entry done) = _conf_ctx n.
Proof.
  intros Hc Hi.
  destruct n as [? ? ? ? ? conf ? ? ? ? ? ? ? lm cm cmt ? ? ? ? ? ? ?].
  unfold append, LogMgr.append_entry, LogMgr.push. rewrite Hc.
  unfold LogMgr.is_conf_entry in Hc. node_simpl.
  replace (negb (negb (bool_decide (entry_type entry = ENTRY_TYPE_ADD_PEER))
                 && negb (bool_decide (entry_type entry = ENTRY_TYPE_REMOVE_PEER))))
    with false
    by (destruct (bool_decide (entry_type entry = ENTRY_TYPE_ADD_PEER)),
          (bool_decide (entry_type entry = ENTRY_TYPE_REMOVE_PEER));
        cbn in *; congruence).
  node_simpl. unfold LogMgr.check_and_set_configuration.
  rewrite bool_decide_eq_true_2 by exact Hi.
  node_simpl. split; reflexivity.
Qed.

(** X24: [apply] on a leader appends one entry to the log: a data entry of
    the leader's term that carries the payload, under the index after the
    last one; the closure is registered with the commit manager under the
    current peers; and the configuration is not touched when the node runs
    with the last configuration of the log.  On any other node [apply]
    leaves the log alone. *)
Theorem apply_appends n data done :
  let n' := apply n data done in
  (_state n = LEADER ->
   lm_logs (_log_manager n')
   = lm_logs (_log_manager n)
     ++ [mkLogEntry (LogMgr.last_log_index (_log_manager n) + 1)
           (_current_term n) ENTRY_TYPE_DATA None data]
   /\ LogMgr.last_log_index (_log_manager n')
      = LogMgr.last_log_index (_log_manager n) + 1
   /\ last (pending_apps (_commit_manager n')) = Some ((_conf n).2, done)
   /\ _state n' = LEADER
   /\ _current_term n' = _current_term n
   /\ ((_conf n).1
       = (ConfigManager.last_configuration (_config_manager n)).1 ->
       _conf n' = _conf n /\ _conf_ctx n' = _conf_ctx n))
  /\ (_state n <> LEADER ->
      _log_manager n' = _log_manager n
      /\ _commit_manager n' = _commit_manager n
      /\ _conf n' = _conf n).
Proof.
  unfold apply. cbv zeta. split.
  - intros Hs. rewrite Hs.
    rewrite bool_decide_eq_false_2 by discriminate.
    rewrite bool_decide_eq_true_2 by reflexivity. cbn [negb app].
    match goal with
    | |- context [append n ?e done] =>
        pose proof (append_spec n e done) as Ha;
        pose proof (append_plain_entry_conf n e done eq_refl) as Hc;
        generalize dependent (append n e done); intros a Ha Hc
    end.
    cbn [entry_term entry_type entry_peers entry_data LogMgr.is_conf_entry
           bool_decide decide_rel orb] in Ha.
    split; [exact (ap_logs _ _ _ _ Ha) |].
    split.
    { unfold LogMgr.last_log_index.
      rewrite (ap_logs _ _ _ _ Ha), (ap_first_log_index _ _ _ _ Ha),
        length_app.
      cbn [length]. lia. }
    split.
    { rewrite (ap_pending_apps _ _ _ _ Ha), last_snoc. reflexivity. }
    split; [rewrite (ap_state _ _ _ _ Ha); exact Hs |].
    split; [exact (ap_current_term _ _ _ _ Ha) | exact Hc].
  - intros Hs. rewrite (bool_decide_eq_false_2 (_state n = LEADER)) by exact Hs.
    cbn [negb]. destruct (bool_decide (_state n = SHUTDOWN));
      destruct n; repeat split.
Qed.

(** ** A fresh leader *)

(** The replicators that the loop of [become_leader] starts. *)
Lemma add_replicators_loop (add_replicator_ret : PeerId -> Z) peers :
  forall n,
    _replicator_group
      (foldl (fun n peer =>
                if bool_decide (peer = _server_id n) then n
                else if add_replicator_ret peer =? 0 then
                  set_replicator_group n
                    (Replicators.add_replicator (_replicator_group n) peer)
                else n)
         n peers)
    = mkReplicatorGroup
        (replicators (_replicator_group n)
         ∪ list_to_set
             (filter (fun p => p <> _server_id n /\ add_replicator_ret p = 0)
                peers))
        (caughtup_waits (_replicator_group n)).
Proof.
  induction peers as [| p peers IH]; intros n; cbn [foldl].
  - rewrite filter_nil. cbn [list_to_set]. rewrite (right_id_L ∅ (∪)).
    by destruct (_replicator_group n).
  - rewrite filter_cons.
    destruct (decide (p = _server_id n)) as [-> | Hne].
    + rewrite bool_decide_eq_true_2 by reflexivity.
      rewrite decide_False by tauto. apply IH.
    + rewrite bool_decide_eq_false_2 by exact Hne.
      destruct (Z.eqb_spec (add_replicator_ret p) 0).
      * rewrite decide_True by tauto. rewrite IH. destruct n. node_simpl.
        cbn [Replicators.add_replicator replicators caughtup_waits
               list_to_set].
        f_equal. symmetry. apply (assoc_L (∪)).
      * rewrite decide_False by tauto. apply IH.
Qed.

(** X25: a node that wins its election appends the configuration entry of
    its term, which carries the current peers, as the first entry of its
    leadership, and starts a replicator for every other peer that the
    replicator group accepts.  Until that entry is committed the node has a
    configuration change in flight: [_conf_ctx] holds the peers, and
    [add_peer] and [remove_peer] are refused with EINVAL and EAGAIN. *)
Theorem fresh_leader add_replicator_ret leader_start n :
  _state n = CANDIDATE ->
  (_conf n).2 <> ∅ ->
  (_conf n).1 <> LogMgr.last_log_index (_log_manager n) + 1 ->
  exists n',
    become_leader add_replicator_ret leader_start n = Some n'
    /\ _state n' = LEADER
    /\ _leader_id n' = _server_id n
    /\ _current_term n' = _current_term n
    /\ lm_logs (_log_manager n')
       = lm_logs (_log_manager n)
         ++ [mkLogEntry (LogMgr.last_log_index (_log_manager n) + 1)
               (_current_term n) ENTRY_TYPE_ADD_PEER
               (Some (Conf.peer_vector (_conf n).2)) []]
    /\ replicators (_replicator_group n')
       = replicators (_replicator_group n)
         ∪ list_to_set
             (filter (fun p => p <> _server_id n /\ add_replicator_ret p = 0)
                (Conf.peer_vector (_conf n).2))
    /\ _conf n' = (LogMgr.last_log_index (_log_manager n) + 1, (_conf n).2)
    /\ _conf_ctx n' = Conf.peer_vector (_conf n).2
    /\ (forall old_peers peer done a w,
          add_peer n' old_peers peer done a w
          = set_fsm_caller n' (_fsm_caller n' ++ [on_cleared 0 done EINVAL]))
    /\ (forall old_peers peer done,
          remove_peer n' old_peers peer done
          = set_fsm_caller n' (_fsm_caller n' ++ [on_cleared 0 done EAGAIN])).
Proof.
  intros Hs Hc Hidx.
  destruct (become_leader_spec add_replicator_ret leader_start n Hs Hc)
    as (n' & Hb & Hl).
  exists n'. split; [exact Hb |].
  split; [exact (bl_state _ _ Hl) |]. split; [exact (bl_leader_id _ _ Hl) |].
  split; [exact (bl_current_term _ _ Hl) |]. split; [exact (bl_logs _ _ Hl) |].
  assert (Hrest : replicators (_replicator_group n')
                  = replicators (_replicator_group n)
                    ∪ list_to_set
                        (filter (fun p => p <> _server_id n
                                          /\ add_replicator_ret p = 0)
                           (Conf.peer_vector (_conf n).2))
                  /\ _conf n'
                     = (LogMgr.last_log_index (_log_manager n) + 1,
                        (_conf n).2)
                  /\ _conf_ctx n' = Conf.peer_vector (_conf n).2).
  { clear Hl. revert Hb. unfold become_leader.
    rewrite bool_decide_eq_true_2 by exact Hs.
    cbn [CHECK mbind option_bind].
    match goal with
    | |- context [foldl ?f ?m ?l] =>
        pose proof (add_replicators_loop add_replicator_ret l m) as Hg;
        destruct (add_replicators_frame add_replicator_ret l m) as [g Hf];
        rewrite Hf in Hg |- *; clear Hf
    end.
    destruct n as [me st ? ? ? [ci cs] ? ? ? ? ? ? ? lm ? ? ? ? ? ? vt ? ?].
    node_simpl. subst st.
    destruct vt; cbn [bthread_timer_del Z.eqb] in *; revert Hg; node_eval;
      cbn [fst snd entry_peers default from_option id];
      intros Hg; subst g;
      rewrite peer_vector_nonempty by exact Hc;
      cbn [CHECK mbind option_bind]; intros [= <-];
      match goal with
      | |- context [append ?m ?e ?d] =>
          destruct (append_conf_entry m e d eq_refl Hidx) as [Hconf Hcc];
          pose proof (ap_replicator_group _ _ _ _ (append_spec m e d)) as Hrg;
          generalize dependent (append m e d); intros a Hconf Hcc Hrg
      end;
      cbn [entry_peers default from_option id] in Hconf;
      rewrite of_peers_peer_vector in Hconf;
      destruct a; node_simpl; cbn [fst snd] in *; subst;
      repeat split; reflexivity. }
  destruct Hrest as (Hr & Hconf & Hcc).
  split; [exact Hr |]. split; [exact Hconf |]. split; [exact Hcc |].
  assert (Hne : ConfCtx.empty (_conf_ctx n') = false).
  { unfold ConfCtx.empty. apply bool_decide_eq_false. rewrite Hcc.
    unfold Conf.peer_vector. intros He. apply elements_empty_inv in He.
    apply leibniz_equiv in He. contradiction. }
  split.
  - intros old_peers peer done a w. unfold add_peer.
    rewrite (bl_state _ _ Hl), Hne.
    rewrite bool_decide_eq_true_2 by reflexivity. reflexivity.
  - intros old_peers peer done. unfold remove_peer.
    rewrite (bl_state _ _ Hl), Hne.
    rewrite bool_decide_eq_true_2 by reflexivity. reflexivity.
Qed.

Lemma fresh_leader_witness :
  let n := set_state (Sample.follower 2 [Sample.pA; Sample.pB] 1 [])
             CANDIDATE in
  exists n',
    become_leader (fun _ => 0) None n = Some n'
    /\ _state n' = LEADER
    /\ _conf_ctx n' = Conf.peer_vector (_conf n).2.
Proof.
  intros n.
  destruct (fresh_leader (fun _ => 0) None n)
    as (n' & H & Hs & _ & _ & _ & _ & _ & Hc & _);
    [reflexivity | vm_compute; discriminate | vm_compute; discriminate |].
  exists n'. split; [exact H |]. split; [exact Hs | exact Hc].
Defined.

(** ** An install that overtakes a save *)

Lemma install_snapshot_keeps_saving parse n request response writer copy_ret
    ret n' response' ran :
  handle_install_snapshot_request parse n request response writer copy_ret
  = Some (ret, n', response', ran) ->
  _snapshot_saving n' = _snapshot_saving n.
Proof.
  unfold handle_install_snapshot_request. forget_step_down. intros H.
  pose proof (sd_snapshot_saving _ _ _ Hsd) as Hsv. clear Hsd.
  inv_handler H; node_simpl; congruence.
Qed.

(** X26: an install that overtakes a save.  A snapshot is being saved when
    an InstallSnapshot for a later index is accepted, loaded and reported
    done; when the save is then reported done, the node keeps the installed
    snapshot, the writer and the user's closure get ESTALE, and
    [_snapshot_saving] is cleared. *)
Theorem install_supersedes_save parse n request response writer copy_ret n1
    response1 meta w d :
  _snapshot_saving n = true ->
  handle_install_snapshot_request parse n request response writer copy_ret
  = Some (0, n1, response1, false) ->
  Int64.in_range (is_last_included_log_index request + 1) ->
  last_included_index meta <= is_last_included_log_index request ->
  exists n2 response2 n3,
    InstallSnapshotDone_Run n1 0 response1 = Some (n2, response2)
    /\ _snapshot_saving n2 = true
    /\ SaveSnapshotDone_Run n2 0 meta (Some w) (Some d)
       = Some (n3, Some (mkSnapshotWriter ESTALE (writer_save_meta w)),
               (d, ESTALE))
    /\ _last_snapshot_index n3 = is_last_included_log_index request
    /\ _last_snapshot_term n3 = is_last_included_log_term request
    /\ _snapshot_saving n3 = false.
Proof.
  intros Hsv H Hr Hle.
  pose proof (install_snapshot_keeps_saving _ _ _ _ _ _ _ _ _ _ H) as Hsv1.
  destruct (install_snapshot_queued _ _ _ _ _ _ _ _ H)
    as (server_id & m & _ & _ & Hm & Hi & Hterm & Hlast & _).
  destruct (on_snapshot_load_done_beyond_log n1 m Hm)
    as (n' & Hload & Li & Lt & _ & _ & _ & _ & _ & Lsv);
    [lia | rewrite Hi; exact Hr |].
  exists (Release n'), (mkInstallSnapshotResponse (isr_term response1) true).
  unfold InstallSnapshotDone_Run, SaveSnapshotDone_Run. cbn [Z.eqb].
  rewrite Hload. cbn [mbind option_bind].
  unfold on_snapshot_save_done.
  destruct n'. node_simpl. cbn [last_included_index].
  match goal with
  | |- context [last_included_index meta <=? ?x] =>
      destruct (Z.leb_spec (last_included_index meta) x); [| lia]
  end.
  cbn [mbind option_bind]. eexists.
  split; [reflexivity |].
  split; [congruence |].
  split; [reflexivity |].
  node_simpl. repeat split; congruence.
Qed.

Lemma install_supersedes_save_witness :
  let n := set_snapshot_saving
             (Sample.follower 1 [Sample.pA; Sample.pB] 1 [Sample.entry 1 1])
             true in
  let request := mkInstallSnapshotRequest "B" 1 10 1 ["A"; "B"] "uri" in
  exists n1 response1 n2 response2 n3 writer3 run,
    handle_install_snapshot_request Sample.parse n request
      Sample.install_response0 (Some (mkSnapshotWriter 0 0)) 0
    = Some (0, n1, response1, false)
    /\ InstallSnapshotDone_Run n1 0 response1 = Some (n2, response2)
    /\ SaveSnapshotDone_Run n2 0 (mkSnapshotMeta 1 1 ∅)
         (Some (mkSnapshotWriter 0 0)) (Some 7%nat)
       = Some (n3, writer3, run)
    /\ run = (7%nat, ESTALE)
    /\ _last_snapshot_index n3 = 10.
Proof.
  intros n request.
  destruct (handle_install_snapshot_request Sample.parse n request
              Sample.install_response0 (Some (mkSnapshotWriter 0 0)) 0)
    as [[[[ret n1] response1] ran] |] eqn:E; [| discriminate E].
  assert (ret = 0 /\ ran = false) as [-> ->]
    by (injection E as <- _ _ <-; split; reflexivity).
  destruct (install_supersedes_save Sample.parse n request
              Sample.install_response0 (Some (mkSnapshotWriter 0 0)) 0
              n1 response1 (mkSnapshotMeta 1 1 ∅) (mkSnapshotWriter 0 0)
              7%nat eq_refl E)
    as (n2 & response2 & n3 & H2 & _ & H3 & Hi & _).
  { vm_compute. split; discriminate. }
  { vm_compute. discriminate. }
  exists n1, response1, n2, response2, n3. do 2 eexists.
  split; [reflexivity |]. split; [exact H2 |]. split; [exact H3 |].
  split; [reflexivity | exact Hi].
Defined.

(** ** [shutdown] *)

(** The references [step_down] releases and takes: one for a pending vote or
    stepdown timer, one for the disk thread of a leader, and one for the
    election timer it arms. *)
Lemma step_down_ref_count n term :
  _ref_count (step_down n term)
  = _ref_count n
    - (if bool_decide (_state n = CANDIDATE) && _vote_timer n then 1 else 0)
    - (if bool_decide (_state n = LEADER)
       then (if _stepdown_timer n then 1 else 0) + 1 else 0)
    + (if negb (Conf.empty (_conf n).2)
          && Conf.contain (_conf n).2 (_server_id n)
       then 1 else 0).
Proof.
  destruct n as [me st ? ? ? conf ? ? ? ? ? ? ? ? ? ? ? ? ? ? vote_timer stepdown_timer ?].
  destruct st; [destruct stepdown_timer | destruct vote_timer | |];
    unfold step_down, Release, AddRef; cbn -[Conf.empty Conf.contain Z.add Z.sub];
    destruct (negb (Conf.empty conf.2) && Conf.contain conf.2 me);
    cbn -[Z.add Z.sub];
    repeat match goal with
      | |- context [bool_decide (?a = ?b)] =>
          first [ rewrite (bool_decide_eq_true_2 (a = b)) by reflexivity
                | rewrite (bool_decide_eq_false_2 (a = b)) by discriminate ]
      end; cbn [andb]; lia.
Qed.

(** X27: on a node whose collaborators exist [shutdown] returns; it takes
    the node out of the registry and leaves it in SHUTDOWN, in the term it
    had, with the election and the snapshot timer cancelled; a follower
    keeps its vote, while a candidate or a leader is stepped down first.  A
    second [shutdown] returns as well and changes neither the state, the
    term, the timers nor the reference count.  Without the log manager or
    the state-machine caller, and on a node that is not a follower without
    stable storage, [shutdown] does not return: so it is on a node as the
    constructor leaves it. *)
Theorem shutdown_spec (nodes : gmap NodeId NodePtr) id n snapshot_timer done :
  let r := shutdown nodes id n snapshot_timer done in
  shutdown_at initialised nodes id n snapshot_timer done = Some r
  /\ (forall p,
        log_manager_set p && fsm_caller_set p = false
        \/ (_state n <> FOLLOWER /\ stable_storage_set p = false) ->
        shutdown_at p nodes id n snapshot_timer done = None)
  /\ NodeManager.get r.1.1.1 (node_group_id id) (node_peer_id id) = None
  /\ _state r.1.1.2 = SHUTDOWN
  /\ _current_term r.1.1.2 = _current_term n
  /\ _election_timer r.1.1.2 = false
  /\ r.1.2 = false
  /\ (_state n = FOLLOWER ->
      _voted_id r.1.1.2 = _voted_id n
      /\ _stable_storage r.1.1.2 = _stable_storage n)
  /\ (_state n = CANDIDATE -> _vote_timer r.1.1.2 = false)
  /\ (_state n = LEADER ->
      _stepdown_timer r.1.1.2 = false
      /\ pending_apps (_commit_manager r.1.1.2) = []
      /\ replicators (_replicator_group r.1.1.2) = ∅)
  /\ (forall done',
        let r' := shutdown r.1.1.1 id r.1.1.2 r.1.2 done' in
        shutdown_at initialised r.1.1.1 id r.1.1.2 r.1.2 done' = Some r'
        /\ r'.1.1.1 = r.1.1.1
        /\ _state r'.1.1.2 = SHUTDOWN
        /\ _current_term r'.1.1.2 = _current_term n
        /\ _election_timer r'.1.1.2 = false
        /\ r'.1.2 = false
        /\ _ref_count r'.1.1.2 = _ref_count r.1.1.2).
Proof.
  cbv zeta.
  assert (Hret : forall nodes0 m st d,
             shutdown_at initialised nodes0 id m st d
             = Some (shutdown nodes0 id m st d)).
  { intros nodes0 m st d. unfold shutdown_at, step_down_through, initialised.
    cbn [commit_manager_set log_manager_set fsm_caller_set stable_storage_set
           CHECK].
    destruct (negb (bool_decide (_state m = FOLLOWER)));
      [destruct (bool_decide (_state m = LEADER)) |]; reflexivity. }
  split; [apply Hret |].
  split.
  { intros p Hp. unfold shutdown_at, step_down_through.
    destruct Hp as [Hp | [Hs Hp]].
    - destruct (negb (bool_decide (_state n = FOLLOWER)));
        [destruct (bool_decide (_state n = LEADER)) |];
        destruct (commit_manager_set p), (log_manager_set p),
          (fsm_caller_set p), (stable_storage_set p);
        try discriminate Hp; reflexivity.
    - rewrite (bool_decide_eq_false_2 _ Hs), Hp. cbn [negb].
      destruct (bool_decide (_state n = LEADER));
        destruct (commit_manager_set p), (log_manager_set p),
          (fsm_caller_set p); reflexivity. }
  destruct (shutdown nodes id n snapshot_timer done)
    as [[[nodes' n2] snapshot_timer'] calls] eqn:E.
  cbn [fst snd]. unfold shutdown in E.
  injection E as Hnodes Hn2 Hst _. subst nodes' snapshot_timer'.
  set (n1 := if negb (bool_decide (_state n = FOLLOWER)) then _ else n) in Hn2.
  assert (H1 : _current_term n1 = _current_term n
               /\ (_state n = FOLLOWER -> n1 = n)
               /\ (_state n = CANDIDATE -> _vote_timer n1 = false)
               /\ (_state n = LEADER ->
                   _stepdown_timer n1 = false
                   /\ pending_apps (_commit_manager n1) = []
                   /\ replicators (_replicator_group n1) = ∅)).
  { subst n1. clear Hn2. forget_step_down_timers.
    pose proof (sd_current_term _ _ _ Hsd) as Hterm.
    pose proof (sdt_vote_timer _ _ Hsdt) as Hvt.
    pose proof (sdt_stepdown_timer _ _ Hsdt) as Hstt.
    pose proof (sdt_pending_apps _ _ Hsdt) as Hpa.
    pose proof (sdt_replicator_group _ _ Hsdt) as Hrg.
    clear Hsd Hsdt.
    destruct (decide (_state n = FOLLOWER)) as [Hs | Hs].
    - rewrite bool_decide_eq_true_2 by exact Hs. cbn [negb].
      repeat split; congruence.
    - rewrite bool_decide_eq_false_2 by exact Hs. cbn [negb].
      split; [assumption |]. split; [contradiction |].
      split; intros Hs'; rewrite Hs' in *;
        rewrite ?bool_decide_eq_true_2 in * by reflexivity.
      + assumption.
      + rewrite Hrg. repeat split; assumption. }
  destruct H1 as (Ht & Hfol & Hcand & Hlead). clearbody n1.
  assert (H2 : _state n2 = SHUTDOWN /\ _current_term n2 = _current_term n1
               /\ _election_timer n2 = false
               /\ _voted_id n2 = _voted_id n1
               /\ _stable_storage n2 = _stable_storage n1
               /\ _vote_timer n2 = _vote_timer n1
               /\ _stepdown_timer n2 = _stepdown_timer n1
               /\ _commit_manager n2 = _commit_manager n1
               /\ _replicator_group n2 = _replicator_group n1).
  { rewrite <- Hn2. destruct n1. node_simpl.
    repeat match goal with
      | |- context [if ?b then _ else _] => destruct b
      end; repeat split. }
  destruct H2 as (Hs2 & Ht2 & He2 & Hv2 & Hss2 & Hvt2 & Hst2 & Hcm2 & Hrg2).
  clear Hn2.
  split; [destruct id; apply lookup_delete_eq |].
  split; [exact Hs2 |]. split; [congruence |]. split; [exact He2 |].
  split; [reflexivity |].
  split; [intros Hs; rewrite (Hfol Hs) in *; split; assumption |].
  split; [intros Hs; rewrite Hvt2; auto |].
  split; [intros Hs; rewrite Hst2, Hcm2, Hrg2; auto |].
  intros done'. split; [apply Hret |].
  unfold shutdown. cbn [fst snd].
  rewrite Hs2. rewrite bool_decide_eq_false_2 by discriminate. cbn [negb].
  pose proof (step_down_ref_count n2 (_current_term n2)) as Href.
  rewrite Hs2 in Href.
  rewrite !bool_decide_eq_false_2 in Href by discriminate.
  cbn [andb] in Href. revert Href.
  forget_step_down_timers.
  pose proof (sd_current_term _ _ _ Hsd) as Hterm.
  pose proof (sdt_election_timer _ _ Hsdt) as Het. clear Hsd Hsdt.
  rewrite He2 in Het. intros Href.
  split.
  { unfold NodeManager.remove. apply delete_id, lookup_delete_eq. }
  destruct (negb (Conf.empty (_conf n2).2)
            && Conf.contain (_conf n2).2 (_server_id n2));
    rewrite Het; cbn [bthread_timer_del Z.eqb]; node_simpl;
    repeat split; try congruence; lia.
Qed.

(** ** The log check of a vote, the term of an AppendEntries request *)

(** X28: a vote goes only to a candidate whose log is not behind.  When a
    RequestVote of a candidate that is not the empty peer is answered with
    [granted], either the candidate's last log term is larger than the
    node's, or it is the same and the candidate's last index is not smaller;
    or else the answer repeats a vote that the node had given to that
    candidate in that term before the call. *)
Theorem vote_requires_up_to_date_log parse n request response candidate_id :
  parse (rv_server_id request) = Some candidate_id ->
  candidate_id <> empty_peer ->
  rvr_granted (handle_request_vote_request parse n request response).2
  = true ->
  last_log_term n < rv_last_log_term request
  \/ (rv_last_log_term request = last_log_term n
      /\ LogMgr.last_log_index (_log_manager n) <= rv_last_log_index request)
  \/ (_voted_id n = candidate_id /\ _current_term n = rv_term request).
Proof.
  intros Hp Hne.
  assert (Hok : log_is_ok n request = true ->
                last_log_term n < rv_last_log_term request
                \/ (rv_last_log_term request = last_log_term n
                    /\ LogMgr.last_log_index (_log_manager n)
                       <= rv_last_log_index request)).
  { unfold log_is_ok. intros H. apply orb_true_iff in H as [H | H].
    - left. by apply Z.ltb_lt.
    - right. apply andb_true_iff in H as [H1 H2].
      split; [by apply Z.eqb_eq | by apply Z.leb_le]. }
  unfold handle_request_vote_request. rewrite Hp. forget_step_down.
  pose proof (sd_voted_id _ _ _ Hsd) as Hv. clear Hsd.
  cbn [snd rvr_granted].
  assert (Hprev : forall m : NodeImpl,
             m = n ->
             (rv_term request =? _current_term m)
             && peer_eqb (_voted_id m) candidate_id = true ->
             _voted_id n = candidate_id /\ _current_term n = rv_term request).
  { intros m -> H. apply andb_true_iff in H as [H1 H2].
    apply Z.eqb_eq in H1. apply bool_decide_eq_true in H2. auto. }
  destruct (is_empty (_leader_id n)); cbn [negb];
    [| intros Hg; right; right; by apply (Hprev n)].
  destruct (Z.leb_spec (_current_term n) (rv_term request));
    [| intros Hg; right; right; by apply (Hprev n)].
  destruct (log_is_ok n request);
    [intros _; destruct (Hok eq_refl); auto |].
  cbn [andb].
  destruct (Z.ltb_spec (_current_term n) (rv_term request));
    [| intros Hg; right; right; by apply (Hprev n)].
  intros Hg. apply andb_true_iff in Hg as [_ Hg].
  apply bool_decide_eq_true in Hg. congruence.
Qed.

Lemma vote_requires_up_to_date_log_witness :
  let n := Sample.follower 3 [Sample.pA; Sample.pB] 1 [Sample.entry 1 3] in
  let request := mkRequestVoteRequest "B" 4 3 1 in
  last_log_term n < rv_last_log_term request
  \/ (rv_last_log_term request = last_log_term n
      /\ LogMgr.last_log_index (_log_manager n) <= rv_last_log_index request)
  \/ (_voted_id n = Sample.pB /\ _current_term n = rv_term request).
Proof.
  intros n request.
  apply (vote_requires_up_to_date_log Sample.parse n request
           Sample.vote_response0 Sample.pB);
    [reflexivity | discriminate | reflexivity].
Defined.

(** X29: an AppendEntries request that is not of an older term, once
    answered, leaves the node a follower in the request's term, whatever its
    role and term were, and the answer carries that term; the node then
    knows a leader: the sender, unless it was already a follower of that
    term that knew one. *)
Theorem append_entries_adopts_term parse n now buf request response server_id
    ret n' buf' response' :
  parse (ae_server_id request) = Some server_id ->
  _current_term n <= ae_term request ->
  handle_append_entries_request parse n now buf request response
  = Some (ret, n', buf', response') ->
  ret = 0
  /\ _state n' = FOLLOWER
  /\ _current_term n' = ae_term request
  /\ aer_term response' = ae_term request
  /\ (_leader_id n' = server_id
      \/ (_leader_id n' = _leader_id n /\ _leader_id n <> empty_peer
          /\ _state n = FOLLOWER /\ _current_term n = ae_term request)).
Proof.
  intros Hp Ht.
  unfold handle_append_entries_request, append_entries_do. rewrite Hp.
  forget_step_down. intros H.
  apply bind_Some in H as ([[success n1] buf1] & Hbody & H).
  injection H as <- <- _ <-. cbn [aer_term].
  destruct (Z.ltb_spec (ae_term request) (_current_term n)); [lia |].
  pose proof (sd_state _ _ _ Hsd) as Hst.
  pose proof (sd_current_term _ _ _ Hsd) as Hterm.
  pose proof (sd_leader_id _ _ _ Hsd) as Hlead. clear Hsd.
  assert (Hn1 : _state n1 = FOLLOWER /\ _current_term n1 = ae_term request
                /\ (_leader_id n1 = server_id
                    \/ (_leader_id n1 = _leader_id n
                        /\ _leader_id n <> empty_peer
                        /\ _state n = FOLLOWER
                        /\ _current_term n = ae_term request))).
  { match type of Hbody with
    | (CHECK (is_null (_loading_snapshot_meta ?x)) ;; _) = _ =>
        assert (Hm : _state x = FOLLOWER /\ _current_term x = ae_term request
                     /\ (_leader_id x = server_id
                         \/ (_leader_id x = _leader_id n
                             /\ _leader_id n <> empty_peer
                             /\ _state n = FOLLOWER
                             /\ _current_term n = ae_term request)));
        [| generalize dependent x; intros m Hbody Hm]
    end.
    { destruct (Z.ltb_spec (_current_term n) (ae_term request));
        destruct (bool_decide (_state n = FOLLOWER)) eqn:Hfol;
        cbn [negb orb];
        try apply bool_decide_eq_true in Hfol;
        try (rewrite Hlead;
             rewrite (proj2 (is_empty_true empty_peer) eq_refl);
             node_simpl; auto).
      destruct (is_empty (_leader_id n)) eqn:He; node_simpl.
      - repeat split; try assumption; try lia. auto.
      - apply is_empty_false in He.
        repeat split; try assumption; try lia. right.
        repeat split; try assumption; lia. }
    apply CHECK_Some in Hbody as [_ Hbody].
    split_handler Hbody; try discriminate Hbody;
      try (injection Hbody as _ <- _; exact Hm).
    injection Hbody as _ <- _.
    match goal with
    | Hl : append_entries_loop _ _ _ _ _ _ = Some _ |- _ =>
        apply append_entries_loop_kept in Hl; destruct Hl
    end.
    match goal with
    | |- context [append_batch ?a ?b] => destruct (append_batch_kept a b)
    end.
    destruct Hm as (? & ? & Hld).
    split; [congruence | split; [congruence |]].
    destruct Hld as [? | (? & ? & ? & ?)]; [left | right];
      repeat split; congruence. }
  split; [reflexivity |].
  destruct success; node_simpl; tauto.
Qed.

Lemma append_entries_adopts_term_witness :
  let n := set_state (Sample.follower 2 [Sample.pA; Sample.pB] 1 [])
             CANDIDATE in
  exists n' buf' response',
    handle_append_entries_request Sample.parse n 0 []
      (mkAppendEntriesRequest "B" 2 0 0 [] 0) Sample.append_response0
    = Some (0, n', buf', response')
    /\ _state n' = FOLLOWER
    /\ _leader_id n' = Sample.pB.
Proof.
  intros n.
  destruct (handle_append_entries_request Sample.parse n 0 []
              (mkAppendEntriesRequest "B" 2 0 0 [] 0) Sample.append_response0)
    as [[[[ret n'] buf'] response'] |] eqn:H;
    [| vm_compute in H; discriminate H].
  destruct (append_entries_adopts_term Sample.parse n 0 []
              (mkAppendEntriesRequest "B" 2 0 0 [] 0) Sample.append_response0
              Sample.pB ret n' buf' response' eq_refl)
    as (-> & Hs & _ & _ & _); [vm_compute; discriminate | exact H |].
  exists n', buf', response'. split; [reflexivity |].
  split; [exact Hs |].
  vm_compute in H. injection H as <- _ _. reflexivity.
Defined.
